(** * migration_verifier: providers, migration, quality report, corrections

    A shallow embedding of [core/migration.py] and of the provider classes
    under [core/providers/], together with the properties of the
    specification that concern them.

    Python objects are modelled as records, method calls as state
    transformers that either return a value or raise, and the third-party
    services the providers talk to (the SQL engines, BigQuery, Snowflake,
    S3) as small explicit state machines. *)

From Stdlib Require Import ZArith Lia.
From stdpp Require Import base numbers option list strings gmap pretty sorting.

#[local] Set Warnings "-clear-no-such-hyp".

Local Open Scope string_scope.
Local Open Scope list_scope.
Local Open Scope Z_scope.

(** ** Python runtime: exceptions, results, stateful computations *)

(** The exception classes that the modelled code and the libraries it
    calls can raise.  All of them derive from [Exception]. *)
Inductive Exn : Type :=
  | ValueError          (* builtin; also pandas' "not valid for if_exists" *)
  | AttributeError      (* method call on [None] *)
  | OSError             (* filesystem *)
  | DatabaseError       (* sqlite3 / SQLAlchemy / Snowflake connector errors *)
  | ClientError         (* botocore.exceptions.ClientError *)
  | BotoCoreError       (* botocore errors that are not ClientError *)
  | NotFound            (* google.api_core.exceptions.NotFound *)
  | GoogleAPIError      (* other google.api_core errors *)
  | TypeError           (* builtin *)
  | KeyError            (* builtin *)
  | ParserError.        (* pandas readers, pandas.query *)

#[export] Instance Exn_eq_dec : EqDecision Exn.
Proof. solve_decision. Defined.

(** The name of the class, or of the base class that the errors of the
    three database drivers share. *)
Definition class_name (e : Exn) : string :=
  match e with
  | ValueError => "ValueError"
  | AttributeError => "AttributeError"
  | OSError => "OSError"
  | DatabaseError => "DatabaseError"
  | ClientError => "ClientError"
  | BotoCoreError => "BotoCoreError"
  | NotFound => "NotFound"
  | GoogleAPIError => "GoogleAPIError"
  | TypeError => "TypeError"
  | KeyError => "KeyError"
  | ParserError => "ParserError"
  end.

Inductive Res (A : Type) : Type :=
  | Ok (a : A)
  | Raise (e : Exn).
Arguments Ok {A} a.
Arguments Raise {A} e.

(** A method body: runs on a state, returns or raises, and leaves a state
    behind in both cases (what was mutated before a [raise] stays
    mutated). *)
Definition M (S A : Type) : Type := S → Res A * S.

Definition ret {S A} (a : A) : M S A := λ s, (Ok a, s).
Definition raise {S A} (e : Exn) : M S A := λ s, (Raise e, s).
Definition bind {S A B} (m : M S A) (k : A → M S B) : M S B :=
  λ s, match m s with
       | (Ok a, s') => k a s'
       | (Raise e, s') => (Raise e, s')
       end.
Definition get {S} : M S S := λ s, (Ok s, s).
Definition gets {S A} (f : S → A) : M S A := λ s, (Ok (f s), s).
Definition modify {S} (f : S → S) : M S unit := λ s, (Ok tt, f s).
Definition lift_res {S A} (r : Res A) : M S A := λ s, (r, s).

Notation "'let*' x := m 'in' k" := (bind m (λ x, k))
  (at level 10, x name, m at level 100, k at level 200,
   format "'[v' 'let*'  x  :=  m  'in'  '/' k ']'").
Notation "'do' m 'then' k" := (bind m (λ _, k))
  (at level 10, m at level 100, k at level 200,
   format "'[v' 'do'  m  'then'  '/' k ']'").

(** [try: body except Exception: handler] *)
Definition try_except {S A} (body : M S A) (handler : M S A) : M S A :=
  λ s, match body s with
       | (Ok a, s') => (Ok a, s')
       | (Raise _, s') => handler s'
       end.

(** [try: body except cls: handler] for one exception class. *)
Definition try_except_cls {S A} (cls : Exn) (body : M S A) (handler : M S A)
  : M S A :=
  λ s, match body s with
       | (Ok a, s') => (Ok a, s')
       | (Raise e, s') => if decide (e = cls) then handler s' else (Raise e, s')
       end.

(** [try: body finally: fin] *)
Definition try_finally {S A} (body : M S A) (fin : M S unit) : M S A :=
  λ s, match body s with
       | (r, s') =>
           match fin s' with
           | (Ok _, s'') => (r, s'')
           | (Raise e, s'') => (Raise e, s'')
           end
       end.

(** [for x in xs: acc = body(acc, x)] *)
Fixpoint for_each {S A X} (xs : list X) (acc : A) (body : A → X → M S A)
  : M S A :=
  match xs with
  | [] => ret acc
  | x :: xs' => let* acc' := body acc x in for_each xs' acc' body
  end.

(** [range(start, stop, step)], with CPython's length formula. *)
Definition py_range (start stop step : Z) : Res (list Z) :=
  if decide (step = 0) then Raise ValueError
  else
    let n :=
      if decide (0 < step)
      then (if decide (start < stop) then (stop - start + step - 1) `div` step else 0)
      else (if decide (stop < start) then (start - stop + (- step) - 1) `div` (- step) else 0) in
    Ok ((λ j : nat, start + Z.of_nat j * step) <$> seq 0 (Z.to_nat n)).

(** Values found in a credentials dictionary or handed to string
    formatting. *)
Inductive Value : Type :=
  | VNone
  | VStr (s : string)
  | VInt (z : Z).

#[export] Instance Value_eq_dec : EqDecision Value.
Proof. solve_decision. Defined.

(** Python truthiness. *)
Definition truthy (v : Value) : bool :=
  match v with
  | VNone => false
  | VStr s => negb (bool_decide (s = ""))
  | VInt z => negb (bool_decide (z = 0))
  end.

(** [str(v)] as used inside f-strings. *)
Definition py_str (v : Value) : string :=
  match v with
  | VNone => "None"
  | VStr s => s
  | VInt z => pretty z
  end.

(** [a or b] *)
Definition py_or (a b : Value) : Value := if truthy a then a else b.

(** [s.endswith(suffix)] *)
Definition endswith (s suffix : string) : bool :=
  let n := String.length s in
  let m := String.length suffix in
  bool_decide (m ≤ n)%nat && bool_decide (String.substring (n - m) m s = suffix).

(** [sub in s] for strings. *)
Fixpoint str_contains (sub s : string) : bool :=
  String.prefix sub s
  || match s with
     | EmptyString => false
     | String _ s' => str_contains sub s'
     end.

(** Python strings are held as their UTF-8 encoding, one [ascii] per
    byte.  [py_isspace] is [str.isspace] on one code point, after
    CPython's [_PyUnicode_IsWhitespace]: tab to carriage return, the
    separators U+001C to U+001F, the space, U+0085, U+00A0, U+1680,
    U+2000 to U+200A, U+2028, U+2029, U+202F, U+205F and U+3000. *)
Definition py_isspace (cp : N) : bool :=
  bool_decide (cp ∈ [9; 10; 11; 12; 13; 28; 29; 30; 31; 32; 133; 160; 5760;
                     8232; 8233; 8239; 8287; 12288]%N)
  || (bool_decide (8192 ≤ cp)%N && bool_decide (cp ≤ 8202)%N).

(** [s.strip()] is only ever tested for emptiness: the string is blank iff
    every code point of it is white space.  The code points are decoded
    from one, two or three bytes; those of four bytes are no white
    space. *)
Fixpoint is_blank (s : string) : bool :=
  match s with
  | EmptyString => true
  | String a s1 =>
      let a := Ascii.N_of_ascii a in
      if bool_decide (a < 128)%N then py_isspace a && is_blank s1
      else
        match s1 with
        | EmptyString => false
        | String b s2 =>
            let b := Ascii.N_of_ascii b in
            if bool_decide (a < 224)%N
            then py_isspace ((a - 192) * 64 + (b - 128)) && is_blank s2
            else
              match s2 with
              | EmptyString => false
              | String c s3 =>
                  let c := Ascii.N_of_ascii c in
                  bool_decide (a < 240)%N
                  && py_isspace ((a - 224) * 4096 + (b - 128) * 64 + (c - 128))
                  && is_blank s3
              end
        end
  end.

(** [where_clause and where_clause.strip()] as a condition. *)
Definition has_where (where_clause : option string) : option string :=
  match where_clause with
  | Some w => if is_blank w then None else Some w
  | None => None
  end.

(** [limit and limit > 0] as a condition. *)
Definition has_limit (limit : option Z) : option Z :=
  match limit with
  | Some n => if decide (0 < n) then Some n else None
  | None => None
  end.

(** ** pandas: the tabular recordset *)

Inductive Cell : Type :=
  | CNull                 (* None / NaN / NULL *)
  | CBool (b : bool)
  | CInt (z : Z)
  | CStr (s : string).

#[export] Instance Cell_eq_dec : EqDecision Cell.
Proof. solve_decision. Defined.

Inductive Dtype : Type := DObject | DInt64 | DBool.

#[export] Instance Dtype_eq_dec : EqDecision Dtype.
Proof. solve_decision. Defined.

(** A [DataFrame] with a positional index: column labels, one dtype per
    column, and the rows in order. *)
Record DataFrame : Type := mkDF {
  columns : list string;
  dtypes : list Dtype;
  rows : list (list Cell);
}.

#[export] Instance DataFrame_eq_dec : EqDecision DataFrame.
Proof. solve_decision. Defined.

(** [pd.DataFrame()] *)
Definition empty_frame : DataFrame := mkDF [] [] [].

(** [len(df)]: the length of the index. *)
Definition len (df : DataFrame) : Z := Z.of_nat (length (rows df)).

(** [df.empty]: true when either axis has length 0, that is, when the
    frame has no row or no column. *)
Definition empty (df : DataFrame) : bool :=
  bool_decide (rows df = []) || bool_decide (columns df = []).

(** Slice bound normalisation of Python for a sequence of length [n]. *)
Definition slice_bound (n : nat) (i : Z) : nat :=
  if decide (i < 0) then Z.to_nat (Z.max (i + Z.of_nat n) 0)
  else Z.to_nat (Z.min i (Z.of_nat n)).

(** [l[i:j]] *)
Definition py_slice {A} (i j : Z) (l : list A) : list A :=
  let a := slice_bound (length l) i in
  let b := slice_bound (length l) j in
  take (b - a) (drop a l).

(** [df.iloc[i:j]] *)
Definition iloc (i j : Z) (df : DataFrame) : DataFrame :=
  mkDF (columns df) (dtypes df) (py_slice i j (rows df)).

(** [df.iloc[:n]] *)
Definition head (n : Z) (df : DataFrame) : DataFrame := iloc 0 n df.

(** What a cell is hashed and compared as when rows are looked up: pandas
    factorizes the values of a column with Python's hash and equality,
    under which [True] is [1] and [False] is [0]; nulls are one value. *)
Definition cell_key (c : Cell) : Cell :=
  match c with
  | CBool b => CInt (if b then 1 else 0)
  | _ => c
  end.

Definition row_key (r : list Cell) : list Cell := cell_key <$> r.

(** The boolean series of [duplicated(keep="first")]: a row is marked when
    a row that compares equal to it, column by column, occurs before it. *)
Fixpoint duplicated_from (seen : list (list Cell)) (l : list (list Cell))
  : list bool :=
  match l with
  | [] => []
  | r :: l' =>
      bool_decide (row_key r ∈ seen) :: duplicated_from (row_key r :: seen) l'
  end.

Definition duplicated (df : DataFrame) : list bool :=
  if empty df then [] else duplicated_from [] (rows df).

(** [series.sum()] of a boolean series. *)
Definition bool_sum (m : list bool) : Z :=
  Z.of_nat (length (filter (λ b, b = true) m)).

(** [df[~mask]]: the rows whose mask entry is false. *)
Fixpoint drop_masked {A} (mask : list bool) (l : list A) : list A :=
  match mask, l with
  | b :: mask', x :: l' =>
      if b then drop_masked mask' l' else x :: drop_masked mask' l'
  | _, _ => []
  end.

(** [df.drop_duplicates(keep="first")]; [reset_index(drop=True)] is the
    identity on a positional index. *)
Definition drop_duplicates (df : DataFrame) : DataFrame :=
  if empty df then df
  else mkDF (columns df) (dtypes df) (drop_masked (duplicated df) (rows df)).

Definition reset_index (df : DataFrame) : DataFrame := df.

(** Position of a label in a header. *)
Fixpoint col_index (c : string) (cs : list string) : option nat :=
  match cs with
  | [] => None
  | c' :: cs' => if decide (c' = c) then Some 0%nat else S <$> col_index c cs'
  end.

(** The positions at which a label occurs in a header. *)
Fixpoint positions_from (i : nat) (c : string) (cs : list string) : list nat :=
  match cs with
  | [] => []
  | c' :: cs' =>
      if decide (c' = c) then i :: positions_from (S i) c cs'
      else positions_from (S i) c cs'
  end.

(** The values of the column at a position. *)
Definition cells_at (df : DataFrame) (i : nat) : list Cell :=
  (λ r, default CNull (r !! i)) <$> rows df.

(** [df[c]]: a Series when one column carries the label, a DataFrame of
    the columns that carry it when the label is repeated. *)
Inductive Selection : Type :=
  | Series (cells : list Cell)
  | Frame (cols : list (list Cell)).

Definition getitem (df : DataFrame) (c : string) : Res Selection :=
  match positions_from 0 c (columns df) with
  | [] => Raise KeyError
  | [i] => Ok (Series (cells_at df i))
  | ps => Ok (Frame (cells_at df <$> ps))
  end.

Definition isna (c : Cell) : bool := bool_decide (c = CNull).

(** [str(x)] of a cell, as [astype(str)] computes it. *)
Definition cell_str (c : Cell) : string :=
  match c with
  | CNull => "None"
  | CBool true => "True"
  | CBool false => "False"
  | CInt z => pretty z
  | CStr s => s
  end.

(** [int(sel.isna().sum())]: the sum of a boolean Series is a number, the
    sum of a DataFrame is a Series with one sum per column, and [int] of
    a Series of several elements raises TypeError. *)
Definition isna_sum (sel : Selection) : Res Z :=
  match sel with
  | Series cells => Ok (bool_sum (isna <$> cells))
  | Frame _ => Raise TypeError
  end.

(** [int(sel.astype(str).str.endswith(suffix).sum())]: a DataFrame has no
    [str] accessor. *)
Definition endswith_sum (suffix : string) (sel : Selection) : Res Z :=
  match sel with
  | Series cells => Ok (bool_sum ((λ x, endswith (cell_str x) suffix) <$> cells))
  | Frame _ => Raise AttributeError
  end.

(** [df.select_dtypes(include="object").columns] *)
Definition object_columns (df : DataFrame) : list string :=
  fst <$> filter (λ cd, cd.2 = DObject) (zip (columns df) (dtypes df)).

(** [pd.concat([a, b], ignore_index=True)]: the header is the union of the
    two headers (those of [a] first); every row is re-laid on it, with a
    null where its frame has no such column. *)
Definition relay (from to : list string) (r : list Cell) : list Cell :=
  (λ c, match col_index c from with
        | Some i => default CNull (r !! i)
        | None => CNull
        end) <$> to.

Definition concat_dtypes (a b : DataFrame) (hdr : list string) : list Dtype :=
  (λ c, match col_index c (columns a) with
        | Some i => default DObject (dtypes a !! i)
        | None => match col_index c (columns b) with
                  | Some j => default DObject (dtypes b !! j)
                  | None => DObject
                  end
        end) <$> hdr.

Definition pd_concat (a b : DataFrame) : DataFrame :=
  let hdr := (columns a ++ filter (λ c, c ∉ columns a) (columns b))%list in
  mkDF hdr (concat_dtypes a b hdr)
       ((relay (columns a) hdr <$> rows a) ++ (relay (columns b) hdr <$> rows b))%list.

(** ** core/providers/base.py: the capability contract *)

(** The methods of [DataProvider], over the state [S] that a concrete
    provider owns (its attributes and the backend it talks to). *)
Record DataProvider (S : Type) : Type := mkProvider {
  connect : M S unit;
  test_connection : M S bool;
  has_permissions : list string → M S (gmap string bool);
  list_datasets : M S (list Value);
  list_tables : option string → M S (list string);
  read_table : string → option Z → M S DataFrame;
  write_table : string → DataFrame → string → M S Z;
  delete_rows : string → option string → M S Z;
  delete_table : string → M S unit;
  close : M S unit;
}.
Arguments mkProvider {S}.
Arguments connect {S} _.
Arguments test_connection {S} _.
Arguments has_permissions {S} _ _.
Arguments list_datasets {S} _.
Arguments list_tables {S} _ _.
Arguments read_table {S} _ _ _.
Arguments write_table {S} _ _ _ _.
Arguments delete_rows {S} _ _ _.
Arguments delete_table {S} _ _.
Arguments close {S} _.

(** [DataProvider.has_permissions]: the permissive default of the base
    class, [{act: True for act in actions}]. *)
Definition base_has_permissions {S} (actions : list string)
  : M S (gmap string bool) :=
  ret (foldl (λ d act, <[act := true]> d) ∅ actions).

(** ** core/migration.py *)

(** The calls that the functions of [migration.py] make on the providers
    they are handed are recorded, in order, next to the state. *)
Inductive Role : Type := Source | Dest | Subject.

Inductive Call : Type :=
  | CallRead (table_name : string) (limit : option Z)
  | CallWrite (table_name : string) (df : DataFrame) (if_exists : string)
  | CallDeleteTable (table_name : string).

#[export] Instance Role_eq_dec : EqDecision Role.
Proof. solve_decision. Defined.
#[export] Instance Call_eq_dec : EqDecision Call.
Proof. solve_decision. Defined.

Definition Event : Type := Role * Call.

(** The report dictionary of [check_table_quality]. *)
Record QualityReport : Type := mkReport {
  report_rows : Z;
  report_columns : list string;
  duplicates : Z;
  nulls_by_column : gmap string Z;
  truncated_like : Z;
}.

(** The default of the [chunk_size] parameter of [migrate_table]. *)
Definition default_chunk_size : Z := 5000.

Section Migration.
Context {W : Type}.

(** A method call on a provider: the call is logged when it is made,
    whether it returns or raises. *)
Definition invoke {A} (who : Role) (c : Call) (m : M W A)
  : M (W * list Event) A :=
  λ s, match m s.1 with
       | (r, w') => (r, (w', (s.2 ++ [(who, c)])%list))
       end.

Definition migrate_table (source dest : DataProvider W)
    (table_name : string) (chunk_size : Z) : M (W * list Event) Z :=
  let* df := invoke Source (CallRead table_name None)
               (read_table source table_name None) in
  if empty df then
    (* ensure table exists on destination *)
    do invoke Dest (CallWrite table_name df "append")
         (write_table dest table_name df "append") then
    ret 0
  else
    let total := 0 in
    if decide (len df ≤ chunk_size) then
      let* n := invoke Dest (CallWrite table_name df "append")
                  (write_table dest table_name df "append") in
      ret (total + n)
    else
      let* starts := lift_res (py_range 0 (len df) chunk_size) in
      for_each starts total (λ total i,
        let chunk := iloc i (i + chunk_size) df in
        let* n := invoke Dest (CallWrite table_name chunk "append")
                    (write_table dest table_name chunk "append") in
        ret (total + n)).

Definition check_table_quality (provider : DataProvider W)
    (table_name : string) : M (W * list Event) QualityReport :=
  let* df := invoke Subject (CallRead table_name None)
               (read_table provider table_name None) in
  let report := mkReport (len df) (columns df) 0 ∅ 0 in
  if empty df then ret report
  else
    let dups := bool_sum (duplicated df) in
    let* nulls :=
      for_each (columns df) ∅ (λ nulls c,
        let* sel := lift_res (getitem df c) in
        let* n := lift_res (isna_sum sel) in
        ret (<[c := n]> nulls)) in
    (* naive heuristic: strings ending with '...' considered truncated-like *)
    let* truncated :=
      for_each (object_columns df) 0 (λ truncated_like c,
        let* sel := lift_res (getitem df c) in
        let* n := lift_res (endswith_sum "..." sel) in
        ret (truncated_like + n)) in
    ret (mkReport (report_rows report) (report_columns report)
                  dups nulls truncated).

Definition apply_corrections (provider : DataProvider W)
    (table_name : string) : M (W * list Event) Z :=
  let* df := invoke Subject (CallRead table_name None)
               (read_table provider table_name None) in
  if empty df then ret 0
  else
    let before := len df in
    let df2 := reset_index (drop_duplicates df) in
    do invoke Subject (CallDeleteTable table_name)
         (delete_table provider table_name) then
    do invoke Subject (CallWrite table_name df2 "replace")
         (write_table provider table_name df2 "replace") then
    ret (before - len df2).

Definition add_data_from_dataframe (provider : DataProvider W)
    (table_name : string) (df : DataFrame) : M (W * list Event) Z :=
  invoke Subject (CallWrite table_name df "append")
    (write_table provider table_name df "append").

End Migration.

(** The frames handed to [write_table] by a given role, in call order. *)
Definition writes_of (who : Role) (log : list Event) : list DataFrame :=
  omap (λ ev : Event,
          match ev with
          | (r, CallWrite _ df _) => if decide (r = who) then Some df else None
          | _ => None
          end) log.

(** Two providers that own separate states, seen as providers over the
    pair of states. *)
Definition on_fst {S1 S2 A} (m : M S1 A) : M (S1 * S2) A :=
  λ s, match m s.1 with (r, s1') => (r, (s1', s.2)) end.
Definition on_snd {S1 S2 A} (m : M S2 A) : M (S1 * S2) A :=
  λ s, match m s.2 with (r, s2') => (r, (s.1, s2')) end.

Definition left_provider {S1 S2} (p : DataProvider S1) : DataProvider (S1 * S2) :=
  mkProvider (on_fst (connect p)) (on_fst (test_connection p))
    (λ a, on_fst (has_permissions p a)) (on_fst (list_datasets p))
    (λ d, on_fst (list_tables p d)) (λ t l, on_fst (read_table p t l))
    (λ t df m, on_fst (write_table p t df m))
    (λ t w, on_fst (delete_rows p t w)) (λ t, on_fst (delete_table p t))
    (on_fst (close p)).

Definition right_provider {S1 S2} (p : DataProvider S2) : DataProvider (S1 * S2) :=
  mkProvider (on_snd (connect p)) (on_snd (test_connection p))
    (λ a, on_snd (has_permissions p a)) (on_snd (list_datasets p))
    (λ d, on_snd (list_tables p d)) (λ t l, on_snd (read_table p t l))
    (λ t df m, on_snd (write_table p t df m))
    (λ t w, on_snd (delete_rows p t w)) (λ t, on_snd (delete_table p t))
    (on_snd (close p)).

(** ** Credentials *)

(** The credentials dictionary handed to a provider's constructor. *)
Abbreviation Credentials := (gmap string Value).

(** [credentials.get(key)] and [credentials.get(key, default)] *)
Definition cred_get (c : Credentials) (key : string) : Value :=
  default VNone (c !! key).
Definition cred_get_default (c : Credentials) (key : string) (d : Value) : Value :=
  default d (c !! key).

(** [s.lower()] on ASCII letters. *)
Definition ascii_lower (c : Ascii.ascii) : Ascii.ascii :=
  let n := Ascii.nat_of_ascii c in
  if bool_decide (65 ≤ n)%nat && bool_decide (n ≤ 90)%nat
  then Ascii.ascii_of_nat (n + 32) else c.
Fixpoint lower (s : string) : string :=
  match s with
  | EmptyString => EmptyString
  | String c s' => String (ascii_lower c) (lower s')
  end.

(** [{a: results.get(a, True) for a in actions}] *)
Definition report_actions (results : gmap string bool) (actions : list string)
  : gmap string bool :=
  foldl (λ d a, <[a := default true (results !! a)]> d) ∅ actions.

(** ** SQL engines

    What the SQL-backed providers see of the engine behind them and of
    the client stack in front of it: whether the engine takes
    connections, the tables of each schema, which WHERE texts it
    understands over a given header, which loads it accepts, whether it
    runs the probe statement [SELECT 1] (a file that is no database
    opens but answers no statement; a session may be refused the
    statement), whether the driver reports the row count of a DELETE, and
    which URLs SQLAlchemy parses.  Table names are taken as plain
    identifiers. *)
Module Sql.
Record Database : Type := mkDatabase {
  up : bool;
  tables : gmap (string * string) DataFrame;
  where_sem : string → list string → option (list Cell → bool);
  accepts : string → DataFrame → bool;
  select_1_ok : bool;
  reports_rowcount : bool;
  parses_url : string → bool;
}.

Definition set_tables (f : gmap (string * string) DataFrame →
                           gmap (string * string) DataFrame)
    (db : Database) : Database :=
  mkDatabase (up db) (f (tables db)) (where_sem db) (accepts db)
             (select_1_ok db) (reports_rowcount db) (parses_url db).

(** Any statement fails when the engine cannot be reached. *)
Definition guard_up : M Database unit :=
  λ db, if up db then (Ok tt, db) else (Raise DatabaseError, db).

(** [create_engine(url)] of SQLAlchemy: the URL is parsed at once, [int]
    being applied to its port, and no connection is opened. *)
Definition create_engine (url : string) : M Database string :=
  let* db := get in
  if parses_url db url then ret url else raise ValueError.

(** [SELECT 1] *)
Definition select_1 : M Database unit :=
  do guard_up then
  let* db := get in
  if select_1_ok db then ret tt else raise DatabaseError.

(** [SELECT * FROM schema.name [LIMIT n]] read into a frame. *)
Definition select_all (schema name : string) (limit : option Z)
  : M Database DataFrame :=
  do guard_up then
  let* db := get in
  match tables db !! (schema, name) with
  | Some df => ret (match limit with Some n => head n df | None => df end)
  | None => raise DatabaseError
  end.

(** Creating [schema.name] with the header of [df] and loading its rows. *)
Definition create_and_load (schema name : string) (df : DataFrame)
  : M Database unit :=
  let* db := get in
  if accepts db name df
  then modify (set_tables (λ t, <[(schema, name) := df]> t))
  else raise DatabaseError.

(** Inserting the rows of [df] into an existing table: its columns must
    be columns of the table; the others are left null. *)
Definition append_rows (schema name : string) (old df : DataFrame)
  : M Database unit :=
  let* db := get in
  if accepts db name df
     && forallb (λ c, bool_decide (c ∈ columns old)) (columns df)
  then modify (set_tables (λ t,
         <[(schema, name) :=
             mkDF (columns old) (dtypes old)
                  (rows old ++ (relay (columns df) (columns old) <$> rows df))]> t))
  else raise DatabaseError.

(** [DataFrame.to_sql(name, con, if_exists=..., index=False,
    schema=...)] of pandas: the mode is validated first, then the
    connectable is used. *)
Definition to_sql {H} (con : option H) (schema name : string) (df : DataFrame)
    (if_exists : string) : M Database unit :=
  if negb (bool_decide (if_exists ∈ ["fail"; "replace"; "append"]))
  then raise ValueError
  else
    do (match con with Some _ => ret tt | None => raise AttributeError end) then
    do guard_up then
    let* db := get in
    match tables db !! (schema, name) with
    | Some old =>
        if decide (if_exists = "fail") then raise ValueError
        else if decide (if_exists = "replace")
             then create_and_load schema name df
             else append_rows schema name old df
    | None => create_and_load schema name df
    end.

(** [DELETE FROM schema.name [WHERE w]]; the value is the [rowcount] of
    the result, [None] when the driver reports none. *)
Definition delete_from (schema name : string) (where_clause : option string)
  : M Database (option Z) :=
  do guard_up then
  let* db := get in
  match tables db !! (schema, name) with
  | None => raise DatabaseError
  | Some old =>
      let* kept :=
        match where_clause with
        | None => ret []
        | Some w =>
            match where_sem db w (columns old) with
            | None => raise DatabaseError
            | Some p => ret (filter (λ r, p r = false) (rows old))
            end
        end in
      do modify (set_tables (λ t,
           <[(schema, name) := mkDF (columns old) (dtypes old) kept]> t)) then
      ret (if reports_rowcount db
           then Some (len old - Z.of_nat (length kept)) else None)
  end.

(** [DROP TABLE IF EXISTS schema.name] *)
Definition drop_if_exists (schema name : string) : M Database unit :=
  do guard_up then
  modify (set_tables (λ t, delete (schema, name) t)).

(** [CREATE TABLE IF NOT EXISTS schema.name (cols...)], every column a
    string column. *)
Definition create_if_not_exists (schema name : string) (cols : list string)
  : M Database unit :=
  do guard_up then
  let* db := get in
  match tables db !! (schema, name) with
  | Some _ => ret tt
  | None => create_and_load schema name (mkDF cols (const DObject <$> cols) [])
  end.

(** [CREATE TEMP TABLE name (cols...)] followed by
    [DROP TABLE IF EXISTS name]: the temporary table lives and dies in
    the session, the tables of the schema are as before. *)
Definition create_and_drop_temp (name : string) (cols : list string)
  : M Database unit :=
  do guard_up then
  let* db := get in
  if accepts db name (mkDF cols (const DObject <$> cols) [])
  then ret tt else raise DatabaseError.

(** [write_pandas(conn, df, name, quote_identifiers=True)] of the
    Snowflake connector: the frame is staged and copied into the
    existing table, all of it or nothing; the third component of the
    result is the number of rows loaded. *)
Definition write_pandas (schema name : string) (df : DataFrame)
  : M Database (bool * Z * Z) :=
  do guard_up then
  let* db := get in
  match tables db !! (schema, name) with
  | Some old =>
      do append_rows schema name old df then
      ret (true, 1, len df)
  | None => raise DatabaseError
  end.

(** The table names of a schema, in name order. *)
Definition table_names (schema : string) : M Database (list string) :=
  do guard_up then
  let* db := get in
  ret (merge_sort String.le
         (omap (λ k : string * string,
                  if decide (k.1 = schema) then Some k.2 else None)
               (map_to_list (tables db)).*1)).
End Sql.

(** A connection object that can be closed: [None] before [connect],
    [Some true] while open, [Some false] once closed. *)
Definition use_connection {S} (conn : option bool) : M S unit :=
  match conn with
  | None => raise AttributeError
  | Some true => ret tt
  | Some false => raise DatabaseError
  end.

(** An attribute that is [None] until [connect] sets it. *)
Definition use_handle {S H} (h : option H) : M S H :=
  match h with
  | None => raise AttributeError
  | Some x => ret x
  end.

(** ** core/providers/sqlite_provider.py *)
Module SQLiteProvider.
Record State : Type := mkState {
  credentials : Credentials;
  _connected : bool;
  db_path : Value;
  conn : option bool;               (* [self.conn] *)
  engine : option string;           (* [self.engine], with its URL *)
  (* the file system and the database file at [db_path] *)
  fs_ok : bool;
  db : Sql.Database;
}.

Definition set_connected (b : bool) (s : State) : State :=
  mkState (credentials s) b (db_path s) (conn s) (engine s) (fs_ok s) (db s).
Definition set_conn (c : option bool) (s : State) : State :=
  mkState (credentials s) (_connected s) (db_path s) c (engine s) (fs_ok s) (db s).
Definition set_engine (e : option string) (s : State) : State :=
  mkState (credentials s) (_connected s) (db_path s) (conn s) e (fs_ok s) (db s).
Definition set_db (d : Sql.Database) (s : State) : State :=
  mkState (credentials s) (_connected s) (db_path s) (conn s) (engine s) (fs_ok s) d.

(** A statement run on the database file. *)
Definition on_db {A} (m : M Sql.Database A) : M State A :=
  λ s, match m (db s) with (r, d) => (r, set_db d s) end.

(** [SQLiteProvider(credentials)] *)
Definition init (credentials : Credentials) (fs_ok : bool) (db : Sql.Database)
  : State :=
  mkState credentials false (cred_get credentials "db_path") None None fs_ok db.

(** [Path(self.db_path)]: only strings are paths. *)
Definition path_of (v : Value) : Res string :=
  match v with
  | VStr p => Ok p
  | _ => Raise TypeError
  end.

Definition connect : M State unit :=
  let* s := get in
  if negb (truthy (db_path s)) then raise ValueError
  else
    let* p := lift_res (path_of (db_path s)) in
    (* Path(...).parent.mkdir(parents=True, exist_ok=True) *)
    do (if fs_ok s then ret tt else raise OSError) then
    (* sqlite3.connect(self.db_path) *)
    do on_db Sql.guard_up then
    do modify (set_conn (Some true)) then
    do modify (set_engine (Some ("sqlite:///" +:+ p))) then
    modify (set_connected true).

(** The round trip that [test_connection] makes on [self.conn]:
    [cur = self.conn.cursor(); cur.execute("SELECT 1"); cur.fetchone()]. *)
Definition probe : M State unit :=
  let* s := get in
  do use_connection (conn s) then
  on_db Sql.select_1.

Definition test_connection : M State bool :=
  try_except
    (do connect then
     do probe then
     ret true)
    (ret false).

Definition has_permissions (actions : list string) : M State (gmap string bool) :=
  for_each actions ∅ (λ perms act,
    if bool_decide (act ∈ ["read"; "write"]) then
      try_except
        (let* s := get in
         let* _p := lift_res (path_of (db_path s)) in
         (* Path(self.db_path).touch(exist_ok=True) *)
         do (if fs_ok s then ret tt else raise OSError) then
         ret (<[act := true]> perms))
        (ret (<[act := false]> perms))
    else ret (<[act := true]> perms)).

Definition list_datasets : M State (list Value) := ret [VStr "main"].

Definition list_tables (dataset : option string) : M State (list string) :=
  let* s := get in
  do use_connection (conn s) then
  on_db (Sql.table_names "main").

Definition read_table (table_name : string) (limit : option Z)
  : M State DataFrame :=
  let* s := get in
  do use_connection (conn s) then
  on_db (Sql.select_all "main" table_name (has_limit limit)).

Definition write_table (table_name : string) (df : DataFrame)
    (if_exists : string) : M State Z :=
  let* s := get in
  do on_db (Sql.to_sql (engine s) "main" table_name df if_exists) then
  ret (len df).

Definition delete_rows (table_name : string) (where_clause : option string)
  : M State Z :=
  let* s := get in
  let* _e := use_handle (engine s) in
  let* rowcount :=
    on_db (Sql.delete_from "main" table_name (has_where where_clause)) in
  (* res.rowcount if res.rowcount is not None else 0 *)
  ret (default 0 rowcount).

Definition delete_table (table_name : string) : M State unit :=
  let* s := get in
  let* _e := use_handle (engine s) in
  on_db (Sql.drop_if_exists "main" table_name).

Definition close : M State unit :=
  try_finally
    (let* s := get in
     match conn s with
     | Some _ => modify (set_conn (Some false))
     | None => ret tt
     end)
    (modify (set_connected false)).

Definition provider : DataProvider State :=
  mkProvider connect test_connection has_permissions list_datasets
    list_tables read_table write_table delete_rows delete_table close.
End SQLiteProvider.

(** ** core/providers/redshift_provider.py *)
Module RedshiftProvider.
Record State : Type := mkState {
  credentials : Credentials;
  _connected : bool;
  engine : option string;           (* [self.engine], with its URL *)
  db : Sql.Database;                (* the cluster *)
}.

Definition set_connected (b : bool) (s : State) : State :=
  mkState (credentials s) b (engine s) (db s).
Definition set_engine (e : option string) (s : State) : State :=
  mkState (credentials s) (_connected s) e (db s).
Definition set_db (d : Sql.Database) (s : State) : State :=
  mkState (credentials s) (_connected s) (engine s) d.
Definition on_db {A} (m : M Sql.Database A) : M State A :=
  λ s, match m (db s) with (r, d) => (r, set_db d s) end.

(** [RedshiftProvider(credentials)] *)
Definition init (credentials : Credentials) (db : Sql.Database) : State :=
  mkState credentials false None db.

(** [self.credentials.get("schema", "public")], as spliced into a
    statement and as the [schema=] argument of pandas and of the
    inspector, where [None] stands for the default schema. *)
Definition schema_text (s : State) : string :=
  py_str (cred_get_default (credentials s) "schema" (VStr "public")).
Definition schema_arg (s : State) : string :=
  match cred_get_default (credentials s) "schema" (VStr "public") with
  | VNone => "public"
  | v => py_str v
  end.

Definition connect : M State unit :=
  let* s := get in
  let user := cred_get (credentials s) "user" in
  let password := cred_get (credentials s) "password" in
  let host := cred_get (credentials s) "host" in
  let port := cred_get_default (credentials s) "port" (VInt 5439) in
  let database := cred_get (credentials s) "database" in
  let url := "postgresql+psycopg2://" +:+ py_str user +:+ ":" +:+ py_str password
             +:+ "@" +:+ py_str host +:+ ":" +:+ py_str port
             +:+ "/" +:+ py_str database in
  let* engine := on_db (Sql.create_engine url) in
  do modify (set_engine (Some engine)) then
  do on_db Sql.select_1 then
  modify (set_connected true).

Definition test_connection : M State bool :=
  try_except (do connect then ret true) (ret false).

Definition has_permissions (actions : list string) : M State (gmap string bool) :=
  let results : gmap string bool := ∅ in
  let* results :=
    try_except
      (let* s := get in
       let* _e := use_handle (engine s) in
       do on_db Sql.select_1 then
       ret (<["read" := true]> results))
      (ret (<["read" := false]> results)) in
  let* results :=
    try_except
      (let* s := get in
       let* _e := use_handle (engine s) in
       do on_db Sql.select_1 then
       ret (<["write" := true]> results))
      (ret (<["write" := false]> results)) in
  ret (report_actions results actions).

Definition list_datasets : M State (list Value) :=
  let* s := get in
  ret [cred_get_default (credentials s) "database" (VStr "dev")].

Definition list_tables (dataset : option string) : M State (list string) :=
  let* s := get in
  (* inspect(self.engine) *)
  do (match engine s with Some _ => ret tt | None => raise DatabaseError end) then
  on_db (Sql.table_names (schema_arg s)).

Definition read_table (table_name : string) (limit : option Z)
  : M State DataFrame :=
  let* s := get in
  let* _e := use_handle (engine s) in
  on_db (Sql.select_all (schema_text s) table_name (has_limit limit)).

Definition write_table (table_name : string) (df : DataFrame)
    (if_exists : string) : M State Z :=
  let* s := get in
  do on_db (Sql.to_sql (engine s) (schema_arg s) table_name df if_exists) then
  ret (len df).

Definition delete_rows (table_name : string) (where_clause : option string)
  : M State Z :=
  let* s := get in
  let* _e := use_handle (engine s) in
  let* rowcount :=
    on_db (Sql.delete_from (schema_text s) table_name (has_where where_clause)) in
  (* res.rowcount if res.rowcount is not None else 0 *)
  ret (default 0 rowcount).

Definition delete_table (table_name : string) : M State unit :=
  let* s := get in
  let* _e := use_handle (engine s) in
  on_db (Sql.drop_if_exists (schema_text s) table_name).

Definition close : M State unit :=
  (* if self.engine: self.engine.dispose() *)
  modify (set_connected false).

Definition provider : DataProvider State :=
  mkProvider connect test_connection has_permissions list_datasets
    list_tables read_table write_table delete_rows delete_table close.
End RedshiftProvider.

(** ** core/providers/snowflake_provider.py *)
Module SnowflakeProvider.
Record State : Type := mkState {
  credentials : Credentials;
  _connected : bool;
  conn : option bool;               (* [self.conn] *)
  db : Sql.Database;                (* the account *)
}.

Definition set_connected (b : bool) (s : State) : State :=
  mkState (credentials s) b (conn s) (db s).
Definition set_conn (c : option bool) (s : State) : State :=
  mkState (credentials s) (_connected s) c (db s).
Definition set_db (d : Sql.Database) (s : State) : State :=
  mkState (credentials s) (_connected s) (conn s) d.
Definition on_db {A} (m : M Sql.Database A) : M State A :=
  λ s, match m (db s) with (r, d) => (r, set_db d s) end.

(** [SnowflakeProvider(credentials)] *)
Definition init (credentials : Credentials) (db : Sql.Database) : State :=
  mkState credentials false None db.

(** The schema of the session opened with
    [schema=self.credentials.get("schema")]. *)
Definition session_schema (s : State) : string :=
  match cred_get (credentials s) "schema" with
  | VNone => "PUBLIC"
  | v => py_str v
  end.

Definition connect : M State unit :=
  (* snowflake.connector.connect(account=..., user=..., ...) *)
  do on_db Sql.guard_up then
  do modify (set_conn (Some true)) then
  do on_db Sql.select_1 then
  modify (set_connected true).

Definition test_connection : M State bool :=
  try_except (do connect then ret true) (ret false).

Definition has_permissions (actions : list string) : M State (gmap string bool) :=
  let res : gmap string bool := ∅ in
  let* res :=
    try_except
      (let* s := get in
       do use_connection (conn s) then
       do on_db Sql.select_1 then
       ret (<["read" := true]> res))
      (ret (<["read" := false]> res)) in
  let* res :=
    try_except
      (let* s := get in
       do use_connection (conn s) then
       do on_db (Sql.create_and_drop_temp "PERM_TEST" ["c"]) then
       ret (<["write" := true]> res))
      (ret (<["write" := false]> res)) in
  ret (report_actions res actions).

Definition list_datasets : M State (list Value) :=
  let* s := get in
  do use_connection (conn s) then
  let* _t := on_db (Sql.table_names (session_schema s)) in
  ret [cred_get_default (credentials s) "database" (VStr "")].

Definition list_tables (dataset : option string) : M State (list string) :=
  let* s := get in
  do use_connection (conn s) then
  on_db (Sql.table_names (session_schema s)).

Definition read_table (table_name : string) (limit : option Z)
  : M State DataFrame :=
  let* s := get in
  do use_connection (conn s) then
  on_db (Sql.select_all (session_schema s) table_name (has_limit limit)).

Definition write_table (table_name : string) (df : DataFrame)
    (if_exists : string) : M State Z :=
  let* s := get in
  do use_connection (conn s) then
  do (if decide (if_exists = "replace")
      then on_db (Sql.drop_if_exists (session_schema s) table_name)
      else ret tt) then
  (* Ensure table exists; create based on dataframe columns as TEXT *)
  let cols := columns df in
  do on_db (Sql.create_if_not_exists (session_schema s) table_name cols) then
  let* res := on_db (Sql.write_pandas (session_schema s) table_name df) in
  let '(_success, _nchunks, nrows) := res in
  ret nrows.

Definition delete_rows (table_name : string) (where_clause : option string)
  : M State Z :=
  let* s := get in
  do use_connection (conn s) then
  let* rowcount :=
    on_db (Sql.delete_from (session_schema s) table_name (has_where where_clause)) in
  try_except
    (* int(res.rowcount): [int(None)] raises TypeError *)
    (match rowcount with
     | Some n => ret n
     | None => raise TypeError
     end)
    (ret 0).

Definition delete_table (table_name : string) : M State unit :=
  let* s := get in
  do use_connection (conn s) then
  on_db (Sql.drop_if_exists (session_schema s) table_name).

Definition close : M State unit :=
  try_finally
    (let* s := get in
     match conn s with
     | Some _ => modify (set_conn (Some false))
     | None => ret tt
     end)
    (modify (set_connected false)).

Definition provider : DataProvider State :=
  mkProvider connect test_connection has_permissions list_datasets
    list_tables read_table write_table delete_rows delete_table close.
End SnowflakeProvider.

(** ** BigQuery

    What the BigQuery client library shows of the service: whether calls
    go through, the project that a key file or the ambient credentials
    name, the datasets, the tables under their full reference
    [project.dataset.table], the WHERE texts understood, the loads
    accepted, whether a DML result reports its affected rows, and whether
    the probe query [SELECT 1] runs. *)
Module BigQuery.
Record Cloud : Type := mkCloud {
  up : bool;
  keyfile_project : option string;   (* [None]: the key file cannot be loaded *)
  ambient_project : option string;   (* [None]: no default credentials *)
  datasets : list string;
  tables : gmap string DataFrame;
  where_sem : string → list string → option (list Cell → bool);
  accepts : string → DataFrame → bool;
  reports_dml_rows : bool;
  select_1_ok : bool;
}.

Definition set_tables (f : gmap string DataFrame → gmap string DataFrame)
    (c : Cloud) : Cloud :=
  mkCloud (up c) (keyfile_project c) (ambient_project c) (datasets c)
          (f (tables c)) (where_sem c) (accepts c) (reports_dml_rows c)
          (select_1_ok c).

Definition guard_up : M Cloud unit :=
  λ c, if up c then (Ok tt, c) else (Raise GoogleAPIError, c).

(** [client.list_datasets()] *)
Definition list_datasets : M Cloud (list string) :=
  do guard_up then gets datasets.

(** [client.query("SELECT 1").result()]: the query is a job, which the
    credentials may not be allowed to create when they may list the
    datasets. *)
Definition query_select_1 : M Cloud unit :=
  do guard_up then
  let* c := get in
  if select_1_ok c then ret tt else raise GoogleAPIError.

(** [client.query("SELECT * FROM `full` [LIMIT n]").result().to_dataframe()] *)
Definition query_select_all (full : string) (limit : option Z)
  : M Cloud DataFrame :=
  do guard_up then
  let* c := get in
  match tables c !! full with
  | Some df => ret (match limit with Some n => head n df | None => df end)
  | None => raise NotFound
  end.

(** [client.get_table(full)] *)
Definition get_table (full : string) : M Cloud DataFrame :=
  do guard_up then
  let* c := get in
  match tables c !! full with
  | Some df => ret df
  | None => raise NotFound
  end.

(** [client.create_table(table, exists_ok=True)] with the given columns. *)
Definition create_table_exists_ok (full : string) (cols : list string)
  : M Cloud unit :=
  do guard_up then
  let* c := get in
  match tables c !! full with
  | Some _ => ret tt
  | None =>
      if accepts c full (mkDF cols (const DObject <$> cols) [])
      then modify (set_tables (λ t,
             <[full := mkDF cols (const DObject <$> cols) []]> t))
      else raise GoogleAPIError
  end.

(** [client.delete_table(full, not_found_ok=...)] *)
Definition delete_table (full : string) (not_found_ok : bool) : M Cloud unit :=
  do guard_up then
  let* c := get in
  match tables c !! full with
  | Some _ => modify (set_tables (λ t, delete full t))
  | None => if not_found_ok then ret tt else raise NotFound
  end.

(** [client.load_table_from_dataframe(df, full).result()]: the table is
    created when needed, the rows are appended. *)
Definition load_table_from_dataframe (df : DataFrame) (full : string)
  : M Cloud unit :=
  do guard_up then
  let* c := get in
  if negb (accepts c full df) then raise GoogleAPIError
  else
    match tables c !! full with
    | Some old =>
        if forallb (λ x, bool_decide (x ∈ columns old)) (columns df)
        then modify (set_tables (λ t,
               <[full := mkDF (columns old) (dtypes old)
                   (rows old ++ (relay (columns df) (columns old) <$> rows df))]> t))
        else raise GoogleAPIError
    | None => modify (set_tables (λ t, <[full := df]> t))
    end.

(** [client.query("DELETE FROM `full` WHERE w").result()]; the value is
    the [num_dml_affected_rows] of the result, when the library reports
    one. *)
Definition query_delete (full : string) (where_clause : option string)
  : M Cloud (option Z) :=
  do guard_up then
  let* c := get in
  match tables c !! full with
  | None => raise NotFound
  | Some old =>
      let* kept :=
        match where_clause with
        | None => ret []
        | Some w =>
            match where_sem c w (columns old) with
            | None => raise GoogleAPIError
            | Some p => ret (filter (λ r, p r = false) (rows old))
            end
        end in
      do modify (set_tables (λ t,
           <[full := mkDF (columns old) (dtypes old) kept]> t)) then
      ret (if reports_dml_rows c
           then Some (len old - Z.of_nat (length kept)) else None)
  end.

(** [client.list_tables(ds)]: the table ids under [project.ds]. *)
Fixpoint strip_prefix (p s : string) : option string :=
  match p, s with
  | EmptyString, _ => Some s
  | String a p', String b s' => if decide (a = b) then strip_prefix p' s' else None
  | String _ _, EmptyString => None
  end.

Definition list_tables (project ds : string) : M Cloud (list string) :=
  do guard_up then
  let* c := get in
  if bool_decide (ds ∈ datasets c)
  then ret (omap (strip_prefix (project +:+ "." +:+ ds +:+ "."))
                 (map_to_list (tables c)).*1)
  else raise NotFound.
End BigQuery.

(** ** core/providers/bigquery_provider.py *)
Module BigQueryProvider.
(** [bigquery.Client]: what the provider reads of it is its project. *)
Record Client : Type := mkClient { project : string }.

Record State : Type := mkState {
  credentials : Credentials;
  _connected : bool;
  client : option Client;           (* [self.client] *)
  cloud : BigQuery.Cloud;
}.

Definition set_connected (b : bool) (s : State) : State :=
  mkState (credentials s) b (client s) (cloud s).
Definition set_client (c : option Client) (s : State) : State :=
  mkState (credentials s) (_connected s) c (cloud s).
Definition set_cloud (c : BigQuery.Cloud) (s : State) : State :=
  mkState (credentials s) (_connected s) (client s) c.
Definition on_cloud {A} (m : M BigQuery.Cloud A) : M State A :=
  λ s, match m (cloud s) with (r, c) => (r, set_cloud c s) end.

(** [BigQueryProvider(credentials)] *)
Definition init (credentials : Credentials) (cloud : BigQuery.Cloud) : State :=
  mkState credentials false None cloud.

(** [Client.from_service_account_json(keyfile_path[, project=...])] *)
Definition from_service_account_json (project_id : option string)
  : M State Client :=
  let* s := get in
  match BigQuery.keyfile_project (cloud s) with
  | None => raise OSError
  | Some kp => ret (mkClient (default kp project_id))
  end.

(** [bigquery.Client(project=project_id)] *)
Definition new_client (project_id : Value) : M State Client :=
  let* s := get in
  match BigQuery.ambient_project (cloud s) with
  | None => raise GoogleAPIError
  | Some ap =>
      ret (mkClient (match project_id with VNone => ap | v => py_str v end))
  end.

Definition connect : M State unit :=
  let* s := get in
  let project_id := cred_get (credentials s) "project_id" in
  let keyfile_path := cred_get (credentials s) "keyfile_path" in
  let* c :=
    if truthy keyfile_path then
      if truthy project_id
      then from_service_account_json (Some (py_str project_id))
      else from_service_account_json None
    else new_client project_id in
  do modify (set_client (Some c)) then
  (* smoke test *)
  let* _ds := on_cloud BigQuery.list_datasets in
  modify (set_connected true).

(** The round trip that [test_connection] makes:
    [self.client.query("SELECT 1").result()]. *)
Definition probe : M State unit :=
  let* s := get in
  let* _c := use_handle (client s) in
  on_cloud BigQuery.query_select_1.

Definition test_connection : M State bool :=
  try_except
    (do connect then
     do probe then
     ret true)
    (ret false).

Definition has_permissions (actions : list string) : M State (gmap string bool) :=
  let res : gmap string bool := ∅ in
  (* read *)
  let* res :=
    try_except
      (let* s := get in
       let* _c := use_handle (client s) in
       do on_cloud BigQuery.query_select_1 then
       ret (<["read" := true]> res))
      (ret (<["read" := false]> res)) in
  (* write (try creating a temp table if dataset is provided) *)
  let* s := get in
  let dataset := cred_get (credentials s) "dataset" in
  let* res :=
    try_except
      (if truthy dataset then
         let* s := get in
         let* c := use_handle (client s) in
         let table_id := project c +:+ "." +:+ py_str dataset +:+ ".__perm_test" in
         do on_cloud (BigQuery.create_table_exists_ok table_id ["c"]) then
         do on_cloud (BigQuery.delete_table table_id true) then
         ret (<["write" := true]> res)
       else ret (<["write" := true]> res))
      (ret (<["write" := false]> res)) in
  ret (report_actions res actions).

Definition list_datasets : M State (list Value) :=
  let* s := get in
  let* _c := use_handle (client s) in
  let* ds := on_cloud BigQuery.list_datasets in
  ret (VStr <$> ds).

Definition list_tables (dataset : option string) : M State (list string) :=
  let* s := get in
  let ds := py_or (from_option VStr VNone dataset)
                  (cred_get (credentials s) "dataset") in
  if negb (truthy ds) then ret []
  else
    let* c := use_handle (client s) in
    on_cloud (BigQuery.list_tables (project c) (py_str ds)).

Definition _full_table_ref (table_name : string) : M State string :=
  let* s := get in
  (* Accept 'dataset.table' or use provided dataset *)
  if str_contains "." table_name then
    let* c := use_handle (client s) in
    ret (project c +:+ "." +:+ table_name)
  else
    let dataset := cred_get (credentials s) "dataset" in
    let* c := use_handle (client s) in
    ret (project c +:+ "." +:+ py_str dataset +:+ "." +:+ table_name).

Definition read_table (table_name : string) (limit : option Z)
  : M State DataFrame :=
  let* full := _full_table_ref table_name in
  on_cloud (BigQuery.query_select_all full (has_limit limit)).

Definition write_table (table_name : string) (df : DataFrame)
    (if_exists : string) : M State Z :=
  let* full := _full_table_ref table_name in
  let* _table :=
    if decide (if_exists ≠ "replace")
    then (let* t := on_cloud (BigQuery.get_table full) in ret (Some t))
    else ret None in
  do (if decide (if_exists = "replace")
      then try_except (on_cloud (BigQuery.delete_table full false)) (ret tt)
      else ret tt) then
  do on_cloud (BigQuery.load_table_from_dataframe df full) then
  ret (len df).

Definition delete_rows (table_name : string) (where_clause : option string)
  : M State Z :=
  let* full := _full_table_ref table_name in
  let* res := on_cloud (BigQuery.query_delete full (has_where where_clause)) in
  (* getattr(res, "num_dml_affected_rows", 0) or 0 *)
  ret (default 0 res).

Definition delete_table (table_name : string) : M State unit :=
  let* full := _full_table_ref table_name in
  on_cloud (BigQuery.delete_table full true).

Definition close : M State unit := modify (set_connected false).

Definition provider : DataProvider State :=
  mkProvider connect test_connection has_permissions list_datasets
    list_tables read_table write_table delete_rows delete_table close.
End BigQueryProvider.

(** ** S3

    What boto3 shows of the object store: whether a client can be built
    for a region in the environment of the process, the fault, if any,
    that every call meets (rejected keys, no route), the buckets, the
    objects, and how pandas reads an object body back. *)
Module S3.
(** The bytes of an object: a frame written by [to_csv] or [to_parquet],
    or anything else. *)
Inductive Body : Type :=
  | Serialized (parquet : bool) (df : DataFrame)
  | Raw (bytes : string).

Record Store : Type := mkStore {
  fault : option Exn;
  buckets : list string;
  objects : gmap (string * string) Body;
  (* [pd.read_parquet] (true) and [pd.read_csv] (false) on a body *)
  reader : bool → Body → Res DataFrame;
  (* whether the region name is one that botocore takes, given the
     profile and the configuration of the environment *)
  builds_client : Value → bool;
}.

Definition set_objects (f : gmap (string * string) Body →
                            gmap (string * string) Body)
    (st : Store) : Store :=
  mkStore (fault st) (buckets st) (f (objects st)) (reader st) (builds_client st).

(** [boto3.client("s3", aws_access_key_id=..., aws_secret_access_key=...,
    region_name=...)]: one key without the other is refused
    (PartialCredentialsError), and so is a region name that botocore
    does not take; no request is sent. *)
Definition new_client (access_key secret_key region : Value) : M Store unit :=
  if bool_decide (access_key ≠ VNone ∧ secret_key = VNone)
     || bool_decide (secret_key ≠ VNone ∧ access_key = VNone)
  then raise BotoCoreError
  else
    let* st := get in
    if builds_client st region then ret tt else raise BotoCoreError.

Definition guard : M Store unit :=
  λ st, match fault st with
        | Some e => (Raise e, st)
        | None => (Ok tt, st)
        end.

(** A [Bucket=], [Key=] or [Prefix=] argument must be a string. *)
Definition str_param (v : Value) : Res string :=
  match v with
  | VStr s => Ok s
  | _ => Raise BotoCoreError
  end.

Definition guard_bucket (bucket : string) : M Store unit :=
  do guard then
  let* st := get in
  if bool_decide (bucket ∈ buckets st) then ret tt else raise ClientError.

(** [client.list_buckets()] *)
Definition list_buckets : M Store (list string) :=
  do guard then gets buckets.

(** The keys of a bucket under a prefix, in key order. *)
Definition keys_of (bucket prefix : string) (st : Store) : list string :=
  merge_sort String.le
    (omap (λ k : string * string,
             if bool_decide (k.1 = bucket) && String.prefix prefix k.2
             then Some k.2 else None)
          (map_to_list (objects st)).*1).

(** [client.list_objects_v2(Bucket=bucket, MaxKeys=1)] *)
Definition list_objects_v2 (bucket : Value) : M Store (list string) :=
  let* b := lift_res (str_param bucket) in
  do guard_bucket b then
  let* st := get in
  ret (take 1 (keys_of b "" st)).

(** Cutting a listing into pages. *)
Fixpoint pages_fuel (fuel size : nat) (l : list string) : list (list string) :=
  match fuel with
  | O => []
  | S fuel' =>
      match l with
      | [] => []
      | _ => take size l :: pages_fuel fuel' size (drop size l)
      end
  end.

(** [client.get_paginator("list_objects_v2").paginate(Bucket=..., Prefix=...)],
    pages of 1000 keys. *)
Definition paginate (bucket prefix : Value) : M Store (list (list string)) :=
  let* b := lift_res (str_param bucket) in
  let* p := lift_res (str_param prefix) in
  do guard_bucket b then
  let* st := get in
  let keys := keys_of b p st in
  ret (match keys with
       | [] => [[]]
       | _ => pages_fuel (length keys) 1000 keys
       end).

(** [client.get_object(Bucket=bucket, Key=key)["Body"].read()] *)
Definition get_object (bucket key : Value) : M Store Body :=
  let* b := lift_res (str_param bucket) in
  let* k := lift_res (str_param key) in
  do guard_bucket b then
  let* st := get in
  match objects st !! (b, k) with
  | Some body => ret body
  | None => raise ClientError
  end.

(** [client.put_object(Bucket=bucket, Key=key, Body=body)] *)
Definition put_object (bucket key : Value) (body : Body) : M Store unit :=
  let* b := lift_res (str_param bucket) in
  let* k := lift_res (str_param key) in
  do guard_bucket b then
  modify (set_objects (λ o, <[(b, k) := body]> o)).

(** [client.delete_object(Bucket=bucket, Key=key)] *)
Definition delete_object (bucket key : Value) : M Store unit :=
  let* b := lift_res (str_param bucket) in
  let* k := lift_res (str_param key) in
  do guard_bucket b then
  modify (set_objects (λ o, delete (b, k) o)).
End S3.

(** ** core/providers/s3_provider.py *)
Module S3Provider.
Record State : Type := mkState {
  credentials : Credentials;
  _connected : bool;
  client : option unit;             (* [self.client] *)
  store : S3.Store;
  (* [df.query(expr)]: which rows satisfy the expression, or the error *)
  pd_query : string → DataFrame → Res (list bool);
}.

Definition set_connected (b : bool) (s : State) : State :=
  mkState (credentials s) b (client s) (store s) (pd_query s).
Definition set_client (c : option unit) (s : State) : State :=
  mkState (credentials s) (_connected s) c (store s) (pd_query s).
Definition set_store (st : S3.Store) (s : State) : State :=
  mkState (credentials s) (_connected s) (client s) st (pd_query s).
Definition on_store {A} (m : M S3.Store A) : M State A :=
  λ s, match m (store s) with (r, st) => (r, set_store st s) end.

(** A call on [self.client]. *)
Definition call_client {A} (m : M S3.Store A) : M State A :=
  let* s := get in
  let* _c := use_handle (client s) in
  on_store m.

(** [S3Provider(credentials)] *)
Definition init (credentials : Credentials) (store : S3.Store)
    (pd_query : string → DataFrame → Res (list bool)) : State :=
  mkState credentials false None store pd_query.

Definition connect : M State unit :=
  let* s := get in
  let access_key := cred_get (credentials s) "aws_access_key_id" in
  let secret_key := cred_get (credentials s) "aws_secret_access_key" in
  let region := cred_get (credentials s) "region" in
  do on_store (S3.new_client access_key secret_key region) then
  do modify (set_client (Some tt)) then
  (* smoke test *)
  let* _b := call_client S3.list_buckets in
  modify (set_connected true).

Definition test_connection : M State bool :=
  try_except (do connect then ret true) (ret false).

Definition has_permissions (actions : list string) : M State (gmap string bool) :=
  let results : gmap string bool := ∅ in
  let* s := get in
  let bucket := cred_get (credentials s) "bucket" in
  (* read: list objects in bucket *)
  let* results :=
    try_except
      (do (if truthy bucket
           then (let* _l := call_client (S3.list_objects_v2 bucket) in ret tt)
           else (let* _l := call_client S3.list_buckets in ret tt)) then
       ret (<["read" := true]> results))
      (ret (<["read" := false]> results)) in
  (* write: put and delete a temp object if bucket provided *)
  let* results :=
    try_except
      (if truthy bucket then
         let key := VStr "__perm_test__.txt" in
         do call_client (S3.put_object bucket key (S3.Raw "test")) then
         do call_client (S3.delete_object bucket key) then
         ret (<["write" := true]> results)
       else ret (<["write" := false]> results))
      (ret (<["write" := false]> results)) in
  ret (report_actions results actions).

Definition list_datasets : M State (list Value) :=
  let* bs := call_client S3.list_buckets in
  ret (VStr <$> bs).

(** The loop over the pages, left as soon as more than 200 keys are held. *)
Fixpoint collect_keys (pages : list (list string)) (keys : list string)
  : list string :=
  match pages with
  | [] => keys
  | page :: pages' =>
      let keys := keys ++ page in
      if decide (200 < length keys)%nat then keys else collect_keys pages' keys
  end.

Definition list_tables (dataset : option string) : M State (list string) :=
  let* s := get in
  let bucket := py_or (from_option VStr VNone dataset)
                      (cred_get (credentials s) "bucket") in
  let prefix := cred_get_default (credentials s) "prefix" (VStr "") in
  if negb (truthy bucket) then ret []
  else
    let* pages := call_client (S3.paginate bucket prefix) in
    ret (collect_keys pages []).

(** [key.lower().endswith(".parquet")] *)
Definition is_parquet (key : Value) : Res bool :=
  match key with
  | VStr k => Ok (endswith (lower k) ".parquet")
  | _ => Raise AttributeError
  end.

Definition _read_object_df (bucket key : Value) : M State DataFrame :=
  let* body := call_client (S3.get_object bucket key) in
  let* pq := lift_res (is_parquet key) in
  let* s := get in
  lift_res (S3.reader (store s) pq body).

Definition read_table (table_name : string) (limit : option Z)
  : M State DataFrame :=
  let* s := get in
  let bucket := cred_get (credentials s) "bucket" in
  let key := py_or (VStr table_name) (cred_get (credentials s) "key") in
  if negb (truthy bucket) || negb (truthy key) then raise ValueError
  else
    let* df := _read_object_df bucket key in
    match has_limit limit with
    | Some n => ret (head n df)
    | None => ret df
    end.

Definition write_table (table_name : string) (df : DataFrame)
    (if_exists : string) : M State Z :=
  let* s := get in
  let bucket := cred_get (credentials s) "bucket" in
  let key := py_or (VStr table_name) (cred_get (credentials s) "key") in
  if negb (truthy bucket) || negb (truthy key) then raise ValueError
  else
    (* For S3, we write full object; append will overwrite by concatenating *)
    let existing := empty_frame in
    let* existing :=
      if decide (if_exists = "append")
      then try_except_cls ClientError (_read_object_df bucket key) (ret empty_frame)
      else ret existing in
    let out_df := if negb (empty existing) then pd_concat existing df else df in
    let* pq := lift_res (is_parquet key) in
    do call_client (S3.put_object bucket key (S3.Serialized pq out_df)) then
    ret (len df).

Definition delete_rows (table_name : string) (where_clause : option string)
  : M State Z :=
  (* naive: load object, filter with pandas.query, rewrite *)
  let* s := get in
  let bucket := cred_get (credentials s) "bucket" in
  let key := py_or (VStr table_name) (cred_get (credentials s) "key") in
  if negb (truthy bucket) || negb (truthy key) then ret 0
  else
    let* df := _read_object_df bucket key in
    if empty df then ret 0
    else
      let before := len df in
      let* df2 :=
        match has_where where_clause with
        | Some w =>
            try_except
              (let* mask := lift_res (pd_query s w df) in
               ret (mkDF (columns df) (dtypes df) (drop_masked mask (rows df))))
              (* if query fails, do not modify *)
              (ret df)
        | None => ret (mkDF (columns df) (const DObject <$> columns df) [])
        end in
      let* pq := lift_res (is_parquet key) in
      do call_client (S3.put_object bucket key (S3.Serialized pq df2)) then
      ret (before - len df2).

Definition delete_table (table_name : string) : M State unit :=
  let* s := get in
  let bucket := cred_get (credentials s) "bucket" in
  let key := py_or (VStr table_name) (cred_get (credentials s) "key") in
  if negb (truthy bucket) || negb (truthy key) then ret tt
  else call_client (S3.delete_object bucket key).

Definition close : M State unit := modify (set_connected false).

Definition provider : DataProvider State :=
  mkProvider connect test_connection has_permissions list_datasets
    list_tables read_table write_table delete_rows delete_table close.
End S3Provider.

(** ** app/main.py: the providers that [make_provider] can build *)

Inductive Backend : Type := SQLite | Redshift | BigQuery | Snowflake | S3.

#[export] Instance Backend_eq_dec : EqDecision Backend.
Proof. solve_decision. Defined.

(** The state a provider of each class owns. *)
Definition State_of (b : Backend) : Type :=
  match b with
  | SQLite => SQLiteProvider.State
  | Redshift => RedshiftProvider.State
  | BigQuery => BigQueryProvider.State
  | Snowflake => SnowflakeProvider.State
  | S3 => S3Provider.State
  end.

(** The methods of each class. *)
Definition provider_of (b : Backend) : DataProvider (State_of b) :=
  match b with
  | SQLite => SQLiteProvider.provider
  | Redshift => RedshiftProvider.provider
  | BigQuery => BigQueryProvider.provider
  | Snowflake => SnowflakeProvider.provider
  | S3 => S3Provider.provider
  end.

(** [self.credentials] *)
Definition credentials_of (b : Backend) : State_of b → Credentials :=
  match b with
  | SQLite => SQLiteProvider.credentials
  | Redshift => RedshiftProvider.credentials
  | BigQuery => BigQueryProvider.credentials
  | Snowflake => SnowflakeProvider.credentials
  | S3 => S3Provider.credentials
  end.

(** A method leaves a component of the state as it found it, whether it
    returns or raises. *)
Definition keeps {S A C} (proj : S → C) (m : M S A) : Prop :=
  ∀ s, proj (m s).2 = proj s.

(** The backend of a provider cannot evaluate a predicate text, whatever
    the table: the SQL engines reject it as a WHERE clause, pandas rejects
    it as a query expression. *)
Definition predicate_rejected (b : Backend) : State_of b → string → Prop :=
  match b with
  | SQLite => λ s w, ∀ cols, Sql.where_sem (SQLiteProvider.db s) w cols = None
  | Redshift => λ s w, ∀ cols, Sql.where_sem (RedshiftProvider.db s) w cols = None
  | Snowflake => λ s w, ∀ cols, Sql.where_sem (SnowflakeProvider.db s) w cols = None
  | BigQuery => λ s w,
      ∀ cols, BigQuery.where_sem (BigQueryProvider.cloud s) w cols = None
  | S3 => λ s w, ∀ df, ∃ e, S3Provider.pd_query s w df = Raise e
  end.

(** ** Concrete backends for the scenarios *)
Module Scenario.
(** A predicate language with one sentence, [TRUE]. *)
Definition where_true (w : string) (cols : list string)
  : option (list Cell → bool) :=
  if decide (w = "TRUE") then Some (λ _, true) else None.

Definition query_true (w : string) (df : DataFrame) : Res (list bool) :=
  if decide (w = "TRUE") then Ok (const true <$> rows df) else Raise ParserError.

(** An engine that is up, holds the given tables, accepts every load
    that has at least one column, answers the probe and reports its row
    counts, behind a client that parses every URL. *)
Definition database (t : gmap (string * string) DataFrame) : Sql.Database :=
  Sql.mkDatabase true t where_true (λ _ df, negb (bool_decide (columns df = [])))
    true true (λ _, true).

Definition cloud (t : gmap string DataFrame) : BigQuery.Cloud :=
  BigQuery.mkCloud true (Some "acme") (Some "acme") ["sales"] t where_true
    (λ _ df, negb (bool_decide (columns df = []))) true true.

Definition plain_reader (parquet : bool) (body : S3.Body) : Res DataFrame :=
  match body with
  | S3.Serialized _ df => Ok df
  | S3.Raw _ => Raise ParserError
  end.

Definition object_store (o : gmap (string * string) S3.Body) : S3.Store :=
  S3.mkStore None ["lake"] o plain_reader (λ _, true).

(** Providers on these backends, after a successful [connect]. *)
Definition sqlite (t : gmap (string * string) DataFrame) : SQLiteProvider.State :=
  (SQLiteProvider.connect
     (SQLiteProvider.init {["db_path" := VStr "data/app.db"]} true (database t))).2.

Definition redshift (t : gmap (string * string) DataFrame) : RedshiftProvider.State :=
  (RedshiftProvider.connect
     (RedshiftProvider.init
        {["host" := VStr "rs.example"; "user" := VStr "u"; "password" := VStr "p";
          "database" := VStr "dev"]} (database t))).2.

Definition snowflake (t : gmap (string * string) DataFrame) : SnowflakeProvider.State :=
  (SnowflakeProvider.connect
     (SnowflakeProvider.init
        {["account" := VStr "acme"; "user" := VStr "u"; "password" := VStr "p";
          "schema" := VStr "PUBLIC"]} (database t))).2.

Definition bigquery (t : gmap string DataFrame) : BigQueryProvider.State :=
  (BigQueryProvider.connect
     (BigQueryProvider.init
        {["project_id" := VStr "acme"; "dataset" := VStr "sales"]} (cloud t))).2.

Definition s3 (o : gmap (string * string) S3.Body) : S3Provider.State :=
  (S3Provider.connect
     (S3Provider.init
        {["aws_access_key_id" := VStr "AK"; "aws_secret_access_key" := VStr "SK";
          "bucket" := VStr "lake"]} (object_store o) query_true)).2.

(** A table of [n] rows [0 .. n-1] under the header [id, name]. *)
Definition numbered (n : nat) : DataFrame :=
  mkDF ["id"; "name"] [DInt64; DObject]
       ((λ i : nat, [CInt (Z.of_nat i); CStr "x"]) <$> seq 0 n).
End Scenario.

(** ** An in-memory provider

    The simplest implementation of the contract: a dictionary from table
    names to frames.  It plays the part of the provider in the concrete
    scenarios below. *)
Module MemoryProvider.
Definition State : Type := gmap string DataFrame.

Definition connect : M State unit := ret tt.
Definition test_connection : M State bool := ret true.
Definition list_datasets : M State (list Value) := ret [VStr "main"].
Definition list_tables (dataset : option string) : M State (list string) :=
  gets (λ s : State, (map_to_list s).*1).
Definition read_table (table_name : string) (limit : option Z)
  : M State DataFrame :=
  let* s := get in
  match (s : State) !! table_name with
  | Some df =>
      match has_limit limit with
      | Some n => ret (head n df)
      | None => ret df
      end
  | None => raise DatabaseError
  end.
Definition write_table (table_name : string) (df : DataFrame)
    (if_exists : string) : M State Z :=
  let* s := get in
  do (match (s : State) !! table_name with
      | Some old =>
          if decide (if_exists = "replace")
          then modify (λ s : State, <[table_name := df]> s)
          else modify (λ s : State, <[table_name := pd_concat old df]> s)
      | None => modify (λ s : State, <[table_name := df]> s)
      end) then
  ret (len df).
Definition delete_rows (table_name : string) (where_clause : option string)
  : M State Z :=
  let* s := get in
  match (s : State) !! table_name with
  | Some old =>
      do modify (λ s : State,
           <[table_name := mkDF (columns old) (dtypes old) []]> s) then
      ret (len old)
  | None => raise DatabaseError
  end.
Definition delete_table (table_name : string) : M State unit :=
  modify (λ s : State, delete table_name s).
Definition close : M State unit := ret tt.

Definition provider : DataProvider State :=
  mkProvider connect test_connection base_has_permissions list_datasets
    list_tables read_table write_table delete_rows delete_table close.
End MemoryProvider.

(** ** Vocabulary of the specification *)

(** Two rows are the same row when they compare equal column by column,
    as Python compares values: [True] equals [1], [False] equals [0]. *)
Definition same_row (r r' : list Cell) : Prop := row_key r = row_key r'.

#[export] Instance same_row_dec (r r' : list Cell) : Decision (same_row r r').
Proof. unfold same_row. apply _. Defined.

(** The number of distinct rows of a table. *)
Definition distinct_rows (l : list (list Cell)) : nat :=
  length (remove_dups (row_key <$> l)).

(** The rows that [drop_duplicates(keep="first")] keeps. *)
Definition keep_first (l : list (list Cell)) : list (list Cell) :=
  drop_masked (duplicated_from [] l) l.

(** The first occurrence of each distinct row, in their original relative
    order: the head of the table is kept, and so are the first occurrences
    found in the rest, except those that are the same row as the head. *)
Fixpoint first_occurrences (l : list (list Cell)) : list (list Cell) :=
  match l with
  | [] => []
  | x :: l' => x :: filter (λ y, ¬ same_row y x) (first_occurrences l')
  end.

(** A table in which rows that are the same row are equal cell by cell:
    no column holds both a boolean and the number it equals. *)
Definition plain_rows (l : list (list Cell)) : Prop :=
  ∀ r r', r ∈ l → r' ∈ l → same_row r r' → r = r'.

(** Strings of one code point outside ASCII: the no-break space U+00A0,
    the em space U+2003, the zero width space U+200B and the letter
    U+00E9. *)
Definition nbsp : string :=
  String (Ascii.ascii_of_nat 194) (String (Ascii.ascii_of_nat 160) EmptyString).
Definition em_space : string :=
  String (Ascii.ascii_of_nat 226)
    (String (Ascii.ascii_of_nat 128) (String (Ascii.ascii_of_nat 131) EmptyString)).
Definition zero_width_space : string :=
  String (Ascii.ascii_of_nat 226)
    (String (Ascii.ascii_of_nat 128) (String (Ascii.ascii_of_nat 139) EmptyString)).
Definition e_acute : string :=
  String (Ascii.ascii_of_nat 195) (String (Ascii.ascii_of_nat 169) EmptyString).

(** The rows of the concrete scenario: [A, B, A, C, B]. *)
Definition row_A : list Cell := [CInt 1; CStr "a"].
Definition row_B : list Cell := [CInt 2; CStr "b"].
Definition row_C : list Cell := [CInt 3; CStr "c"].
Definition abacb : DataFrame :=
  mkDF ["id"; "name"] [DInt64; DObject] [row_A; row_B; row_A; row_C; row_B].

(** What a SQLite destination needs in order to take every chunk of a
    table with the header [hdr]: an engine, a reachable database that
    accepts frames with columns, and no table of that name or one with
    this same header. *)
Definition sqlite_takes (table_name : string) (hdr : list string)
    (s : SQLiteProvider.State) : Prop :=
  (∃ url, SQLiteProvider.engine s = Some url)
  ∧ Sql.up (SQLiteProvider.db s) = true
  ∧ (∀ n d, Sql.accepts (SQLiteProvider.db s) n d = negb (bool_decide (columns d = [])))
  ∧ (∀ old, Sql.tables (SQLiteProvider.db s) !! ("main", table_name) = Some old →
            columns old = hdr).

(** The tables of the scenarios: an empty table with a header, and the
    providers that hold them. *)
Definition no_rows : DataFrame := mkDF ["id"; "name"] [DInt64; DObject] [].

Definition memory_and_sqlite (df : DataFrame)
  : MemoryProvider.State * SQLiteProvider.State :=
  ({["t" := df]}, Scenario.sqlite ∅).

(** What [test_connection] runs once [connect] has returned: the round
    trip of the SQLite and BigQuery providers; the other providers return
    [True] at once. *)
Definition probe_of (b : Backend) : M (State_of b) unit :=
  match b with
  | SQLite => SQLiteProvider.probe
  | BigQuery => BigQueryProvider.probe
  | Redshift | Snowflake | S3 => ret tt
  end.

(** The null count that the report gives for a label. *)
Definition null_count (df : DataFrame) (c : string) : Z :=
  match getitem df c with
  | Ok (Series cells) => bool_sum (isna <$> cells)
  | _ => 0
  end.

(** The number of values of a column that end with three dots. *)
Definition truncated_count (df : DataFrame) (c : string) : Z :=
  match getitem df c with
  | Ok (Series cells) => bool_sum ((λ x, endswith (cell_str x) "...") <$> cells)
  | _ => 0
  end.

(** ** Vocabulary of the properties of the providers *)

(** [self._connected] *)
Definition connected_of (b : Backend) : State_of b → bool :=
  match b with
  | SQLite => SQLiteProvider._connected
  | Redshift => RedshiftProvider._connected
  | BigQuery => BigQueryProvider._connected
  | Snowflake => SnowflakeProvider._connected
  | S3 => S3Provider._connected
  end.

(** What the providers with a read probe and a write probe return from
    [has_permissions]: the two answers, reported for the actions asked. *)
Definition two_probes (br bw : bool) (actions : list string) : gmap string bool :=
  report_actions (<["write" := bw]> (<["read" := br]> ∅)) actions.

(** The disposable table that the write probe of the BigQuery provider
    creates and deletes, when the provider has a client and a dataset is
    configured. *)
Definition bigquery_perm_test_table (s : BigQueryProvider.State) : option string :=
  match BigQueryProvider.client s with
  | Some c =>
      let dataset := cred_get (BigQueryProvider.credentials s) "dataset" in
      if truthy dataset
      then Some (BigQueryProvider.project c +:+ "." +:+ py_str dataset
                 +:+ ".__perm_test")
      else None
  | None => None
  end.

(** A function applied to the value of a result that is not an exception. *)
Definition res_map {A B} (f : A → B) (r : Res A) : Res B :=
  match r with
  | Ok a => Ok (f a)
  | Raise e => Raise e
  end.

(** A provider that can reach its backend: it holds the handle that
    [connect] sets, and the backend answers; for S3, the credentials name
    a bucket that exists. *)
Definition ready (b : Backend) : State_of b → Prop :=
  match b with
  | SQLite => λ s,
      is_Some (SQLiteProvider.engine s) ∧ SQLiteProvider.conn s = Some true
      ∧ Sql.up (SQLiteProvider.db s) = true
  | Redshift => λ s,
      is_Some (RedshiftProvider.engine s) ∧ Sql.up (RedshiftProvider.db s) = true
  | Snowflake => λ s,
      SnowflakeProvider.conn s = Some true ∧ Sql.up (SnowflakeProvider.db s) = true
  | BigQuery => λ s,
      is_Some (BigQueryProvider.client s)
      ∧ BigQuery.up (BigQueryProvider.cloud s) = true
  | S3 => λ s,
      S3Provider.client s = Some tt
      ∧ S3.fault (S3Provider.store s) = None
      ∧ ∃ bucket, cred_get (S3Provider.credentials s) "bucket" = VStr bucket
                  ∧ bucket ≠ "" ∧ bucket ∈ S3.buckets (S3Provider.store s)
  end.

(** A frame whose column labels are distinct and whose rows have one cell
    per column. *)
Definition well_formed (df : DataFrame) : Prop :=
  NoDup (columns df) ∧ Forall (λ r, length r = length (columns df)) (rows df).


(** What a table holds once the rows of [df] have been appended to it:
    the table as it was, followed by those rows; [df] itself when there
    was no table. *)
Definition appended (old : option DataFrame) (df : DataFrame) : DataFrame :=
  match old with
  | Some o => mkDF (columns o) (dtypes o) (rows o ++ rows df)
  | None => df
  end.

(** The data that a backend holds for a provider: the tables of the
    database or of the project, the objects of the store. *)
Definition Data_of (b : Backend) : Type :=
  match b with
  | SQLite | Redshift | Snowflake => gmap (string * string) DataFrame
  | BigQuery => gmap string DataFrame
  | S3 => gmap (string * string) S3.Body
  end.

Definition data_of (b : Backend) : State_of b → Data_of b :=
  match b with
  | SQLite => λ s, Sql.tables (SQLiteProvider.db s)
  | Redshift => λ s, Sql.tables (RedshiftProvider.db s)
  | Snowflake => λ s, Sql.tables (SnowflakeProvider.db s)
  | BigQuery => λ s, BigQuery.tables (BigQueryProvider.cloud s)
  | S3 => λ s, S3.objects (S3Provider.store s)
  end.

(** Whether the result of a DELETE statement tells the provider how many
    rows it removed: a driver may leave [rowcount] at [None], and the
    BigQuery library may not give [num_dml_affected_rows]. *)
Definition reports_row_count (b : Backend) : State_of b → bool :=
  match b with
  | SQLite => λ s, Sql.reports_rowcount (SQLiteProvider.db s)
  | Redshift => λ s, Sql.reports_rowcount (RedshiftProvider.db s)
  | Snowflake => λ s, Sql.reports_rowcount (SnowflakeProvider.db s)
  | BigQuery => λ s, BigQuery.reports_dml_rows (BigQueryProvider.cloud s)
  | S3 => λ _, true
  end.

(** The provider names one schema wherever it names one: the Redshift
    provider splices the configured schema into its statements as text
    and hands it to pandas and to the inspector as a value, which differ
    when the credentials hold [None] under ["schema"]. *)
Definition one_schema (b : Backend) : State_of b → Prop :=
  match b with
  | Redshift => λ s, RedshiftProvider.schema_text s = RedshiftProvider.schema_arg s
  | _ => λ _, True
  end.

(** * Properties *)

(** ** The model on small inputs *)

Example py_range_chunks : py_range 0 12 5 = Ok [0; 5; 10].
Proof. reflexivity. Qed.

Example py_range_zero_step : py_range 0 12 0 = Raise ValueError.
Proof. reflexivity. Qed.

Example py_range_negative_step : py_range 0 12 (-5) = Ok [].
Proof. reflexivity. Qed.

Example py_slice_past_the_end : py_slice 10 15 (seq 0 12) = [10; 11]%nat.
Proof. reflexivity. Qed.

Example py_slice_negative : py_slice (-2) 15 (seq 0 12) = [10; 11]%nat.
Proof. reflexivity. Qed.

Example endswith_ellipsis :
  endswith "truncated..." "..." = true ∧ endswith ".." "..." = false.
Proof. split; reflexivity. Qed.

Example duplicated_abacb : duplicated abacb = [false; false; true; false; true].
Proof. reflexivity. Qed.

Example empty_frames :
  empty empty_frame = true ∧ empty no_rows = true
  ∧ empty (mkDF [] [] [[]; []]) = true ∧ empty abacb = false.
Proof. repeat split. Qed.

Example has_where_cases :
  has_where None = None ∧ has_where (Some "  ") = None
  ∧ has_where (Some "id > 1") = Some "id > 1".
Proof. repeat split. Qed.

(** [strip] removes the white space of Unicode, not only that of ASCII. *)
Example is_blank_cases :
  is_blank "" = true ∧ is_blank nbsp = true ∧ is_blank em_space = true
  ∧ is_blank (" " +:+ nbsp +:+ em_space) = true
  ∧ is_blank zero_width_space = false ∧ is_blank e_acute = false
  ∧ is_blank (nbsp +:+ "x") = false ∧ has_where (Some nbsp) = None.
Proof. repeat split. Qed.

(** [True] is a duplicate of [1], the string ["1"] is not. *)
Example duplicated_true_is_one :
  duplicated (mkDF ["v"] [DObject] [[CInt 1]; [CBool true]; [CStr "1"]])
  = [false; true; false].
Proof. reflexivity. Qed.

(** A repeated label selects a frame, not a column. *)
Example getitem_cases :
  let df := mkDF ["a"; "b"; "a"] [DInt64; DObject; DInt64]
                 [[CInt 1; CStr "x"; CNull]] in
  getitem df "b" = Ok (Series [CStr "x"])
  ∧ getitem df "a" = Ok (Frame [[CInt 1]; [CNull]])
  ∧ getitem df "c" = Raise KeyError.
Proof. repeat split. Qed.

(** The whole report on [A, B, A, C, B]. *)
Example check_table_quality_abacb :
  (check_table_quality MemoryProvider.provider "t" ({["t" := abacb]}, [])).1
  = Ok (mkReport 5 ["id"; "name"] 2 {["id" := 0; "name" := 0]} 0).
Proof. vm_compute. reflexivity. Qed.

(** A chunk size that is not positive is outside what the specification
    describes: 0 makes [range] raise, a negative one makes the loop empty. *)
Example migrate_table_chunk_size_not_positive :
  let source := left_provider (S2 := SQLiteProvider.State) MemoryProvider.provider in
  let dest := right_provider (S1 := MemoryProvider.State) SQLiteProvider.provider in
  (migrate_table source dest "t" 0 (memory_and_sqlite abacb, [])).1 = Raise ValueError
  ∧ (migrate_table source dest "t" (-1) (memory_and_sqlite abacb, [])).1 = Ok 0.
Proof. split; reflexivity. Qed.


(** ** Slicing and chunking *)

Lemma py_slice_nat {A} (l : list A) (a k : nat) :
  py_slice (Z.of_nat a) (Z.of_nat a + Z.of_nat k) l = take k (drop a l).
Proof.
  unfold py_slice, slice_bound.
  repeat destruct (decide _); try lia.
  replace (Z.to_nat (Z.min (Z.of_nat a) (Z.of_nat (length l))))
    with (a `min` length l)%nat by lia.
  replace (Z.to_nat (Z.min (Z.of_nat a + Z.of_nat k) (Z.of_nat (length l))))
    with ((a + k) `min` length l)%nat by lia.
  destruct (decide (a ≤ length l)%nat) as [Ha|Ha].
  - rewrite (Nat.min_l a) by lia.
    destruct (decide (a + k ≤ length l)%nat).
    + rewrite Nat.min_l by lia. f_equal. lia.
    + rewrite Nat.min_r by lia.
      rewrite !take_ge; [done | rewrite length_drop; lia | rewrite length_drop; lia].
  - rewrite !drop_ge; [by rewrite !take_nil | lia | lia].
Qed.

Lemma concat_chunks {A} (l : list A) (k j0 m : nat) :
  concat ((λ j, take k (drop (j * k) l)) <$> seq j0 m)
  = take (m * k) (drop (j0 * k) l).
Proof.
  revert j0. induction m as [|m IH]; intros j0; simpl.
  - done.
  - rewrite IH. rewrite <- (take_take_drop (drop (j0 * k) l) k (m * k)).
    rewrite drop_drop. do 3 f_equal. lia.
Qed.

(** The frames that a chunked migration hands to the destination. *)
Definition chunk_at (k : Z) (df : DataFrame) (j : nat) : DataFrame :=
  iloc (0 + Z.of_nat j * k) (0 + Z.of_nat j * k + k) df.

Lemma rows_chunk_at (k : Z) (df : DataFrame) (j : nat) :
  0 < k →
  rows (chunk_at k df j) = take (Z.to_nat k) (drop (j * Z.to_nat k) (rows df)).
Proof.
  intros Hk. unfold chunk_at, iloc. simpl.
  rewrite <- (py_slice_nat (rows df) (j * Z.to_nat k) (Z.to_nat k)).
  f_equal; lia.
Qed.

Lemma ceil_div_bounds (n k : Z) :
  0 < k → 0 < n →
  let c := (n + k - 1) `div` k in
  (c - 1) * k < n ≤ c * k ∧ 0 < c.
Proof.
  intros Hk Hn c.
  pose proof (Z.div_mod (n + k - 1) k ltac:(lia)) as Hdm.
  pose proof (Z.mod_pos_bound (n + k - 1) k Hk) as Hm.
  fold c in Hdm. nia.
Qed.

(** ** Running computations *)

Lemma bind_ok {S A B} (m : M S A) (k : A → M S B) s a s' :
  m s = (Ok a, s') → bind m k s = k a s'.
Proof. intros H. unfold bind. by rewrite H. Qed.

Lemma bind_raise {S A B} (m : M S A) (k : A → M S B) s e s' :
  m s = (Raise e, s') → bind m k s = (Raise e, s').
Proof. intros H. unfold bind. by rewrite H. Qed.

(** ** The call log *)

Lemma invoke_eq {W A} (who : Role) (c : Call) (m : M W A) w log r w' :
  m w = (r, w') →
  invoke who c m (w, log) = (r, (w', log ++ [(who, c)])).
Proof. intros H. unfold invoke. simpl. by rewrite H. Qed.

Lemma writes_of_app who l1 l2 :
  writes_of who (l1 ++ l2) = writes_of who l1 ++ writes_of who l2.
Proof. apply omap_app. Qed.

Lemma writes_of_dest_writes (name mode : string) (ws : list DataFrame) :
  writes_of Dest ((λ d, (Dest, CallWrite name d mode)) <$> ws) = ws.
Proof.
  induction ws as [|d ws IH]; [done|].
  unfold writes_of in *. rewrite fmap_cons. simpl. f_equal. exact IH.
Qed.

(** ** migrate_table *)

Section MigrateLoop.
Context {W : Type} (dest : DataProvider W) (table_name : string).
Context (Inv : W → Prop).
Context (hdr : list string).
Hypothesis write_ok : ∀ d s, Inv s → columns d = hdr →
  ∃ s', write_table dest table_name d "append" s = (Ok (len d), s') ∧ Inv s'.

Lemma migrate_loop (k : Z) (df : DataFrame) (m j0 : nat) total s log :
  columns df = hdr →
  Inv s →
  ∃ s',
    for_each ((λ j : nat, 0 + Z.of_nat j * k) <$> seq j0 m) total
      (λ total i,
         let chunk := iloc i (i + k) df in
         let* n := invoke Dest (CallWrite table_name chunk "append")
                     (write_table dest table_name chunk "append") in
         ret (total + n)) (s, log)
    = (Ok (total + Z.of_nat (length (concat (rows <$> (chunk_at k df <$> seq j0 m))))),
       (s', log ++ ((λ d, (Dest, CallWrite table_name d "append"))
                      <$> (chunk_at k df <$> seq j0 m))))
    ∧ Inv s'.
Proof.
  intros Hhdr.
  revert j0 total s log. induction m as [|m IH]; intros j0 total s log HI.
  - exists s. simpl. rewrite app_nil_r, Z.add_0_r. done.
  - destruct (write_ok (chunk_at k df j0) s HI Hhdr) as (s1 & Hw & HI1).
    rewrite <- cons_seq, !fmap_cons.
    destruct (IH (S j0) (total + len (chunk_at k df j0)) s1
                (log ++ [(Dest, CallWrite table_name (chunk_at k df j0) "append")]) HI1)
      as (s' & Hrun & HI').
    exists s'. split; [|done].
    cbn [for_each].
    erewrite bind_ok; last first.
    { erewrite bind_ok; [reflexivity|]. apply invoke_eq. exact Hw. }
    etrans; [exact Hrun|]. f_equal.
    + f_equal. cbn [concat]. rewrite length_app. unfold len. lia.
    + f_equal. rewrite <- app_assoc. done.
Qed.
End MigrateLoop.

Lemma len_chunk_at (k : Z) (df : DataFrame) (j : nat) :
  0 < k →
  len (chunk_at k df j) = Z.max 0 (Z.min k (len df - Z.of_nat j * k)).
Proof.
  intros Hk. unfold len. rewrite rows_chunk_at by done.
  rewrite length_take, length_drop. nia.
Qed.

Lemma empty_false_len (df : DataFrame) : empty df = false → 0 < len df.
Proof.
  unfold empty, len. intros H. apply orb_false_elim in H as [H _].
  apply bool_decide_eq_false in H. destruct (rows df); [done | simpl; lia].
Qed.

(** C1. For a non-empty source table of N rows and a positive chunk size,
    against a destination whose [write_table] takes frames with the source
    header and returns the number of rows it was handed, [migrate_table]
    returns N; after the one read of the
    source it issues ceil(N / chunk_size) append-mode writes on the
    destination and nothing else; the rows of the written chunks, taken in
    call order, concatenate to the source rows; every chunk carries the
    source header, has between 1 and chunk_size rows, and every chunk but
    the last has exactly chunk_size rows.  With N = 12000 and
    chunk_size = 5000 the writes carry 5000, 5000 and 2000 rows. *)
Theorem migrate_table_chunks {W} (source dest : DataProvider W)
    (Inv : W → Prop) (table_name : string) (chunk_size : Z)
    (df : DataFrame) (w w1 : W) (log : list Event) :
  0 < chunk_size →
  read_table source table_name None w = (Ok df, w1) →
  empty df = false →
  Inv w1 →
  (∀ d s, Inv s → columns d = columns df →
     ∃ s', write_table dest table_name d "append" s = (Ok (len d), s') ∧ Inv s') →
  ∃ (ws : list DataFrame) (w2 : W),
    migrate_table source dest table_name chunk_size (w, log)
    = (Ok (len df),
       (w2, log ++ (Source, CallRead table_name None)
                   :: ((λ d, (Dest, CallWrite table_name d "append")) <$> ws)))
    ∧ Z.of_nat (length ws) = (len df + chunk_size - 1) `div` chunk_size
    ∧ concat (rows <$> ws) = rows df
    ∧ Forall (λ d, columns d = columns df ∧ dtypes d = dtypes df) ws
    ∧ (∀ (i : nat) d, ws !! i = Some d →
         0 < len d ≤ chunk_size ∧ ((S i < length ws)%nat → len d = chunk_size))
    ∧ (len df = 12000 → chunk_size = 5000 → len <$> ws = [5000; 5000; 2000]).
Proof.
  intros Hk Hread Hne HI Hwrite.
  pose proof (empty_false_len df Hne) as HN.
  pose proof (ceil_div_bounds (len df) chunk_size Hk HN) as [Hc Hc0]. simpl in Hc, Hc0.
  unfold migrate_table.
  erewrite bind_ok; [|apply invoke_eq; exact Hread].
  rewrite Hne. destruct (decide (len df ≤ chunk_size)) as [Hle|Hgt].
  - destruct (Hwrite df w1 HI eq_refl) as (w2 & Hw & _).
    exists [df], w2. split_and!.
    + erewrite bind_ok; [|apply invoke_eq; exact Hw].
      unfold ret. rewrite <- app_assoc. done.
    + simpl. nia.
    + simpl. by rewrite app_nil_r.
    + by repeat constructor.
    + intros [|i] d Hi; [|done]. simplify_eq/=. split; [lia|]. lia.
    + lia.
  - set (c := (len df + chunk_size - 1) `div` chunk_size) in *.
    assert (py_range 0 (len df) chunk_size
            = Ok ((λ j : nat, 0 + Z.of_nat j * chunk_size) <$> seq 0 (Z.to_nat c)))
      as Hrange.
    { unfold py_range. repeat destruct (decide _); try lia.
      subst c. replace (len df - 0 + chunk_size - 1) with (len df + chunk_size - 1) by lia.
      done. }
    destruct (migrate_loop dest table_name Inv (columns df) Hwrite chunk_size df
                (Z.to_nat c) 0 0 w1 (log ++ [(Source, CallRead table_name None)])
                eq_refl HI)
      as (w2 & Hrun & _).
    assert (concat (rows <$> (chunk_at chunk_size df <$> seq 0 (Z.to_nat c))) = rows df)
      as Hcat.
    { rewrite <- list_fmap_compose.
      rewrite (list_fmap_ext (rows ∘ chunk_at chunk_size df)
                 (λ j, take (Z.to_nat chunk_size)
                         (drop (j * Z.to_nat chunk_size) (rows df))));
        [|intros; simpl; by apply rows_chunk_at].
      rewrite concat_chunks. rewrite drop_0. apply take_ge. unfold len in *. nia. }
    exists (chunk_at chunk_size df <$> seq 0 (Z.to_nat c)), w2. split_and!.
    + erewrite bind_ok; [|unfold lift_res; rewrite Hrange; reflexivity].
      etrans; [exact Hrun|]. rewrite Hcat. rewrite <- app_assoc. done.
    + rewrite length_fmap, length_seq. lia.
    + exact Hcat.
    + apply Forall_fmap, Forall_forall. intros j _. done.
    + intros i d Hi. rewrite list_lookup_fmap in Hi.
      destruct (seq 0 (Z.to_nat c) !! i) as [j|] eqn:Hj; [|done].
      apply lookup_seq in Hj as [-> Hj]. simplify_eq/=.
      rewrite length_fmap, length_seq. rewrite len_chunk_at by done.
      split; [nia|]. intros Hlt. nia.
    + intros HN12 Hk5. rewrite <- list_fmap_compose.
      assert (c = 3) as -> by (subst c; rewrite HN12, Hk5; reflexivity).
      change (Z.to_nat 3) with 3%nat. cbn [seq fmap list_fmap compose].
      rewrite !len_chunk_at by done. rewrite HN12, Hk5. reflexivity.
Qed.

(** C2. On an empty source table [migrate_table] makes exactly one call on
    the destination: a [write_table] in append mode carrying the (empty)
    frame that was read.  When that call returns, [migrate_table] returns
    0, whatever the call returned; when it raises, the exception goes
    through. *)
Theorem migrate_table_empty_source {W} (source dest : DataProvider W)
    (table_name : string) (chunk_size : Z) (df : DataFrame)
    (w w1 w2 : W) (r : Res Z) (log : list Event) :
  read_table source table_name None w = (Ok df, w1) →
  empty df = true →
  write_table dest table_name df "append" w1 = (r, w2) →
  migrate_table source dest table_name chunk_size (w, log)
  = (match r with Ok _ => Ok 0 | Raise e => Raise e end,
     (w2, log ++ [(Source, CallRead table_name None);
                  (Dest, CallWrite table_name df "append")]))
  ∧ writes_of Dest (log ++ [(Source, CallRead table_name None);
                            (Dest, CallWrite table_name df "append")])
    = writes_of Dest log ++ [df].
Proof.
  intros Hread He Hw. split; [|by rewrite writes_of_app].
  unfold migrate_table.
  erewrite bind_ok; [|apply invoke_eq; exact Hread].
  rewrite He.
  destruct r as [n|e].
  - erewrite bind_ok; [|apply invoke_eq; exact Hw].
    unfold ret. by rewrite <- app_assoc.
  - erewrite bind_raise; [|apply invoke_eq; exact Hw].
    by rewrite <- app_assoc.
Qed.

(** ** apply_corrections on an empty table *)

(** C10. When the table read back is empty, [apply_corrections] returns 0
    having made no call but the read: neither [delete_table] nor
    [write_table] is invoked, and the state is the one the read left. *)
Theorem apply_corrections_empty_untouched {W} (provider : DataProvider W)
    (table_name : string) (df : DataFrame) (w w1 : W) (log : list Event) :
  read_table provider table_name None w = (Ok df, w1) →
  empty df = true →
  apply_corrections provider table_name (w, log)
  = (Ok 0, (w1, log ++ [(Subject, CallRead table_name None)])).
Proof.
  intros Hread He. unfold apply_corrections.
  erewrite bind_ok; [|apply invoke_eq; exact Hread].
  by rewrite He.
Qed.

(** ** Duplicates *)

Section Duplicates.
Implicit Types (l seen : list (list Cell)) (x : list Cell).

Lemma drop_masked_cons seen x l :
  drop_masked (duplicated_from seen (x :: l)) (x :: l)
  = if decide (row_key x ∈ seen)
    then drop_masked (duplicated_from (row_key x :: seen) l) l
    else x :: drop_masked (duplicated_from (row_key x :: seen) l) l.
Proof. simpl. unfold bool_decide. by destruct (decide_rel _ _ _). Qed.

Lemma bool_sum_cons (b : bool) (m : list bool) :
  bool_sum (b :: m) = (if b then 1 else 0) + bool_sum m.
Proof.
  unfold bool_sum. rewrite filter_cons.
  destruct b; destruct (decide _); try done; simpl; lia.
Qed.

Lemma duplicated_count seen l :
  bool_sum (duplicated_from seen l)
  + Z.of_nat (length (drop_masked (duplicated_from seen l) l))
  = Z.of_nat (length l).
Proof.
  revert seen. induction l as [|x l IH]; intros seen; [done|].
  rewrite drop_masked_cons. cbn [duplicated_from]. rewrite bool_sum_cons.
  specialize (IH (row_key x :: seen)).
  unfold bool_decide. destruct (decide_rel _ _ _), (decide _);
    try done; simpl length; lia.
Qed.

(** The keys of the rows kept are the keys of the table that were not
    seen before. *)
Lemma elem_of_kept seen l k :
  k ∈ row_key <$> drop_masked (duplicated_from seen l) l
  ↔ k ∈ row_key <$> l ∧ k ∉ seen.
Proof.
  revert seen. induction l as [|x l IH]; intros seen.
  - simpl. set_solver.
  - rewrite drop_masked_cons. destruct (decide (row_key x ∈ seen)).
    + rewrite IH, fmap_cons. set_solver.
    + rewrite !fmap_cons, elem_of_cons, IH.
      destruct (decide (k = row_key x)); set_solver.
Qed.

Lemma NoDup_kept seen l :
  NoDup (row_key <$> drop_masked (duplicated_from seen l) l).
Proof.
  revert seen. induction l as [|x l IH]; intros seen.
  - constructor.
  - rewrite drop_masked_cons. destruct (decide (row_key x ∈ seen)); [apply IH|].
    rewrite fmap_cons. constructor; [|apply IH]. rewrite elem_of_kept. set_solver.
Qed.

Lemma sublist_kept seen l : drop_masked (duplicated_from seen l) l `sublist_of` l.
Proof.
  revert seen. induction l as [|x l IH]; intros seen.
  - constructor.
  - rewrite drop_masked_cons. destruct (decide (row_key x ∈ seen)).
    + by apply sublist_cons.
    + by apply sublist_skip.
Qed.

Lemma kept_no_duplicates seen l :
  (∀ k, k ∈ row_key <$> l → k ∉ seen) → NoDup (row_key <$> l) →
  bool_sum (duplicated_from seen l) = 0.
Proof.
  revert seen. induction l as [|x l IH]; intros seen Hs Hnd; [done|].
  rewrite fmap_cons in Hs, Hnd. apply NoDup_cons in Hnd as [Hx Hnd].
  cbn [duplicated_from]. rewrite bool_sum_cons.
  rewrite bool_decide_eq_false_2 by (apply Hs; left).
  rewrite IH; [done| |done].
  intros k Hk. rewrite not_elem_of_cons. split; [set_solver|].
  apply Hs. by right.
Qed.

(** The rows kept are one representative of each distinct row. *)
Lemma keep_first_length l : length (keep_first l) = distinct_rows l.
Proof.
  unfold keep_first, distinct_rows.
  rewrite <- (length_fmap row_key). apply Permutation_length.
  apply NoDup_Permutation.
  - apply NoDup_kept.
  - apply NoDup_remove_dups.
  - intros k. rewrite elem_of_kept, elem_of_remove_dups. set_solver.
Qed.

Lemma distinct_rows_perm l l' : l ≡ₚ l' → distinct_rows l = distinct_rows l'.
Proof.
  intros Hp. unfold distinct_rows. apply Permutation_length.
  apply NoDup_Permutation; [apply NoDup_remove_dups..|].
  intros k. rewrite !elem_of_remove_dups. by rewrite Hp.
Qed.

Lemma duplicated_sum l :
  bool_sum (duplicated_from [] l)
  = Z.of_nat (length l) - Z.of_nat (distinct_rows l).
Proof.
  rewrite <- keep_first_length. unfold keep_first.
  pose proof (duplicated_count [] l). lia.
Qed.

(** On a table in which the same rows are equal rows, the distinct rows
    are counted as equality counts them. *)
Lemma distinct_rows_plain l :
  plain_rows l → distinct_rows l = length (remove_dups l).
Proof.
  intros Hp. unfold distinct_rows.
  rewrite <- (length_fmap row_key (remove_dups l)).
  apply Permutation_length, NoDup_Permutation.
  - apply NoDup_remove_dups.
  - apply NoDup_fmap_2_strong; [|apply NoDup_remove_dups].
    intros r r' Hr Hr' Hk. rewrite elem_of_remove_dups in Hr, Hr'.
    exact (Hp r r' Hr Hr' Hk).
  - intros k. rewrite elem_of_remove_dups, !list_elem_of_fmap.
    by setoid_rewrite elem_of_remove_dups.
Qed.
End Duplicates.
Lemma kept_first_occurrences (seen l : list (list Cell)) :
  drop_masked (duplicated_from seen l) l
  = filter (λ y, row_key y ∉ seen) (first_occurrences l).
Proof.
  revert seen. induction l as [|x l IH]; intros seen; [done|].
  rewrite drop_masked_cons, IH. cbn [first_occurrences].
  rewrite filter_cons, list_filter_filter.
  assert (filter (λ y, row_key y ∉ (row_key x :: seen)) (first_occurrences l)
          = filter (λ y, (row_key y ∉ seen) ∧ ¬ same_row y x) (first_occurrences l))
    as ->.
  { apply list_filter_iff. intros y. unfold same_row. set_solver. }
  destruct (decide (row_key x ∈ seen)), (decide (row_key x ∉ seen)); done.
Qed.

Lemma keep_first_spec (l : list (list Cell)) : keep_first l = first_occurrences l.
Proof.
  unfold keep_first. rewrite kept_first_occurrences.
  induction (first_occurrences l) as [|y k IH]; [done|].
  rewrite filter_cons_True by set_solver. by rewrite IH.
Qed.

Lemma rows_drop_duplicates (df : DataFrame) :
  empty df = false → rows (drop_duplicates df) = keep_first (rows df).
Proof. intros He. unfold drop_duplicates, duplicated. by rewrite He. Qed.

Lemma empty_drop_duplicates (df : DataFrame) :
  empty df = false → empty (drop_duplicates df) = false.
Proof.
  intros He. unfold empty. rewrite rows_drop_duplicates by done.
  unfold drop_duplicates. rewrite He. simpl.
  unfold empty in He. apply orb_false_elim in He as [Hr Hc]. rewrite Hc.
  apply bool_decide_eq_false in Hr.
  destruct (rows df) as [|x l]; [done|].
  unfold keep_first. rewrite drop_masked_cons.
  destruct (decide (row_key x ∈ [])); [set_solver|]. done.
Qed.

(** ** Selecting a column *)

Lemma positions_from_absent (i : nat) (c : string) (cs : list string) :
  c ∉ cs → positions_from i c cs = [].
Proof.
  revert i. induction cs as [|c' cs IH]; intros i Hc; [done|].
  apply not_elem_of_cons in Hc as [Hne Hc]. simpl.
  rewrite decide_False by done. by apply IH.
Qed.

Lemma positions_from_present (i : nat) (c : string) (cs : list string) :
  c ∈ cs → ∃ j js, positions_from i c cs = j :: js.
Proof.
  revert i. induction cs as [|c' cs IH]; intros i Hc; [by apply elem_of_nil in Hc|].
  simpl. destruct (decide (c' = c)) as [->|Hne]; [by eexists _, _|].
  apply IH. set_solver.
Qed.

Lemma positions_from_NoDup (i : nat) (c : string) (cs : list string) :
  NoDup cs → c ∈ cs → ∃ j, positions_from i c cs = [j].
Proof.
  revert i. induction cs as [|c' cs IH]; intros i Hnd Hc; [by apply elem_of_nil in Hc|].
  apply NoDup_cons in Hnd as [Hc' Hnd]. simpl.
  destruct (decide (c' = c)) as [->|Hne].
  - exists i. by rewrite positions_from_absent.
  - apply IH; [done|set_solver].
Qed.

Lemma positions_from_repeated (i : nat) (cs : list string) :
  ¬ NoDup cs → ∃ c j j' js, c ∈ cs ∧ positions_from i c cs = j :: j' :: js.
Proof.
  revert i. induction cs as [|c' cs IH]; intros i Hnd; [destruct Hnd; constructor|].
  destruct (decide (c' ∈ cs)) as [Hin|Hout].
  - destruct (positions_from_present (S i) c' cs Hin) as (j & js & Hp).
    exists c', i, j, js. split; [left|]. simpl. by rewrite decide_True, Hp.
  - destruct (IH (S i)) as (c & j & j' & js & Hc & Hp).
    { intros H. apply Hnd. by constructor. }
    exists c, j, j', js. split; [by right|]. simpl.
    rewrite decide_False; [done|]. intros ->. done.
Qed.

(** Under distinct labels [df[c]] is a Series for every label of the
    header; under a repeated label it is a DataFrame. *)
Lemma getitem_series (df : DataFrame) (c : string) :
  NoDup (columns df) → c ∈ columns df →
  ∃ cells, getitem df c = Ok (Series cells) ∧ length cells = length (rows df).
Proof.
  intros Hnd Hc. destruct (positions_from_NoDup 0 c _ Hnd Hc) as [j Hj].
  exists (cells_at df j). unfold getitem. rewrite Hj. split; [done|].
  unfold cells_at. by rewrite length_fmap.
Qed.

Lemma getitem_present (df : DataFrame) (c : string) :
  c ∈ columns df → ∃ sel, getitem df c = Ok sel.
Proof.
  intros Hc. destruct (positions_from_present 0 c _ Hc) as (j & js & Hj).
  unfold getitem. rewrite Hj. destruct js; by eexists.
Qed.

Lemma getitem_frame (df : DataFrame) :
  ¬ NoDup (columns df) →
  ∃ c cols, c ∈ columns df ∧ getitem df c = Ok (Frame cols).
Proof.
  intros Hnd. destruct (positions_from_repeated 0 _ Hnd) as (c & j & j' & js & Hc & Hp).
  exists c. eexists. split; [done|]. unfold getitem. by rewrite Hp.
Qed.

(** ** check_table_quality *)

Section Loops.
Context {S : Type} (df : DataFrame).

Lemma nulls_loop (cs : list string) (acc : gmap string Z) (s : S) :
  (∀ c, c ∈ cs → ∃ cells, getitem df c = Ok (Series cells)) →
  for_each cs acc (λ nulls c,
    let* sel := lift_res (getitem df c) in
    let* n := lift_res (isna_sum sel) in
    ret (<[c := n]> nulls)) s
  = (Ok (foldl (λ d c, <[c := null_count df c]> d) acc cs), s).
Proof.
  revert acc. induction cs as [|c cs IH]; intros acc Hs; [done|].
  destruct (Hs c) as [cells Hc]; [left|].
  cbn [for_each foldl]. unfold bind at 1, bind at 1, bind at 1, lift_res, ret.
  unfold null_count at 2. rewrite Hc. simpl.
  apply IH. intros c' Hc'. apply Hs. by right.
Qed.

Lemma truncated_loop (cs : list string) (acc : Z) (s : S) :
  (∀ c, c ∈ cs → ∃ cells, getitem df c = Ok (Series cells)) →
  for_each cs acc (λ truncated_like c,
    let* sel := lift_res (getitem df c) in
    let* n := lift_res (endswith_sum "..." sel) in
    ret (truncated_like + n)) s
  = (Ok (foldl (λ a c, a + truncated_count df c) acc cs), s).
Proof.
  revert acc. induction cs as [|c cs IH]; intros acc Hs; [done|].
  destruct (Hs c) as [cells Hc]; [left|].
  cbn [for_each foldl]. unfold bind at 1, bind at 1, bind at 1, lift_res, ret.
  unfold truncated_count at 2. rewrite Hc. simpl.
  apply IH. intros c' Hc'. apply Hs. by right.
Qed.

Lemma nulls_loop_raises (cs : list string) (acc : gmap string Z) (s : S) :
  (∀ c, c ∈ cs → ∃ sel, getitem df c = Ok sel) →
  (∃ c cols, c ∈ cs ∧ getitem df c = Ok (Frame cols)) →
  for_each cs acc (λ nulls c,
    let* sel := lift_res (getitem df c) in
    let* n := lift_res (isna_sum sel) in
    ret (<[c := n]> nulls)) s
  = (Raise TypeError, s).
Proof.
  revert acc. induction cs as [|c cs IH]; intros acc Hs (c0 & cols & Hc0 & Hf).
  { by apply elem_of_nil in Hc0. }
  destruct (Hs c) as [sel Hc]; [left|].
  cbn [for_each]. unfold bind at 1, bind at 1, bind at 1, lift_res, ret.
  rewrite Hc. destruct sel as [cells|cols']; simpl; [|done].
  apply IH; [intros c' Hc'; apply Hs; by right|].
  exists c0, cols. split; [|done].
  apply elem_of_cons in Hc0 as [->|?]; [|done]. congruence.
Qed.
End Loops.

Lemma elem_of_object_columns (df : DataFrame) (c : string) :
  c ∈ object_columns df → c ∈ columns df.
Proof.
  unfold object_columns. intros H.
  apply list_elem_of_fmap in H as ([c' d] & -> & H).
  apply list_elem_of_filter in H as [_ H]. simpl.
  by apply elem_of_zip_l in H.
Qed.

Lemma check_table_quality_run {W} (provider : DataProvider W)
    (table_name : string) (df : DataFrame) (w w1 : W) (log : list Event) :
  read_table provider table_name None w = (Ok df, w1) →
  NoDup (columns df) ∨ empty df = true →
  ∃ rep,
    check_table_quality provider table_name (w, log)
    = (Ok rep, (w1, log ++ [(Subject, CallRead table_name None)]))
    ∧ report_rows rep = len df
    ∧ report_columns rep = columns df
    ∧ duplicates rep
      = (if empty df then 0 else bool_sum (duplicated_from [] (rows df)))
    ∧ nulls_by_column rep
      = (if empty df then ∅
         else foldl (λ d c, <[c := null_count df c]> d) ∅ (columns df))
    ∧ truncated_like rep
      = (if empty df then 0
         else foldl (λ a c, a + truncated_count df c) 0 (object_columns df)).
Proof.
  intros Hread Hok. unfold check_table_quality.
  erewrite bind_ok; [|apply invoke_eq; exact Hread].
  unfold duplicated. destruct (empty df) eqn:He.
  { eexists. split; [reflexivity|done]. }
  destruct Hok as [Hnd|]; [|done].
  erewrite bind_ok; last first.
  { apply nulls_loop. intros c Hc.
    destruct (getitem_series df c Hnd Hc) as (cells & ? & _). by exists cells. }
  erewrite bind_ok; last first.
  { apply truncated_loop. intros c Hc. apply elem_of_object_columns in Hc.
    destruct (getitem_series df c Hnd Hc) as (cells & ? & _). by exists cells. }
  eexists. split; [reflexivity|done].
Qed.

Lemma check_table_quality_repeated_label {W} (provider : DataProvider W)
    (table_name : string) (df : DataFrame) (w w1 : W) (log : list Event) :
  read_table provider table_name None w = (Ok df, w1) →
  ¬ NoDup (columns df) → empty df = false →
  check_table_quality provider table_name (w, log)
  = (Raise TypeError, (w1, log ++ [(Subject, CallRead table_name None)])).
Proof.
  intros Hread Hnd He. unfold check_table_quality.
  erewrite bind_ok; [|apply invoke_eq; exact Hread].
  rewrite He. erewrite bind_raise; [reflexivity|].
  apply nulls_loop_raises; [intros c Hc; by apply getitem_present|].
  destruct (getitem_frame df Hnd) as (c & cols & Hc & Hf). by exists c, cols.
Qed.

Lemma empty_perm (df df' : DataFrame) :
  columns df' = columns df → rows df' ≡ₚ rows df → empty df' = empty df.
Proof.
  intros Hc Hp. unfold empty. rewrite Hc. f_equal.
  apply bool_decide_ext. split; intros E; rewrite E in Hp.
  - by apply Permutation_nil_l in Hp.
  - by apply Permutation_nil_r in Hp.
Qed.

(** C3 (amended). For a table of N rows under distinct column labels, at
    least one, the [duplicates] field of the report equals N minus the
    number of distinct rows, rows being compared column by column as
    pandas compares them, with Python's equality ([True] equals [1]); on
    a table in which rows that compare equal are equal cell by cell, it
    is N minus the number of different rows.  A table with the same
    header and a permutation of the same rows gets the same [duplicates]
    count.  Under a repeated column label a table with rows makes
    [check_table_quality] raise [TypeError] once it has been read. *)
Theorem check_table_quality_duplicates {W} (provider : DataProvider W)
    (table_name : string) (df : DataFrame) (w w1 : W) (log : list Event) :
  read_table provider table_name None w = (Ok df, w1) →
  (NoDup (columns df) ∨ empty df = true →
   ∃ rep,
     check_table_quality provider table_name (w, log)
     = (Ok rep, (w1, log ++ [(Subject, CallRead table_name None)]))
     ∧ report_rows rep = len df
     ∧ (columns df ≠ [] →
        duplicates rep = len df - Z.of_nat (distinct_rows (rows df)))
     ∧ (columns df ≠ [] → plain_rows (rows df) →
        duplicates rep = len df - Z.of_nat (length (remove_dups (rows df))))
     ∧ (∀ (provider' : DataProvider W) (table_name' : string) (df' : DataFrame)
          (w' w1' : W) (log' : list Event),
          read_table provider' table_name' None w' = (Ok df', w1') →
          columns df' = columns df →
          rows df' ≡ₚ rows df →
          ∃ rep',
            check_table_quality provider' table_name' (w', log')
            = (Ok rep', (w1', log' ++ [(Subject, CallRead table_name' None)]))
            ∧ duplicates rep' = duplicates rep))
  ∧ (¬ NoDup (columns df) → empty df = false →
     check_table_quality provider table_name (w, log)
     = (Raise TypeError, (w1, log ++ [(Subject, CallRead table_name None)]))).
Proof.
  intros Hread.
  split; [|by apply (check_table_quality_repeated_label provider table_name df)].
  intros Hok.
  destruct (check_table_quality_run provider table_name df w w1 log Hread Hok)
    as (rep & Hrun & Hrows & _ & Hdup & _).
  assert (columns df ≠ [] →
          duplicates rep = len df - Z.of_nat (distinct_rows (rows df))) as Hcount.
  { intros Hcols. rewrite Hdup. unfold empty.
    rewrite (bool_decide_eq_false_2 (columns df = [])) by done.
    rewrite orb_false_r. case_bool_decide as Hr.
    + unfold len. rewrite Hr. done.
    + apply duplicated_sum. }
  exists rep. split_and!; [done..| |].
  - intros Hcols Hplain. rewrite <- distinct_rows_plain by done. by apply Hcount.
  - intros provider' table_name' df' w' w1' log' Hread' Hc Hp.
    destruct (check_table_quality_run provider' table_name' df' w' w1' log' Hread')
      as (rep' & Hrun' & _ & _ & Hdup' & _).
    { rewrite Hc, (empty_perm df df') by done. exact Hok. }
    exists rep'. split; [done|].
    rewrite Hdup, Hdup', (empty_perm df df') by done.
    destruct (empty df); [done|].
    rewrite !duplicated_sum, (distinct_rows_perm _ _ Hp).
    by rewrite (Permutation_length Hp).
Qed.

(** C3 as the specification states it, for every table and with rows
    compared by exact equality, fails in three ways.  On a table that has
    rows but no column [df.empty] holds, so the report keeps
    [duplicates = 0] while its 2 rows are equal on all (zero) columns.
    On the column [1, True, "1"] the report has [duplicates = 1]: pandas
    takes [True] for [1], and no two of the three rows are equal.  And
    under a repeated column label there is no report: the call raises
    [TypeError]. *)
Lemma check_table_quality_not_every_table :
  (let df := mkDF [] [] [[]; []] in
   ∃ rep st,
     check_table_quality MemoryProvider.provider "t" ({["t" := df]}, [])
     = (Ok rep, st)
     ∧ report_rows rep = 2
     ∧ distinct_rows (rows df) = 1%nat
     ∧ duplicates rep ≠ len df - Z.of_nat (distinct_rows (rows df)))
  ∧ (let df := mkDF ["v"] [DObject] [[CInt 1]; [CBool true]; [CStr "1"]] in
     ∃ rep st,
       check_table_quality MemoryProvider.provider "t" ({["t" := df]}, [])
       = (Ok rep, st)
       ∧ duplicates rep = 1
       ∧ NoDup (rows df)
       ∧ duplicates rep ≠ len df - Z.of_nat (length (remove_dups (rows df))))
  ∧ (let df := mkDF ["a"; "a"] [DInt64; DInt64] [[CInt 1; CInt 2]] in
     ∃ st,
       check_table_quality MemoryProvider.provider "t" ({["t" := df]}, [])
       = (Raise TypeError, st)).
Proof.
  split_and!.
  - do 2 eexists. split; [vm_compute; reflexivity|]. by vm_compute.
  - do 2 eexists. split; [vm_compute; reflexivity|].
    split; [reflexivity|]. split; [|by vm_compute].
    apply (bool_decide_unpack _). reflexivity.
  - eexists. vm_compute. reflexivity.
Qed.
(** ** apply_corrections *)

(** C4 (amended). On a non-empty table, when [delete_table] and
    [write_table] return, [apply_corrections] makes exactly the calls
    read, delete_table, write_table(replace); the frame it writes has the
    source header and, as rows, the first occurrence of each distinct row
    in their original relative order, rows being compared column by
    column with Python's equality; it returns the number of rows removed,
    which is the number of rows minus the number of distinct rows and,
    under distinct column labels, the [duplicates] count that
    [check_table_quality] reports on the same table (under a repeated
    label [check_table_quality] raises [TypeError]); and
    [check_table_quality] on a table holding the written frame reports
    [duplicates = 0].  On rows [A, B, A, C, B] the report has
    [duplicates = 2], [apply_corrections] returns 2 and writes the 3 rows
    [A, B, C] in that order. *)
Theorem apply_corrections_removes_duplicates {W} (provider : DataProvider W)
    (table_name : string) (df : DataFrame) (w w1 w2 w3 : W) (n : Z)
    (log : list Event) :
  read_table provider table_name None w = (Ok df, w1) →
  empty df = false →
  delete_table provider table_name w1 = (Ok tt, w2) →
  write_table provider table_name (drop_duplicates df) "replace" w2 = (Ok n, w3) →
  ∃ removed,
    apply_corrections provider table_name (w, log)
    = (Ok removed,
       (w3, log ++ [(Subject, CallRead table_name None);
                    (Subject, CallDeleteTable table_name);
                    (Subject, CallWrite table_name (drop_duplicates df) "replace")]))
    ∧ removed = len df - Z.of_nat (distinct_rows (rows df))
    ∧ len (drop_duplicates df) = len df - removed
    ∧ columns (drop_duplicates df) = columns df
    ∧ rows (drop_duplicates df) = first_occurrences (rows df)
    ∧ (NoDup (columns df) →
       ∃ rep,
         check_table_quality provider table_name (w, log)
         = (Ok rep, (w1, log ++ [(Subject, CallRead table_name None)]))
         ∧ duplicates rep = removed)
    ∧ (¬ NoDup (columns df) →
       check_table_quality provider table_name (w, log)
       = (Raise TypeError, (w1, log ++ [(Subject, CallRead table_name None)])))
    ∧ (∀ (provider' : DataProvider W) (table_name' : string) (w' w1' : W)
         (log' : list Event),
         read_table provider' table_name' None w' = (Ok (drop_duplicates df), w1') →
         NoDup (columns df) →
         ∃ rep',
           check_table_quality provider' table_name' (w', log')
           = (Ok rep', (w1', log' ++ [(Subject, CallRead table_name' None)]))
           ∧ duplicates rep' = 0)
    ∧ (∀ A B C : list Cell,
         ¬ same_row A B → ¬ same_row A C → ¬ same_row B C →
         rows df = [A; B; A; C; B] →
         removed = 2 ∧ rows (drop_duplicates df) = [A; B; C]).
Proof.
  intros Hread Hne Hdel Hwrite.
  pose proof (rows_drop_duplicates df Hne) as Hrows.
  pose proof (duplicated_count [] (rows df)) as Hcount.
  fold (keep_first (rows df)) in Hcount. rewrite <- Hrows in Hcount.
  pose proof (duplicated_sum (rows df)) as Hsum.
  assert (columns (drop_duplicates df) = columns df) as Hcols
    by (unfold drop_duplicates; by rewrite Hne).
  exists (len df - len (drop_duplicates df)). split_and!.
  - unfold apply_corrections.
    erewrite bind_ok; [|apply invoke_eq; exact Hread].
    rewrite Hne. unfold reset_index.
    erewrite bind_ok; [|apply invoke_eq; exact Hdel].
    erewrite bind_ok; [|apply invoke_eq; exact Hwrite].
    unfold ret. rewrite <- !app_assoc. done.
  - unfold len in *. lia.
  - lia.
  - exact Hcols.
  - by rewrite Hrows, keep_first_spec.
  - intros Hnd.
    destruct (check_table_quality_run provider table_name df w w1 log Hread)
      as (rep & Hrun & _ & _ & Hdup & _); [by left|].
    rewrite Hne in Hdup. exists rep. split; [done|]. unfold len in *. lia.
  - intros Hnd. by apply (check_table_quality_repeated_label provider table_name df).
  - intros provider' table_name' w' w1' log' Hread' Hnd.
    destruct (check_table_quality_run provider' table_name' _ w' w1' log' Hread')
      as (rep' & Hrun' & _ & _ & Hdup' & _); [left; by rewrite Hcols|].
    exists rep'. split; [done|].
    rewrite Hdup', (empty_drop_duplicates df Hne), Hrows.
    apply kept_no_duplicates; [set_solver | apply NoDup_kept].
  - intros A B C HAB HAC HBC Hr.
    assert (rows (drop_duplicates df) = [A; B; C]) as Hk.
    { rewrite Hrows, keep_first_spec, Hr. cbn [first_occurrences].
      repeat (rewrite ?filter_cons, ?filter_nil; repeat case_decide;
              try done; simplify_eq). }
    split; [|done]. unfold len. rewrite Hk, Hr. simpl. lia.
Qed.

(** C4 as the specification states it has [apply_corrections] return 3 on
    [A, B, A, C, B]: it returns 2, the rows removed, and leaves 3 rows. *)
Lemma apply_corrections_abacb_returns_2 :
  ∃ w' log rep st,
    apply_corrections MemoryProvider.provider "t" ({["t" := abacb]}, [])
    = (Ok 2, (w', log))
    ∧ (w' : MemoryProvider.State) !! "t"
      = Some (mkDF ["id"; "name"] [DInt64; DObject] [row_A; row_B; row_C])
    ∧ check_table_quality MemoryProvider.provider "t" ({["t" := abacb]}, [])
      = (Ok rep, st)
    ∧ duplicates rep = 2
    ∧ (apply_corrections MemoryProvider.provider "t" ({["t" := abacb]}, [])).1
      ≠ Ok 3.
Proof.
  do 4 eexists. split_and!; [vm_compute; reflexivity | by vm_compute
    | vm_compute; reflexivity | reflexivity | by vm_compute].
Qed.

(** ** The credentials are a frame of every method *)

Section Keeps.
Context {S C : Type} (proj : S → C).

Lemma keeps_ret {A} (a : A) : keeps proj (ret a).
Proof. done. Qed.

Lemma keeps_raise {A} (e : Exn) : keeps proj (raise (A := A) e).
Proof. done. Qed.

Lemma keeps_get : keeps proj get.
Proof. done. Qed.

Lemma keeps_gets {A} (f : S → A) : keeps proj (gets f).
Proof. done. Qed.

Lemma keeps_lift_res {A} (r : Res A) : keeps proj (lift_res r).
Proof. done. Qed.

Lemma keeps_modify (f : S → S) :
  (∀ s, proj (f s) = proj s) → keeps proj (modify f).
Proof. intros H s. apply H. Qed.

Lemma keeps_bind {A B} (m : M S A) (k : A → M S B) :
  keeps proj m → (∀ a, keeps proj (k a)) → keeps proj (bind m k).
Proof.
  intros Hm Hk s. unfold bind. specialize (Hm s).
  destruct (m s) as [[a|e] s1]; simpl in *; [|done].
  by rewrite Hk.
Qed.

Lemma keeps_try_except {A} (body handler : M S A) :
  keeps proj body → keeps proj handler → keeps proj (try_except body handler).
Proof.
  intros Hb Hh s. unfold try_except. specialize (Hb s).
  destruct (body s) as [[a|e] s1]; simpl in *; [done|].
  by rewrite Hh.
Qed.

Lemma keeps_try_except_cls {A} (cls : Exn) (body handler : M S A) :
  keeps proj body → keeps proj handler →
  keeps proj (try_except_cls cls body handler).
Proof.
  intros Hb Hh s. unfold try_except_cls. specialize (Hb s).
  destruct (body s) as [[a|e] s1]; simpl in *; [done|].
  destruct (decide _); [by rewrite Hh | done].
Qed.

Lemma keeps_try_finally {A} (body : M S A) (fin : M S unit) :
  keeps proj body → keeps proj fin → keeps proj (try_finally body fin).
Proof.
  intros Hb Hf s. unfold try_finally. specialize (Hb s).
  destruct (body s) as [r s1]. specialize (Hf s1).
  destruct (fin s1) as [[[]|e] s2]; simpl in *; congruence.
Qed.

Lemma keeps_for_each {A X} (xs : list X) (acc : A) (body : A → X → M S A) :
  (∀ a x, keeps proj (body a x)) → keeps proj (for_each xs acc body).
Proof.
  intros Hb. revert acc. induction xs as [|x xs IH]; intros acc.
  - apply keeps_ret.
  - simpl. apply keeps_bind; [apply Hb | intros a; apply IH].
Qed.
End Keeps.

Lemma sqlite_on_db_keeps {A} (m : M Sql.Database A) :
  keeps SQLiteProvider.credentials (SQLiteProvider.on_db m).
Proof. intros s. unfold SQLiteProvider.on_db. by destruct (m _). Qed.

Lemma redshift_on_db_keeps {A} (m : M Sql.Database A) :
  keeps RedshiftProvider.credentials (RedshiftProvider.on_db m).
Proof. intros s. unfold RedshiftProvider.on_db. by destruct (m _). Qed.

Lemma snowflake_on_db_keeps {A} (m : M Sql.Database A) :
  keeps SnowflakeProvider.credentials (SnowflakeProvider.on_db m).
Proof. intros s. unfold SnowflakeProvider.on_db. by destruct (m _). Qed.

Lemma bigquery_on_cloud_keeps {A} (m : M BigQuery.Cloud A) :
  keeps BigQueryProvider.credentials (BigQueryProvider.on_cloud m).
Proof. intros s. unfold BigQueryProvider.on_cloud. by destruct (m _). Qed.

Lemma s3_on_store_keeps {A} (m : M S3.Store A) :
  keeps S3Provider.credentials (S3Provider.on_store m).
Proof. intros s. unfold S3Provider.on_store. by destruct (m _). Qed.

Create HintDb keeps discriminated.
#[export] Hint Resolve keeps_ret keeps_raise keeps_get keeps_gets keeps_lift_res
  sqlite_on_db_keeps redshift_on_db_keeps snowflake_on_db_keeps
  bigquery_on_cloud_keeps s3_on_store_keeps : keeps.

(** Walks through a method body: binds, handlers, loops, branches. *)
Ltac keeps_step :=
  first
    [ apply keeps_bind; [|intros ?]
    | apply keeps_try_except
    | apply keeps_try_except_cls
    | apply keeps_try_finally
    | apply keeps_for_each; intros ? ?
    | apply keeps_modify; intros ?; reflexivity
    | solve [eauto with keeps]
    | match goal with
      | |- keeps _ (match ?x with _ => _ end) => destruct x
      | |- keeps _ (let _ := _ in _) => cbv zeta
      end ].

Ltac keeps_method :=
  repeat first
    [ keeps_step
    | progress unfold use_connection, use_handle, S3Provider.call_client,
        S3Provider._read_object_df, BigQueryProvider._full_table_ref,
        BigQueryProvider.from_service_account_json, BigQueryProvider.new_client ].

(** C9. For every provider class and every method of the contract, the
    credentials dictionary held by the provider is after the call what it
    was before it, whether the call returns or raises. *)
Theorem credentials_unchanged (b : Backend) :
  let p := provider_of b in
  let creds := credentials_of b in
  keeps creds (connect p)
  ∧ keeps creds (test_connection p)
  ∧ (∀ actions, keeps creds (has_permissions p actions))
  ∧ keeps creds (list_datasets p)
  ∧ (∀ dataset, keeps creds (list_tables p dataset))
  ∧ (∀ table_name limit, keeps creds (read_table p table_name limit))
  ∧ (∀ table_name df if_exists, keeps creds (write_table p table_name df if_exists))
  ∧ (∀ table_name where_clause, keeps creds (delete_rows p table_name where_clause))
  ∧ (∀ table_name, keeps creds (delete_table p table_name))
  ∧ keeps creds (close p).
Proof.
  destruct b; cbn [provider_of credentials_of connect test_connection
    has_permissions list_datasets list_tables read_table write_table
    delete_rows delete_table close]; split_and!; intros.
  all: try (unfold SQLiteProvider.connect, SQLiteProvider.test_connection,
    SQLiteProvider.has_permissions, SQLiteProvider.list_datasets,
    SQLiteProvider.list_tables, SQLiteProvider.read_table,
    SQLiteProvider.write_table, SQLiteProvider.delete_rows,
    SQLiteProvider.delete_table, SQLiteProvider.close, SQLiteProvider.connect).
  all: try (unfold RedshiftProvider.connect, RedshiftProvider.test_connection,
    RedshiftProvider.has_permissions, RedshiftProvider.list_datasets,
    RedshiftProvider.list_tables, RedshiftProvider.read_table,
    RedshiftProvider.write_table, RedshiftProvider.delete_rows,
    RedshiftProvider.delete_table, RedshiftProvider.close, RedshiftProvider.connect).
  all: try (unfold SnowflakeProvider.connect, SnowflakeProvider.test_connection,
    SnowflakeProvider.has_permissions, SnowflakeProvider.list_datasets,
    SnowflakeProvider.list_tables, SnowflakeProvider.read_table,
    SnowflakeProvider.write_table, SnowflakeProvider.delete_rows,
    SnowflakeProvider.delete_table, SnowflakeProvider.close, SnowflakeProvider.connect).
  all: try (unfold BigQueryProvider.connect, BigQueryProvider.test_connection,
    BigQueryProvider.has_permissions, BigQueryProvider.list_datasets,
    BigQueryProvider.list_tables, BigQueryProvider.read_table,
    BigQueryProvider.write_table, BigQueryProvider.delete_rows,
    BigQueryProvider.delete_table, BigQueryProvider.close, BigQueryProvider.connect).
  all: try (unfold S3Provider.connect, S3Provider.test_connection,
    S3Provider.has_permissions, S3Provider.list_datasets,
    S3Provider.list_tables, S3Provider.read_table,
    S3Provider.write_table, S3Provider.delete_rows,
    S3Provider.delete_table, S3Provider.close, S3Provider.connect).
  all: keeps_method.
Qed.

(** ** test_connection *)

Lemma try_except_ret_total {S A} (body : M S A) (a : A) (s : S) :
  ∃ r s', try_except body (ret a) s = (Ok r, s').
Proof.
  unfold try_except. destruct (body s) as [[x|e] s1]; by do 2 eexists.
Qed.

Lemma try_except_bind_raise {S A B} (m : M S A) (k : A → M S B) (b : B) s e s1 :
  m s = (Raise e, s1) → try_except (bind m k) (ret b) s = (Ok b, s1).
Proof. intros H. unfold try_except. by rewrite (bind_raise _ _ _ _ _ H). Qed.

(** C7. For every provider class and every state of the provider and of
    its backend, [test_connection] returns a boolean: no exception leaves
    it.  The value is [False] when [connect] raises, whatever the
    exception, and when [connect] returns and the round-trip probe that
    follows it raises; it is [True] when both return.  The provider is
    left in the state that the last of these steps left. *)
Theorem test_connection_never_raises (b : Backend) (s : State_of b) :
  ∃ ok s',
    test_connection (provider_of b) s = (Ok ok, s')
    ∧ (∀ e s1, connect (provider_of b) s = (Raise e, s1) → ok = false ∧ s' = s1)
    ∧ (∀ s1 e s2,
         connect (provider_of b) s = (Ok tt, s1) →
         probe_of b s1 = (Raise e, s2) → ok = false ∧ s' = s2)
    ∧ (∀ s1 s2,
         connect (provider_of b) s = (Ok tt, s1) →
         probe_of b s1 = (Ok tt, s2) → ok = true ∧ s' = s2).
Proof.
  assert (∀ (S : Type) (c p : M S unit) (s : S),
            ∃ ok s',
              try_except (do c then do p then ret true) (ret false) s = (Ok ok, s')
              ∧ (∀ e s1, c s = (Raise e, s1) → ok = false ∧ s' = s1)
              ∧ (∀ s1 e s2, c s = (Ok tt, s1) → p s1 = (Raise e, s2) →
                            ok = false ∧ s' = s2)
              ∧ (∀ s1 s2, c s = (Ok tt, s1) → p s1 = (Ok tt, s2) →
                          ok = true ∧ s' = s2)) as Hgen.
  { intros S c p s0. unfold try_except, bind, ret.
    destruct (c s0) as [[[]|e] s1] eqn:Hc.
    - destruct (p s1) as [[[]|e] s2] eqn:Hp.
      + exists true, s2. split_and!; [done|done| |].
        * intros s1' e s2' [= <-]. by rewrite Hp.
        * intros s1' s2' [= <-]. rewrite Hp. by intros [= <-].
      + exists false, s2. split_and!; [done|done| |].
        * intros s1' e' s2' [= <-]. rewrite Hp. by intros [= _ <-].
        * intros s1' s2' [= <-]. by rewrite Hp.
    - exists false, s1. split_and!; [done| |done..].
      intros e' s1' [= <- <-]. done. }
  assert (∀ (S : Type) (c : M S unit) (s : S),
            try_except (do c then ret true) (ret false) s
            = try_except (do c then do ret tt then ret true) (ret false) s) as Hnone.
  { intros S c s0. unfold try_except, bind, ret. by destruct (c s0) as [[[]|?] ?]. }
  destruct b; simpl.
  - apply (Hgen _ SQLiteProvider.connect SQLiteProvider.probe).
  - unfold RedshiftProvider.test_connection. rewrite Hnone. apply Hgen.
  - apply (Hgen _ BigQueryProvider.connect BigQueryProvider.probe).
  - unfold SnowflakeProvider.test_connection. rewrite Hnone. apply Hgen.
  - unfold S3Provider.test_connection. rewrite Hnone. apply Hgen.
Qed.

(** The probe does fail after [connect] has returned: the file at
    [db_path] opens and answers no statement; [test_connection] is then
    [False]. *)
Lemma test_connection_never_raises_witness :
  let mute := Sql.mkDatabase true ∅ Scenario.where_true (λ _ _, true)
                false true (λ _, true) in
  let s : State_of SQLite :=
    SQLiteProvider.init {["db_path" := VStr "data/app.db"]} true mute in
  let s1 := (connect (provider_of SQLite) s).2 in
  connect (provider_of SQLite) s = (Ok tt, s1)
  ∧ probe_of SQLite s1 = (Raise DatabaseError, s1)
  ∧ test_connection (provider_of SQLite) s = (Ok false, s1).
Proof.
  intros mute s s1.
  assert (connect (provider_of SQLite) s = (Ok tt, s1)) as Hc by reflexivity.
  assert (probe_of SQLite s1 = (Raise DatabaseError, s1)) as Hp by reflexivity.
  split; [exact Hc|]. split; [exact Hp|].
  destruct (test_connection_never_raises SQLite s) as (ok & s' & Hrun & _ & Hprobe & _).
  destruct (Hprobe s1 DatabaseError s1 Hc Hp) as [-> ->]. exact Hrun.
Defined.

(** ** write_table *)

Lemma bind_ok_inv {S A B} (m : M S A) (k : A → M S B) s b s' :
  bind m k s = (Ok b, s') → ∃ a s1, m s = (Ok a, s1) ∧ k a s1 = (Ok b, s').
Proof.
  unfold bind. destruct (m s) as [[a|e] s1]; [|done]. intros H. by exists a, s1.
Qed.

Lemma ret_ok_inv {S A} (a b : A) (s s' : S) : ret a s = (Ok b, s') → a = b ∧ s = s'.
Proof. by intros [= -> ->]. Qed.

(** Peels the binds of a run that returned, down to its last step. *)
Ltac peel H :=
  repeat first
    [ apply bind_ok_inv in H as (? & ? & _ & H)
    | progress cbv zeta in H
    | match type of H with
      | (if ?c then _ else _) _ = _ => destruct c
      | (match ?x with _ => _ end) _ = _ => destruct x
      | raise _ _ = (Ok _, _) => discriminate H
      end ].

Lemma write_pandas_rows (schema name : string) (df : DataFrame) d ok chunks n d' :
  Sql.write_pandas schema name df d = (Ok (ok, chunks, n), d') → n = len df.
Proof.
  unfold Sql.write_pandas. intros H. peel H.
  apply ret_ok_inv in H as [[= _ _ <-] _]. done.
Qed.

Lemma write_table_ok_len (b : Backend) (s : State_of b) (table_name : string)
    (df : DataFrame) (if_exists : string) (n : Z) (s' : State_of b) :
  write_table (provider_of b) table_name df if_exists s = (Ok n, s') → n = len df.
Proof.
  destruct b; cbn [provider_of write_table State_of] in *; intros H.
  - unfold SQLiteProvider.write_table in H. peel H.
    by apply ret_ok_inv in H as [<- _].
  - unfold RedshiftProvider.write_table in H. peel H.
    by apply ret_ok_inv in H as [<- _].
  - unfold BigQueryProvider.write_table in H. peel H;
      by apply ret_ok_inv in H as [<- _].
  - unfold SnowflakeProvider.write_table in H.
    apply bind_ok_inv in H as (? & ? & _ & H).
    apply bind_ok_inv in H as (? & ? & _ & H).
    apply bind_ok_inv in H as (? & ? & _ & H).
    apply bind_ok_inv in H as (? & ? & _ & H).
    apply bind_ok_inv in H as ([[ok chunks] nrows] & ? & Hwp & H).
    apply ret_ok_inv in H as [<- _].
    unfold SnowflakeProvider.on_db in Hwp.
    destruct (Sql.write_pandas _ _ _ _) as [r d'] eqn:Hw.
    injection Hwp as -> _. by apply write_pandas_rows in Hw.
  - unfold S3Provider.write_table in H. peel H;
      by apply ret_ok_inv in H as [<- _].
Qed.

Lemma len_pd_concat (a b : DataFrame) : len (pd_concat a b) = len a + len b.
Proof.
  unfold len, pd_concat. simpl. rewrite length_app, !length_fmap. lia.
Qed.

Lemma truthy_str (x : string) : x ≠ "" → truthy (VStr x) = true.
Proof. intros H. simpl. by rewrite bool_decide_eq_false_2. Qed.

Lemma bind_get {S B} (k : S → M S B) (s : S) : bind get k s = k s s.
Proof. done. Qed.

Lemma s3_call_client_run {A} (m : M S3.Store A) (s : S3Provider.State) r st' :
  S3Provider.client s = Some tt →
  m (S3Provider.store s) = (r, st') →
  S3Provider.call_client m s = (r, S3Provider.set_store st' s).
Proof.
  intros Hc Hm. unfold S3Provider.call_client. rewrite bind_get, Hc.
  unfold use_handle. erewrite bind_ok; [|reflexivity].
  unfold S3Provider.on_store. by rewrite Hm.
Qed.

Lemma s3_guard_bucket_run (st : S3.Store) (bucket : string) :
  S3.fault st = None → bucket ∈ S3.buckets st →
  S3.guard_bucket bucket st = (Ok tt, st).
Proof.
  intros Hf Hin. unfold S3.guard_bucket.
  erewrite bind_ok; [|unfold S3.guard; by rewrite Hf].
  rewrite bind_get. by rewrite bool_decide_eq_true_2.
Qed.

Lemma s3_get_object_run (st : S3.Store) (bucket key : string) (body : S3.Body) :
  S3.fault st = None → bucket ∈ S3.buckets st →
  S3.objects st !! (bucket, key) = Some body →
  S3.get_object (VStr bucket) (VStr key) st = (Ok body, st).
Proof.
  intros Hf Hin Hobj. unfold S3.get_object.
  do 2 (erewrite bind_ok; [|reflexivity]).
  erewrite bind_ok; [|by apply s3_guard_bucket_run].
  rewrite bind_get. by rewrite Hobj.
Qed.

Lemma s3_put_object_run (st : S3.Store) (bucket key : string) (body : S3.Body) :
  S3.fault st = None → bucket ∈ S3.buckets st →
  S3.put_object (VStr bucket) (VStr key) body st
  = (Ok tt, S3.set_objects (λ o, <[(bucket, key) := body]> o) st).
Proof.
  intros Hf Hin. unfold S3.put_object.
  do 2 (erewrite bind_ok; [|reflexivity]).
  erewrite bind_ok; [|by apply s3_guard_bucket_run]. done.
Qed.

Lemma s3_read_object_df_run (s : S3Provider.State) (bucket key : string)
    (body : S3.Body) :
  S3Provider.client s = Some tt →
  S3.fault (S3Provider.store s) = None →
  bucket ∈ S3.buckets (S3Provider.store s) →
  S3.objects (S3Provider.store s) !! (bucket, key) = Some body →
  S3Provider._read_object_df (VStr bucket) (VStr key) s
  = (S3.reader (S3Provider.store s) (endswith (lower key) ".parquet") body, s).
Proof.
  intros Hc Hf Hin Hobj. unfold S3Provider._read_object_df.
  erewrite bind_ok;
    [|apply s3_call_client_run; [done|by apply s3_get_object_run]].
  erewrite bind_ok; [|reflexivity].
  rewrite bind_get. unfold lift_res. by destruct s.
Qed.

Lemma py_or_str (x : string) (v : Value) : x ≠ "" → py_or (VStr x) v = VStr x.
Proof. intros H. unfold py_or. by rewrite truthy_str. Qed.

(** The append mode of the S3 provider on an object that holds rows: the
    object is read, and rewritten whole as its rows followed by the new
    ones. *)
Lemma s3_write_table_append (s : S3Provider.State) (bucket table_name : string)
    (body : S3.Body) (existing df : DataFrame) :
  S3Provider.client s = Some tt →
  S3.fault (S3Provider.store s) = None →
  cred_get (S3Provider.credentials s) "bucket" = VStr bucket →
  bucket ≠ "" → table_name ≠ "" →
  bucket ∈ S3.buckets (S3Provider.store s) →
  S3.objects (S3Provider.store s) !! (bucket, table_name) = Some body →
  S3.reader (S3Provider.store s) (endswith (lower table_name) ".parquet") body
    = Ok existing →
  empty existing = false →
  S3Provider.write_table table_name df "append" s
  = (Ok (len df),
     S3Provider.set_store
       (S3.set_objects
          (λ o, <[(bucket, table_name) :=
                    S3.Serialized (endswith (lower table_name) ".parquet")
                                  (pd_concat existing df)]> o)
          (S3Provider.store s)) s).
Proof.
  intros Hc Hf Hb Hbne Hkne Hin Hobj Hread Hne.
  unfold S3Provider.write_table. rewrite bind_get. cbv zeta. rewrite Hb.
  rewrite py_or_str by done.
  rewrite (truthy_str bucket), (truthy_str table_name) by done.
  cbn [negb orb]. rewrite decide_True by done.
  erewrite bind_ok; last first.
  { unfold try_except_cls.
    rewrite (s3_read_object_df_run s bucket table_name body) by done.
    rewrite Hread. reflexivity. }
  rewrite Hne. cbn [negb].
  erewrite bind_ok; [|reflexivity].
  erewrite bind_ok;
    [|apply s3_call_client_run; [done|by apply s3_put_object_run]].
  reflexivity.
Qed.

(** On a reachable cluster, through a provider that has _connected, a
    write that the engine accepts into a table that is absent, or that is
    replaced, returns the number of rows of the frame. *)
Lemma redshift_write_table_returns (s : RedshiftProvider.State)
    (table_name : string) (df : DataFrame) (if_exists : string) (url : string) :
  RedshiftProvider.engine s = Some url →
  Sql.up (RedshiftProvider.db s) = true →
  Sql.accepts (RedshiftProvider.db s) table_name df = true →
  if_exists = "append" ∨ if_exists = "replace" →
  Sql.tables (RedshiftProvider.db s) !! (RedshiftProvider.schema_arg s, table_name) = None
    ∨ if_exists = "replace" →
  ∃ s', RedshiftProvider.write_table table_name df if_exists s = (Ok (len df), s')
        ∧ Sql.tables (RedshiftProvider.db s')
            !! (RedshiftProvider.schema_arg s, table_name) = Some df.
Proof.
  intros He Hup Hacc Hmode Habs.
  destruct s as [creds conn eng d]. simpl in *. subst eng.
  destruct d as [up tbl ws acc]. simpl in *. subst up.
  unfold RedshiftProvider.write_table, bind, get. simpl.
  unfold RedshiftProvider.on_db, Sql.to_sql. simpl.
  rewrite bool_decide_eq_true_2 by (destruct Hmode as [->| ->]; set_solver).
  simpl. unfold bind, ret, Sql.guard_up, get. simpl.
  set (sch := RedshiftProvider.schema_arg _) in *.
  destruct (tbl !! (sch, table_name)) as [old|] eqn:Ht.
  - destruct Habs as [?| ->]; [done|].
    destruct Hmode as [?|_]; [done|]. simpl.
    unfold Sql.create_and_load, bind, get, modify. simpl. rewrite Hacc. simpl.
    eexists. split; [reflexivity|]. simpl. apply lookup_insert_eq.
  - unfold Sql.create_and_load, bind, get, modify. simpl. rewrite Hacc. simpl.
    eexists. split; [reflexivity|]. simpl. apply lookup_insert_eq.
Qed.


(** ** The SQLite provider as a destination *)

Lemma sql_guard_up_run (d : Sql.Database) :
  Sql.up d = true → Sql.guard_up d = (Ok tt, d).
Proof. intros H. unfold Sql.guard_up. by rewrite H. Qed.

Lemma sql_to_sql_append_run {H} (con : option H) (h : H) (schema name : string)
    (df : DataFrame) (d : Sql.Database) :
  con = Some h →
  Sql.up d = true →
  Sql.accepts d name df = true →
  (∀ old, Sql.tables d !! (schema, name) = Some old →
          forallb (λ c, bool_decide (c ∈ columns old)) (columns df) = true) →
  Sql.to_sql con schema name df "append" d
  = (Ok tt,
     Sql.set_tables (λ t,
       <[(schema, name) :=
           match Sql.tables d !! (schema, name) with
           | Some old =>
               mkDF (columns old) (dtypes old)
                    (rows old ++ (relay (columns df) (columns old) <$> rows df))
           | None => df
           end]> t) d).
Proof.
  intros -> Hup Hacc Hcols. unfold Sql.to_sql.
  rewrite bool_decide_eq_true_2 by set_solver. cbn [negb].
  erewrite bind_ok; [|reflexivity].
  erewrite bind_ok; [|by apply sql_guard_up_run].
  rewrite bind_get.
  destruct (Sql.tables d !! (schema, name)) as [old|] eqn:Ht.
  - rewrite decide_False by done. rewrite decide_False by done.
    unfold Sql.append_rows. rewrite bind_get, Hacc, (Hcols old) by done. done.
  - unfold Sql.create_and_load. rewrite bind_get, Hacc. done.
Qed.

Lemma sqlite_write_table_append_run (s : SQLiteProvider.State) (url : string)
    (table_name : string) (df : DataFrame) :
  SQLiteProvider.engine s = Some url →
  Sql.up (SQLiteProvider.db s) = true →
  Sql.accepts (SQLiteProvider.db s) table_name df = true →
  (∀ old, Sql.tables (SQLiteProvider.db s) !! ("main", table_name) = Some old →
          forallb (λ c, bool_decide (c ∈ columns old)) (columns df) = true) →
  SQLiteProvider.write_table table_name df "append" s
  = (Ok (len df),
     SQLiteProvider.set_db
       (Sql.set_tables (λ t,
          <[("main", table_name) :=
              match Sql.tables (SQLiteProvider.db s) !! ("main", table_name) with
              | Some old =>
                  mkDF (columns old) (dtypes old)
                       (rows old ++ (relay (columns df) (columns old) <$> rows df))
              | None => df
              end]> t) (SQLiteProvider.db s)) s).
Proof.
  intros He Hup Hacc Hcols. unfold SQLiteProvider.write_table.
  rewrite bind_get.
  erewrite bind_ok; [reflexivity|].
  unfold SQLiteProvider.on_db.
  by rewrite (sql_to_sql_append_run _ url "main" table_name df _ He Hup Hacc Hcols).
Qed.

Lemma forallb_elem_self (l : list string) :
  forallb (λ c, bool_decide (c ∈ l)) l = true.
Proof.
  apply forallb_forall. intros c Hc. apply bool_decide_eq_true_2.
  by apply list_elem_of_In.
Qed.

Lemma sqlite_takes_write (table_name : string) (hdr : list string)
    (s : SQLiteProvider.State) (d : DataFrame) :
  hdr ≠ [] → columns d = hdr → sqlite_takes table_name hdr s →
  ∃ s', SQLiteProvider.write_table table_name d "append" s = (Ok (len d), s')
        ∧ sqlite_takes table_name hdr s'.
Proof.
  intros Hne Hd ((url & He) & Hup & Hacc & Hold).
  eexists. split.
  - apply (sqlite_write_table_append_run s url); [done..| |].
    + rewrite Hacc, Hd. by rewrite bool_decide_eq_false_2.
    + intros old Ho. rewrite (Hold old Ho), Hd. apply forallb_elem_self.
  - split_and!; [by exists url|done..|].
    simpl. intros old. rewrite lookup_insert_eq. intros [= <-].
    destruct (Sql.tables _ !! _) as [old|] eqn:Ho; [|done].
    simpl. by apply Hold.
Qed.

(** ** The scenarios, run *)

Lemma right_provider_write {S1 S2} (p : DataProvider S2) (table_name : string)
    (d : DataFrame) (mode : string) (s : S1 * S2) r s2 :
  write_table p table_name d mode s.2 = (r, s2) →
  write_table (right_provider p) table_name d mode s = (r, (s.1, s2)).
Proof. intros H. simpl. unfold on_snd. by rewrite H. Qed.

(** A 12-row table held in memory is migrated to an empty SQLite database
    in chunks of 5: three writes, of 5, 5 and 2 rows. *)
Example migrate_table_12_by_5 :
  let source := left_provider (S2 := SQLiteProvider.State) MemoryProvider.provider in
  let dest := right_provider (S1 := MemoryProvider.State) SQLiteProvider.provider in
  let w := ({["t" := Scenario.numbered 12]}, Scenario.sqlite ∅) in
  let run := migrate_table source dest "t" 5 (w, []) in
  run.1 = Ok 12
  ∧ len <$> writes_of Dest run.2.2 = [5; 5; 2]
  ∧ Sql.tables (SQLiteProvider.db run.2.1.2) !! ("main", "t")
    = Some (Scenario.numbered 12).
Proof. vm_compute. done. Qed.

Lemma migrate_table_chunks_witness :
  let source := left_provider (S2 := SQLiteProvider.State) MemoryProvider.provider in
  let dest := right_provider (S1 := MemoryProvider.State) SQLiteProvider.provider in
  let w := ({["t" := Scenario.numbered 12]}, Scenario.sqlite ∅) in
  0 < 5
  ∧ read_table source "t" None w = (Ok (Scenario.numbered 12), w)
  ∧ empty (Scenario.numbered 12) = false
  ∧ sqlite_takes "t" ["id"; "name"] w.2
  ∧ ∃ ws w2,
      migrate_table source dest "t" 5 (w, [])
      = (Ok (len (Scenario.numbered 12)),
         (w2, [] ++ (Source, CallRead "t" None)
                    :: ((λ d, (Dest, CallWrite "t" d "append")) <$> ws)))
      ∧ Z.of_nat (length ws) = (len (Scenario.numbered 12) + 5 - 1) `div` 5
      ∧ concat (rows <$> ws) = rows (Scenario.numbered 12).
Proof.
  intros source dest w.
  assert (read_table source "t" None w = (Ok (Scenario.numbered 12), w)) as Hread
    by reflexivity.
  assert (empty (Scenario.numbered 12) = false) as Hne by reflexivity.
  assert (sqlite_takes "t" ["id"; "name"] w.2) as Htakes.
  { split; [by exists "sqlite:///data/app.db"|].
    split; [reflexivity|]. split; [reflexivity|].
    intros old Ho. vm_compute in Ho. discriminate Ho. }
  split; [lia|]. split; [exact Hread|]. split; [exact Hne|]. split; [exact Htakes|].
  destruct (migrate_table_chunks source dest
              (λ s, sqlite_takes "t" ["id"; "name"] s.2) "t" 5
              (Scenario.numbered 12) w w [] ltac:(lia) Hread Hne Htakes)
    as (ws & w2 & Hrun & Hlen & Hcat & _).
  - intros d s HI Hd.
    destruct (sqlite_takes_write "t" ["id"; "name"] s.2 d ltac:(done) Hd HI)
      as (s2 & Hw & HI2).
    exists (s.1, s2). split; [|exact HI2].
    by apply right_provider_write.
  - exists ws, w2. split; [exact Hrun|]. split; [exact Hlen|exact Hcat].
Defined.

Lemma migrate_table_empty_source_witness :
  let source := left_provider (S2 := SQLiteProvider.State) MemoryProvider.provider in
  let dest := right_provider (S1 := MemoryProvider.State) SQLiteProvider.provider in
  let w := memory_and_sqlite no_rows in
  let w2 := (write_table dest "t" no_rows "append" w).2 in
  read_table source "t" None w = (Ok no_rows, w)
  ∧ empty no_rows = true
  ∧ write_table dest "t" no_rows "append" w = (Ok 0, w2)
  ∧ Sql.tables (SQLiteProvider.db w2.2) !! ("main", "t") = Some no_rows
  ∧ migrate_table source dest "t" 5000 (w, [])
    = (Ok 0, (w2, [] ++ [(Source, CallRead "t" None);
                         (Dest, CallWrite "t" no_rows "append")])).
Proof.
  intros source dest w w2.
  assert (read_table source "t" None w = (Ok no_rows, w)) as Hread by reflexivity.
  assert (empty no_rows = true) as He by reflexivity.
  assert (write_table dest "t" no_rows "append" w = (Ok 0, w2)) as Hw by reflexivity.
  split; [exact Hread|]. split; [exact He|]. split; [exact Hw|].
  split; [reflexivity|].
  exact (proj1 (migrate_table_empty_source source dest "t" 5000 no_rows w w w2
                  (Ok 0) [] Hread He Hw)).
Defined.

Lemma apply_corrections_empty_untouched_witness :
  let w : MemoryProvider.State := {["t" := no_rows]} in
  read_table MemoryProvider.provider "t" None w = (Ok no_rows, w)
  ∧ empty no_rows = true
  ∧ apply_corrections MemoryProvider.provider "t" (w, [])
    = (Ok 0, (w, [] ++ [(Subject, CallRead "t" None)])).
Proof.
  intros w.
  assert (read_table MemoryProvider.provider "t" None w = (Ok no_rows, w)) as Hread
    by reflexivity.
  assert (empty no_rows = true) as He by reflexivity.
  split; [exact Hread|]. split; [exact He|].
  exact (apply_corrections_empty_untouched MemoryProvider.provider "t" no_rows w w []
           Hread He).
Defined.

Lemma check_table_quality_duplicates_witness :
  let w : MemoryProvider.State := {["t" := abacb]} in
  read_table MemoryProvider.provider "t" None w = (Ok abacb, w)
  ∧ NoDup (columns abacb)
  ∧ columns abacb ≠ []
  ∧ plain_rows (rows abacb)
  ∧ ∃ rep,
      check_table_quality MemoryProvider.provider "t" (w, [])
      = (Ok rep, (w, [] ++ [(Subject, CallRead "t" None)]))
      ∧ report_rows rep = len abacb
      ∧ duplicates rep = len abacb - Z.of_nat (distinct_rows (rows abacb))
      ∧ duplicates rep = len abacb - Z.of_nat (length (remove_dups (rows abacb))).
Proof.
  intros w.
  assert (read_table MemoryProvider.provider "t" None w = (Ok abacb, w)) as Hread
    by reflexivity.
  assert (NoDup (columns abacb)) as Hnd
    by (apply (bool_decide_unpack _); reflexivity).
  assert (columns abacb ≠ []) as Hc by discriminate.
  assert (plain_rows (rows abacb)) as Hplain.
  { intros r r' Hr Hr' Hk. unfold same_row in Hk. simpl in Hr, Hr'.
    repeat (apply elem_of_cons in Hr as [->|Hr]);
      repeat (apply elem_of_cons in Hr' as [->|Hr']);
      try done; try (by apply elem_of_nil in Hr); by apply elem_of_nil in Hr'. }
  split; [exact Hread|]. split; [exact Hnd|]. split; [exact Hc|].
  split; [exact Hplain|].
  destruct (proj1 (check_table_quality_duplicates MemoryProvider.provider "t" abacb
                     w w [] Hread) (or_introl Hnd))
    as (rep & Hrun & Hrows & Hdup & Hdup' & _).
  exists rep. split; [exact Hrun|]. split; [exact Hrows|].
  split; [exact (Hdup Hc)|exact (Hdup' Hc Hplain)].
Defined.

Lemma apply_corrections_removes_duplicates_witness :
  let p := MemoryProvider.provider in
  let w : MemoryProvider.State := {["t" := abacb]} in
  let w2 := (delete_table p "t" w).2 in
  let w3 := (write_table p "t" (drop_duplicates abacb) "replace" w2).2 in
  read_table p "t" None w = (Ok abacb, w)
  ∧ empty abacb = false
  ∧ delete_table p "t" w = (Ok tt, w2)
  ∧ write_table p "t" (drop_duplicates abacb) "replace" w2 = (Ok 3, w3)
  ∧ NoDup (columns abacb)
  ∧ apply_corrections p "t" (w, [])
    = (Ok 2,
       (w3, [] ++ [(Subject, CallRead "t" None);
                   (Subject, CallDeleteTable "t");
                   (Subject, CallWrite "t" (drop_duplicates abacb) "replace")]))
  ∧ rows (drop_duplicates abacb) = [row_A; row_B; row_C]
  ∧ ∃ rep,
      check_table_quality p "t" (w, [])
      = (Ok rep, (w, [] ++ [(Subject, CallRead "t" None)]))
      ∧ duplicates rep = 2.
Proof.
  intros p w w2 w3.
  assert (read_table p "t" None w = (Ok abacb, w)) as Hread by reflexivity.
  assert (empty abacb = false) as Hne by reflexivity.
  assert (delete_table p "t" w = (Ok tt, w2)) as Hdel by reflexivity.
  assert (write_table p "t" (drop_duplicates abacb) "replace" w2 = (Ok 3, w3)) as Hw
    by reflexivity.
  assert (NoDup (columns abacb)) as Hnd
    by (apply (bool_decide_unpack _); reflexivity).
  split; [exact Hread|]. split; [exact Hne|]. split; [exact Hdel|]. split; [exact Hw|].
  split; [exact Hnd|].
  destruct (apply_corrections_removes_duplicates p "t" abacb w w w2 w3 3 []
              Hread Hne Hdel Hw)
    as (removed & Happly & _ & _ & _ & _ & Hcheck & _ & _ & Habc).
  destruct (Habc row_A row_B row_C ltac:(discriminate) ltac:(discriminate)
              ltac:(discriminate) eq_refl) as [Hrem Hrows].
  destruct (Hcheck Hnd) as (rep & Hrun & Hdup).
  rewrite Hrem in Happly, Hdup.
  split; [exact Happly|]. split; [exact Hrows|].
  exists rep. split; [exact Hrun|exact Hdup].
Defined.


(** ** write_table on an absent target *)

Lemma bigquery_full_table_ref_run (s : BigQueryProvider.State)
    (c : BigQueryProvider.Client) (table_name : string) :
  BigQueryProvider.client s = Some c →
  ∃ full, BigQueryProvider._full_table_ref table_name s = (Ok full, s).
Proof.
  intros Hc. unfold BigQueryProvider._full_table_ref. rewrite bind_get.
  destruct (str_contains "." table_name); cbv zeta; rewrite Hc;
    (erewrite bind_ok; [|reflexivity]); by eexists.
Qed.

(** In a mode other than replace, the BigQuery provider asks for the
    table before loading: on an absent table the lookup raises
    [NotFound], nothing is loaded, nothing is created. *)
Lemma bigquery_write_table_absent (s : BigQueryProvider.State)
    (c : BigQueryProvider.Client) (table_name full : string) (df : DataFrame)
    (if_exists : string) :
  BigQueryProvider.client s = Some c →
  BigQueryProvider._full_table_ref table_name s = (Ok full, s) →
  BigQuery.up (BigQueryProvider.cloud s) = true →
  BigQuery.tables (BigQueryProvider.cloud s) !! full = None →
  if_exists ≠ "replace" →
  BigQueryProvider.write_table table_name df if_exists s = (Raise NotFound, s).
Proof.
  intros Hc Hfull Hup Habs Hmode. unfold BigQueryProvider.write_table.
  erewrite bind_ok; [|exact Hfull].
  rewrite decide_True by done.
  erewrite bind_raise; [reflexivity|].
  erewrite bind_raise; [reflexivity|].
  unfold BigQueryProvider.on_cloud, BigQuery.get_table.
  erewrite bind_ok; [|unfold BigQuery.guard_up; by rewrite Hup].
  rewrite bind_get, Habs. by destruct s.
Qed.

(** C5, on the code.  With the target absent, [write_table] in append
    mode through the BigQuery provider raises [NotFound] and leaves the
    service as it was, whereas the same call through the SQLite, Redshift,
    Snowflake and S3 providers, and the replace mode of all five, return
    and leave a target holding the recordset under its header.  A
    migration of an empty table to BigQuery thus fails at its one write. *)
Theorem write_table_absent_target :
  let df := Scenario.numbered 3 in
  let run {S} (p : DataProvider S) (name mode : string) (s : S) :=
    write_table p name df mode s in
  (* BigQuery *)
  run (provider_of BigQuery) "orders" "append" (Scenario.bigquery ∅)
  = (Raise NotFound, Scenario.bigquery ∅)
  ∧ (run (provider_of BigQuery) "orders" "replace" (Scenario.bigquery ∅)).1 = Ok 3
  ∧ BigQuery.tables (BigQueryProvider.cloud
      (run (provider_of BigQuery) "orders" "replace" (Scenario.bigquery ∅)).2)
      !! "acme.sales.orders" = Some df
  (* the other providers, append *)
  ∧ (run (provider_of SQLite) "orders" "append" (Scenario.sqlite ∅)).1 = Ok 3
  ∧ Sql.tables (SQLiteProvider.db
      (run (provider_of SQLite) "orders" "append" (Scenario.sqlite ∅)).2)
      !! ("main", "orders") = Some df
  ∧ (run (provider_of Redshift) "orders" "append" (Scenario.redshift ∅)).1 = Ok 3
  ∧ Sql.tables (RedshiftProvider.db
      (run (provider_of Redshift) "orders" "append" (Scenario.redshift ∅)).2)
      !! ("public", "orders") = Some df
  ∧ (run (provider_of Snowflake) "orders" "append" (Scenario.snowflake ∅)).1 = Ok 3
  ∧ columns <$> (Sql.tables (SnowflakeProvider.db
      (run (provider_of Snowflake) "orders" "append" (Scenario.snowflake ∅)).2)
      !! ("PUBLIC", "orders")) = Some (columns df)
  ∧ (run (provider_of S3) "orders.csv" "append" (Scenario.s3 ∅)).1 = Ok 3
  ∧ S3.objects (S3Provider.store
      (run (provider_of S3) "orders.csv" "append" (Scenario.s3 ∅)).2)
      !! ("lake", "orders.csv") = Some (S3.Serialized false df)
  (* the other providers, replace *)
  ∧ (run (provider_of SQLite) "orders" "replace" (Scenario.sqlite ∅)).1 = Ok 3
  ∧ (run (provider_of Redshift) "orders" "replace" (Scenario.redshift ∅)).1 = Ok 3
  ∧ (run (provider_of Snowflake) "orders" "replace" (Scenario.snowflake ∅)).1 = Ok 3
  ∧ (run (provider_of S3) "orders.csv" "replace" (Scenario.s3 ∅)).1 = Ok 3
  (* migrate_table of an empty table to BigQuery *)
  ∧ (migrate_table
       (left_provider (S2 := BigQueryProvider.State) MemoryProvider.provider)
       (right_provider (S1 := MemoryProvider.State) BigQueryProvider.provider)
       "orders" 5000 (({["orders" := no_rows]}, Scenario.bigquery ∅), [])).1
    = Raise NotFound.
Proof. vm_compute. split_and!; reflexivity. Qed.

(** ** delete_rows *)

Lemma has_where_nonblank (w : string) : is_blank w = false → has_where (Some w) = Some w.
Proof. intros H. unfold has_where. by rewrite H. Qed.

Lemma sql_delete_from_rejected (d : Sql.Database) (schema name w : string) :
  (∀ cols, Sql.where_sem d w cols = None) →
  ∃ e, Sql.delete_from schema name (Some w) d = (Raise e, d).
Proof.
  intros Hrej. unfold Sql.delete_from, bind, Sql.guard_up, get.
  destruct (Sql.up d); [|by eexists].
  destruct (Sql.tables d !! (schema, name)); [|by eexists].
  rewrite Hrej. by eexists.
Qed.

Lemma no_query_error (e : Exn) : class_name e ≠ "QueryError".
Proof. by destruct e. Qed.

Lemma bigquery_query_delete_rejected (c : BigQuery.Cloud) (full w : string) :
  (∀ cols, BigQuery.where_sem c w cols = None) →
  ∃ e, BigQuery.query_delete full (Some w) c = (Raise e, c).
Proof.
  intros Hrej. unfold BigQuery.query_delete, bind, BigQuery.guard_up, get.
  destruct (BigQuery.up c); [|by eexists].
  destruct (BigQuery.tables c !! full); [|by eexists].
  rewrite Hrej. by eexists.
Qed.

Lemma bigquery_full_table_ref_state (table_name : string)
    (s : BigQueryProvider.State) r s1 :
  BigQueryProvider._full_table_ref table_name s = (r, s1) → s1 = s.
Proof.
  unfold BigQueryProvider._full_table_ref. rewrite bind_get.
  destruct (str_contains "." table_name); cbv zeta;
    destruct (BigQueryProvider.client s); cbn; by intros [= _ <-].
Qed.

(** A predicate that the engine rejects makes [delete_rows] raise, through
    each of the SQL-backed providers and in every state. *)
Lemma delete_rows_rejected_raises (b : Backend) (s : State_of b)
    (table_name w : string) :
  b ≠ S3 → is_blank w = false → predicate_rejected b s w →
  ∃ e s', delete_rows (provider_of b) table_name (Some w) s = (Raise e, s').
Proof.
  intros Hb Hw Hrej.
  destruct b; [| | | |done];
    cbn [provider_of State_of predicate_rejected] in *.
  - change (delete_rows SQLiteProvider.provider) with SQLiteProvider.delete_rows.
    unfold SQLiteProvider.delete_rows. rewrite bind_get, has_where_nonblank by done.
    destruct (SQLiteProvider.engine s); [|by do 2 eexists].
    erewrite bind_ok; [|reflexivity].
    destruct (sql_delete_from_rejected (SQLiteProvider.db s) "main" table_name w Hrej)
      as (e & He).
    erewrite bind_raise; [by do 2 eexists|].
    unfold SQLiteProvider.on_db. by rewrite He.
  - change (delete_rows RedshiftProvider.provider) with RedshiftProvider.delete_rows.
    unfold RedshiftProvider.delete_rows. rewrite bind_get, has_where_nonblank by done.
    destruct (RedshiftProvider.engine s); [|by do 2 eexists].
    erewrite bind_ok; [|reflexivity].
    destruct (sql_delete_from_rejected (RedshiftProvider.db s)
                (RedshiftProvider.schema_text s) table_name w Hrej) as (e & He).
    erewrite bind_raise; [by do 2 eexists|].
    unfold RedshiftProvider.on_db. by rewrite He.
  - change (delete_rows BigQueryProvider.provider) with BigQueryProvider.delete_rows.
    unfold BigQueryProvider.delete_rows.
    destruct (BigQueryProvider._full_table_ref table_name s) as [[full|e] s1] eqn:Hf;
      [|erewrite bind_raise by done; by do 2 eexists].
    erewrite bind_ok by done. rewrite has_where_nonblank by done.
    apply bigquery_full_table_ref_state in Hf as ->.
    unfold BigQueryProvider.on_cloud.
    destruct (bigquery_query_delete_rejected (BigQueryProvider.cloud s) full w)
      as (e & He); [done|].
    erewrite bind_raise; [by do 2 eexists|]. by rewrite He.
  - change (delete_rows SnowflakeProvider.provider) with SnowflakeProvider.delete_rows.
    unfold SnowflakeProvider.delete_rows. rewrite bind_get, has_where_nonblank by done.
    destruct (SnowflakeProvider.conn s) as [[]|]; [|by do 2 eexists..].
    erewrite bind_ok; [|reflexivity].
    destruct (sql_delete_from_rejected (SnowflakeProvider.db s)
                (SnowflakeProvider.session_schema s) table_name w Hrej) as (e & He).
    erewrite bind_raise; [by do 2 eexists|].
    unfold SnowflakeProvider.on_db. by rewrite He.
Qed.

(** When the predicate cannot be evaluated, the S3 provider keeps the
    frame it read, writes it back and returns 0. *)
Lemma s3_delete_rows_query_fails (s : S3Provider.State) (bucket table_name w : string)
    (body : S3.Body) (df : DataFrame) (e : Exn) :
  S3Provider.client s = Some tt →
  S3.fault (S3Provider.store s) = None →
  cred_get (S3Provider.credentials s) "bucket" = VStr bucket →
  bucket ≠ "" → table_name ≠ "" →
  bucket ∈ S3.buckets (S3Provider.store s) →
  S3.objects (S3Provider.store s) !! (bucket, table_name) = Some body →
  S3.reader (S3Provider.store s) (endswith (lower table_name) ".parquet") body = Ok df →
  empty df = false →
  is_blank w = false →
  S3Provider.pd_query s w df = Raise e →
  S3Provider.delete_rows table_name (Some w) s
  = (Ok 0,
     S3Provider.set_store
       (S3.set_objects
          (λ o, <[(bucket, table_name) :=
                    S3.Serialized (endswith (lower table_name) ".parquet") df]> o)
          (S3Provider.store s)) s).
Proof.
  intros Hc Hf Hb Hbne Hkne Hin Hobj Hread Hne Hw Hq.
  unfold S3Provider.delete_rows. rewrite bind_get. cbv zeta. rewrite Hb.
  rewrite py_or_str by done.
  rewrite (truthy_str bucket), (truthy_str table_name) by done.
  cbn [negb orb].
  erewrite bind_ok; last first.
  { rewrite (s3_read_object_df_run s bucket table_name body) by done.
    by rewrite Hread. }
  rewrite Hne, has_where_nonblank by done.
  erewrite bind_ok; last first.
  { unfold try_except. erewrite bind_raise; [reflexivity|].
    unfold lift_res. by rewrite Hq. }
  erewrite bind_ok; [|reflexivity].
  erewrite bind_ok;
    [|apply s3_call_client_run; [done|by apply s3_put_object_run]].
  unfold ret. do 2 f_equal. lia.
Qed.

(** A fault of the store reaches the caller of the S3 provider as it is. *)
Lemma s3_delete_rows_store_fault (s : S3Provider.State) (bucket table_name : string)
    (where_clause : option string) (e : Exn) :
  S3Provider.client s = Some tt →
  S3.fault (S3Provider.store s) = Some e →
  cred_get (S3Provider.credentials s) "bucket" = VStr bucket →
  bucket ≠ "" → table_name ≠ "" →
  S3Provider.delete_rows table_name where_clause s = (Raise e, s).
Proof.
  intros Hc Hf Hb Hbne Hkne.
  unfold S3Provider.delete_rows. rewrite bind_get. cbv zeta. rewrite Hb.
  rewrite py_or_str by done.
  rewrite (truthy_str bucket), (truthy_str table_name) by done.
  cbn [negb orb].
  erewrite bind_raise; [reflexivity|].
  unfold S3Provider._read_object_df.
  erewrite bind_raise; [reflexivity|].
  assert (S3.get_object (VStr bucket) (VStr table_name) (S3Provider.store s)
          = (Raise e, S3Provider.store s)) as Hget.
  { unfold S3.get_object.
    do 2 (erewrite bind_ok; [|reflexivity]).
    erewrite bind_raise; [reflexivity|].
    unfold S3.guard_bucket. erewrite bind_raise; [reflexivity|].
    unfold S3.guard. by rewrite Hf. }
  rewrite (s3_call_client_run _ s _ _ Hc Hget). by destruct s.
Qed.

(** What the engine raises on the DELETE statement is what [delete_rows]
    raises. *)
Lemma sqlite_delete_rows_propagates (s : SQLiteProvider.State) (url table_name : string)
    (where_clause : option string) (e : Exn) d' :
  SQLiteProvider.engine s = Some url →
  Sql.delete_from "main" table_name (has_where where_clause) (SQLiteProvider.db s)
    = (Raise e, d') →
  SQLiteProvider.delete_rows table_name where_clause s
  = (Raise e, SQLiteProvider.set_db d' s).
Proof.
  intros He Hd. unfold SQLiteProvider.delete_rows. rewrite bind_get, He.
  erewrite bind_ok; [|reflexivity].
  erewrite bind_raise; [reflexivity|].
  unfold SQLiteProvider.on_db. by rewrite Hd.
Qed.

Lemma redshift_delete_rows_propagates (s : RedshiftProvider.State)
    (url table_name : string) (where_clause : option string) (e : Exn) d' :
  RedshiftProvider.engine s = Some url →
  Sql.delete_from (RedshiftProvider.schema_text s) table_name (has_where where_clause)
    (RedshiftProvider.db s) = (Raise e, d') →
  RedshiftProvider.delete_rows table_name where_clause s
  = (Raise e, RedshiftProvider.set_db d' s).
Proof.
  intros He Hd. unfold RedshiftProvider.delete_rows. rewrite bind_get, He.
  erewrite bind_ok; [|reflexivity].
  erewrite bind_raise; [reflexivity|].
  unfold RedshiftProvider.on_db. by rewrite Hd.
Qed.

Lemma snowflake_delete_rows_propagates (s : SnowflakeProvider.State)
    (table_name : string) (where_clause : option string) (e : Exn) d' :
  SnowflakeProvider.conn s = Some true →
  Sql.delete_from (SnowflakeProvider.session_schema s) table_name
    (has_where where_clause) (SnowflakeProvider.db s) = (Raise e, d') →
  SnowflakeProvider.delete_rows table_name where_clause s
  = (Raise e, SnowflakeProvider.set_db d' s).
Proof.
  intros Hc Hd. unfold SnowflakeProvider.delete_rows. rewrite bind_get, Hc.
  erewrite bind_ok; [|reflexivity].
  erewrite bind_raise; [reflexivity|].
  unfold SnowflakeProvider.on_db. by rewrite Hd.
Qed.

Lemma bigquery_delete_rows_propagates (s : BigQueryProvider.State)
    (table_name full : string) (where_clause : option string) (e : Exn) c' :
  BigQueryProvider._full_table_ref table_name s = (Ok full, s) →
  BigQuery.query_delete full (has_where where_clause) (BigQueryProvider.cloud s)
    = (Raise e, c') →
  BigQueryProvider.delete_rows table_name where_clause s
  = (Raise e, BigQueryProvider.set_cloud c' s).
Proof.
  intros Hf Hd. unfold BigQueryProvider.delete_rows.
  erewrite bind_ok; [|exact Hf].
  erewrite bind_raise; [reflexivity|].
  unfold BigQueryProvider.on_cloud. by rewrite Hd.
Qed.

(** What is left of the handler of the Snowflake provider: the statement
    has run, and a row count that the connector does not report is
    returned as 0. *)
Lemma snowflake_delete_rows_returns (s : SnowflakeProvider.State)
    (table_name : string) (where_clause : option string) (rowcount : option Z) d' :
  SnowflakeProvider.conn s = Some true →
  Sql.delete_from (SnowflakeProvider.session_schema s) table_name
    (has_where where_clause) (SnowflakeProvider.db s) = (Ok rowcount, d') →
  SnowflakeProvider.delete_rows table_name where_clause s
  = (Ok (default 0 rowcount), SnowflakeProvider.set_db d' s).
Proof.
  intros Hc Hd. unfold SnowflakeProvider.delete_rows. rewrite bind_get, Hc.
  erewrite bind_ok; [|reflexivity].
  erewrite bind_ok; [|unfold SnowflakeProvider.on_db; by rewrite Hd].
  by destruct rowcount.
Qed.
(** C8 (amended). Through the SQLite, Redshift, BigQuery and Snowflake
    providers a fault met by [delete_rows] reaches the caller: a predicate
    that is not blank and that the engine rejects makes the call raise in
    every state, never return, and whatever the DELETE statement raises
    is raised as it is: an exception of the driver, no [QueryError].  The
    one exception that these providers catch is that of [int] on the row
    count that the Snowflake connector did not report, after the
    statement has run: the value is then 0.  The S3 provider passes on
    the faults of the store, but when pandas cannot evaluate the
    predicate it keeps the frame it read, writes it back and returns
    0. *)
Theorem delete_rows_propagates_faults :
  (∀ (b : Backend) (s : State_of b) (table_name w : string),
     b ≠ S3 → is_blank w = false → predicate_rejected b s w →
     ∃ e s', delete_rows (provider_of b) table_name (Some w) s = (Raise e, s')
             ∧ class_name e ≠ "QueryError")
  ∧ (∀ (s : SQLiteProvider.State) (url table_name : string) where_clause e d',
       SQLiteProvider.engine s = Some url →
       Sql.delete_from "main" table_name (has_where where_clause) (SQLiteProvider.db s)
         = (Raise e, d') →
       delete_rows (provider_of SQLite) table_name where_clause s
       = (Raise e, SQLiteProvider.set_db d' s))
  ∧ (∀ (s : RedshiftProvider.State) (url table_name : string) where_clause e d',
       RedshiftProvider.engine s = Some url →
       Sql.delete_from (RedshiftProvider.schema_text s) table_name
         (has_where where_clause) (RedshiftProvider.db s) = (Raise e, d') →
       delete_rows (provider_of Redshift) table_name where_clause s
       = (Raise e, RedshiftProvider.set_db d' s))
  ∧ (∀ (s : SnowflakeProvider.State) (table_name : string) where_clause e d',
       SnowflakeProvider.conn s = Some true →
       Sql.delete_from (SnowflakeProvider.session_schema s) table_name
         (has_where where_clause) (SnowflakeProvider.db s) = (Raise e, d') →
       delete_rows (provider_of Snowflake) table_name where_clause s
       = (Raise e, SnowflakeProvider.set_db d' s))
  ∧ (∀ (s : SnowflakeProvider.State) (table_name : string) where_clause rowcount d',
       SnowflakeProvider.conn s = Some true →
       Sql.delete_from (SnowflakeProvider.session_schema s) table_name
         (has_where where_clause) (SnowflakeProvider.db s) = (Ok rowcount, d') →
       delete_rows (provider_of Snowflake) table_name where_clause s
       = (Ok (default 0 rowcount), SnowflakeProvider.set_db d' s))
  ∧ (∀ (s : BigQueryProvider.State) (table_name full : string) where_clause e c',
       BigQueryProvider._full_table_ref table_name s = (Ok full, s) →
       BigQuery.query_delete full (has_where where_clause) (BigQueryProvider.cloud s)
         = (Raise e, c') →
       delete_rows (provider_of BigQuery) table_name where_clause s
       = (Raise e, BigQueryProvider.set_cloud c' s))
  ∧ (∀ (s : S3Provider.State) (bucket table_name : string) where_clause e,
       S3Provider.client s = Some tt →
       S3.fault (S3Provider.store s) = Some e →
       cred_get (S3Provider.credentials s) "bucket" = VStr bucket →
       bucket ≠ "" → table_name ≠ "" →
       delete_rows (provider_of S3) table_name where_clause s = (Raise e, s))
  ∧ (∀ (s : S3Provider.State) (bucket table_name w : string) body df e,
       S3Provider.client s = Some tt →
       S3.fault (S3Provider.store s) = None →
       cred_get (S3Provider.credentials s) "bucket" = VStr bucket →
       bucket ≠ "" → table_name ≠ "" →
       bucket ∈ S3.buckets (S3Provider.store s) →
       S3.objects (S3Provider.store s) !! (bucket, table_name) = Some body →
       S3.reader (S3Provider.store s) (endswith (lower table_name) ".parquet") body
         = Ok df →
       empty df = false →
       is_blank w = false →
       S3Provider.pd_query s w df = Raise e →
       ∃ s',
         delete_rows (provider_of S3) table_name (Some w) s = (Ok 0, s')
         ∧ S3.objects (S3Provider.store s') !! (bucket, table_name)
           = Some (S3.Serialized (endswith (lower table_name) ".parquet") df)).
Proof.
  split_and!.
  - intros b s table_name w Hb Hw Hrej.
    destruct (delete_rows_rejected_raises b s table_name w Hb Hw Hrej)
      as (e & s' & Hrun).
    exists e, s'. split; [exact Hrun|apply no_query_error].
  - apply sqlite_delete_rows_propagates.
  - apply redshift_delete_rows_propagates.
  - apply snowflake_delete_rows_propagates.
  - apply snowflake_delete_rows_returns.
  - apply bigquery_delete_rows_propagates.
  - apply s3_delete_rows_store_fault.
  - intros s bucket table_name w body df e Hc Hf Hb Hbne Hkne Hin Hobj Hr Hne Hw Hq.
    eexists. split; [by eapply s3_delete_rows_query_fails|].
    simpl. apply lookup_insert_eq.
Qed.

(** C8 as the specification states it, for every provider and with the
    fault classified as a [QueryError], fails in two ways.  On the S3
    provider a predicate that pandas rejects does not make [delete_rows]
    raise: the call returns 0 and the object is left with its 3 rows.
    And where the fault does reach the caller, through the SQLite
    provider, it is the [DatabaseError] of the driver as it was raised:
    the code base defines no [QueryError] and wraps no exception. *)
Lemma delete_rows_rejected_predicate_cases :
  (let s := Scenario.s3 {[("lake", "t.csv") := S3.Serialized false (Scenario.numbered 3)]} in
   is_blank "id ==" = false
   ∧ predicate_rejected S3 s "id =="
   ∧ delete_rows (provider_of S3) "t.csv" (Some "id ==") s = (Ok 0, s)
   ∧ ¬ ∃ e s', delete_rows (provider_of S3) "t.csv" (Some "id ==") s = (Raise e, s'))
  ∧ (let s := Scenario.sqlite {[("main", "t") := Scenario.numbered 3]} in
     predicate_rejected SQLite s "id =="
     ∧ delete_rows (provider_of SQLite) "t" (Some "id ==") s = (Raise DatabaseError, s)
     ∧ class_name DatabaseError ≠ "QueryError").
Proof.
  split.
  - intros s. split; [reflexivity|]. split.
    { intros df. exists ParserError. reflexivity. }
    assert (delete_rows (provider_of S3) "t.csv" (Some "id ==") s = (Ok 0, s)) as Hrun
      by (vm_compute; reflexivity).
    split; [exact Hrun|]. intros (e & s' & H). rewrite Hrun in H. discriminate H.
  - intros s. split; [intros cols; reflexivity|]. split; [reflexivity|discriminate].
Qed.

Lemma delete_rows_propagates_faults_witness :
  let sq := Scenario.sqlite {[("main", "t") := Scenario.numbered 3]} in
  let s3 := Scenario.s3 {[("lake", "t.csv") := S3.Serialized false (Scenario.numbered 3)]} in
  (* a Snowflake account whose connector reports no row count *)
  let sf : State_of Snowflake :=
    (SnowflakeProvider.connect
       (SnowflakeProvider.init {["account" := VStr "acme"; "schema" := VStr "PUBLIC"]}
          (Sql.mkDatabase true {[("PUBLIC", "t") := Scenario.numbered 3]}
             Scenario.where_true (λ _ _, true) true false (λ _, true)))).2 in
  (SQLite ≠ S3 ∧ is_blank "id ==" = false ∧ predicate_rejected SQLite sq "id =="
   ∧ ∃ e s', delete_rows (provider_of SQLite) "t" (Some "id ==") sq = (Raise e, s')
             ∧ class_name e ≠ "QueryError")
  ∧ delete_rows (provider_of SQLite) "t" (Some "id ==") sq = (Raise DatabaseError, sq)
  ∧ (delete_rows (provider_of Snowflake) "t" None sf).1 = Ok 0
  ∧ (∃ s', delete_rows (provider_of S3) "t.csv" (Some "id ==") s3 = (Ok 0, s')
           ∧ S3.objects (S3Provider.store s') !! ("lake", "t.csv")
             = Some (S3.Serialized false (Scenario.numbered 3))).
Proof.
  intros sq s3 sf.
  destruct delete_rows_propagates_faults as (Hrej & Hsq & _ & _ & Hsf & _ & _ & Hs3).
  assert (predicate_rejected SQLite sq "id ==") as Hbad by (intros cols; reflexivity).
  split_and!; [discriminate | reflexivity | exact Hbad | | | |].
  - apply (Hrej SQLite sq "t" "id =="); [discriminate | reflexivity | exact Hbad].
  - apply (Hsq sq "sqlite:///data/app.db" "t" (Some "id ==") DatabaseError
             (SQLiteProvider.db sq)); reflexivity.
  - erewrite (Hsf sf "t" None None); [reflexivity | reflexivity |].
    vm_compute. reflexivity.
  - apply (Hs3 s3 "lake" "t.csv" "id ==" (S3.Serialized false (Scenario.numbered 3))
             (Scenario.numbered 3) ParserError);
      [reflexivity | reflexivity | reflexivity | discriminate | discriminate
      | apply list_elem_of_In; left; reflexivity | reflexivity | reflexivity
      | reflexivity | reflexivity | reflexivity].
Defined.

(** A predicate that is blank is no predicate: through the SQLite
    provider a no-break space deletes every row, and the count is
    returned. *)
Example delete_rows_blank_predicate :
  let s := Scenario.sqlite {[("main", "t") := Scenario.numbered 3]} in
  let r := delete_rows (provider_of SQLite) "t" (Some nbsp) s in
  r.1 = Ok 3
  ∧ Sql.tables (SQLiteProvider.db r.2) !! ("main", "t")
    = Some (mkDF ["id"; "name"] [DInt64; DObject] []).
Proof. split; reflexivity. Qed.

(** * Further properties of the providers *)

(** Unfolds the computations down to the states they act on. *)
Ltac run_all :=
  unfold SQLiteProvider.on_db, RedshiftProvider.on_db, SnowflakeProvider.on_db,
    BigQueryProvider.on_cloud, S3Provider.call_client, S3Provider.on_store,
    SQLiteProvider.probe, BigQueryProvider.probe,
    Sql.select_all, Sql.drop_if_exists, Sql.delete_from, Sql.to_sql, Sql.create_and_load,
    Sql.append_rows, Sql.create_if_not_exists, Sql.write_pandas, Sql.table_names,
    Sql.select_1, Sql.create_engine, Sql.guard_up, BigQuery.query_select_1,
    BigQuery.list_datasets, BigQuery.guard_up, BigQuery.query_select_all,
    BigQuery.get_table, BigQuery.delete_table, BigQuery.load_table_from_dataframe,
    BigQuery.query_delete, S3.new_client, S3.list_buckets, S3.get_object,
    S3.put_object, S3.delete_object,
    S3.guard_bucket, S3.guard, S3.str_param, use_connection, use_handle, try_except,
    try_except_cls, bind, get, gets, modify, lift_res, ret, raise,
    SQLiteProvider.set_db, RedshiftProvider.set_db, SnowflakeProvider.set_db,
    BigQueryProvider.set_cloud, S3Provider.set_store, Sql.set_tables,
    BigQuery.set_tables, S3.set_objects in *.

(** ** close, connect, test_connection *)


Lemma sqlite_connect_ok_inv (s s1 : SQLiteProvider.State) :
  SQLiteProvider.connect s = (Ok tt, s1) →
  ∃ p, SQLiteProvider.db_path s = VStr p ∧ p ≠ ""
       ∧ SQLiteProvider.fs_ok s = true
       ∧ Sql.up (SQLiteProvider.db s) = true
       ∧ s1 = SQLiteProvider.mkState (SQLiteProvider.credentials s) true
                (SQLiteProvider.db_path s) (Some true) (Some ("sqlite:///" +:+ p))
                (SQLiteProvider.fs_ok s) (SQLiteProvider.db s).
Proof.
  destruct s as [creds con path cn eng fs d]. destruct d as [up tbl ws acc sel rc pu].
  unfold SQLiteProvider.connect, bind, get, SQLiteProvider.on_db, Sql.guard_up,
    lift_res, modify. simpl.
  destruct path as [|p|z]; simpl; [done| |].
  - case_bool_decide; simpl; [done|].
    destruct fs; simpl; [|done]. destruct up; simpl; [|done].
    intros [= <-]. by exists p.
  - case_bool_decide; simpl; done.
Qed.

Lemma sqlite_connect_run (s : SQLiteProvider.State) (p : string) :
  SQLiteProvider.db_path s = VStr p → p ≠ "" →
  SQLiteProvider.fs_ok s = true →
  Sql.up (SQLiteProvider.db s) = true →
  SQLiteProvider.connect s
  = (Ok tt, SQLiteProvider.mkState (SQLiteProvider.credentials s) true
              (SQLiteProvider.db_path s) (Some true) (Some ("sqlite:///" +:+ p))
              (SQLiteProvider.fs_ok s) (SQLiteProvider.db s)).
Proof.
  intros Hp Hne Hfs Hup.
  destruct s as [creds con path cn eng fs d]. simpl in *. subst path fs.
  unfold SQLiteProvider.connect.
  rewrite bind_get. cbn [SQLiteProvider.db_path SQLiteProvider.fs_ok].
  rewrite (truthy_str p Hne). cbn [negb].
  erewrite bind_ok; [|reflexivity].
  erewrite bind_ok; [|reflexivity].
  erewrite bind_ok;
    [|unfold SQLiteProvider.on_db; cbn [SQLiteProvider.db];
      rewrite (sql_guard_up_run _ Hup); reflexivity].
  reflexivity.
Qed.

Lemma sqlite_connect_idempotent (s s1 : SQLiteProvider.State) :
  SQLiteProvider.connect s = (Ok tt, s1) → SQLiteProvider.connect s1 = (Ok tt, s1).
Proof.
  intros H. apply sqlite_connect_ok_inv in H as (p & Hp & Hne & Hfs & Hup & ->).
  by rewrite (sqlite_connect_run _ p).
Qed.

Lemma redshift_connect_idempotent (s s1 : RedshiftProvider.State) :
  RedshiftProvider.connect s = (Ok tt, s1) → RedshiftProvider.connect s1 = (Ok tt, s1).
Proof.
  destruct s as [creds con eng d]. destruct d as [up tbl ws acc sel rc pu].
  unfold RedshiftProvider.connect. run_all. simpl.
  destruct (pu _) eqn:Hpu; simpl; [|done].
  destruct up; simpl; [|done]. destruct sel; simpl; [|done].
  intros [= <-]. simpl. by rewrite Hpu.
Qed.

Lemma bigquery_connect_idempotent (s s1 : BigQueryProvider.State) :
  BigQueryProvider.connect s = (Ok tt, s1) → BigQueryProvider.connect s1 = (Ok tt, s1).
Proof.
  destruct s as [creds con cl c]. destruct c as [up kp ap ds tbl ws acc rep sel].
  unfold BigQueryProvider.connect, bind, get, modify, BigQueryProvider.on_cloud,
    BigQueryProvider.from_service_account_json, BigQueryProvider.new_client,
    BigQuery.list_datasets, BigQuery.guard_up, gets, ret, raise. simpl.
  destruct (truthy (cred_get creds "keyfile_path")) eqn:Ek; simpl.
  - destruct (truthy (cred_get creds "project_id")) eqn:Ep; simpl;
      (destruct kp; simpl; [|done]); (destruct up; simpl; [|done]);
      intros [= <-]; simpl; rewrite Ek, Ep; done.
  - destruct ap; simpl; [|done]. destruct up; simpl; [|done].
    intros [= <-]; simpl; rewrite Ek; done.
Qed.

Lemma snowflake_connect_idempotent (s s1 : SnowflakeProvider.State) :
  SnowflakeProvider.connect s = (Ok tt, s1) →
  SnowflakeProvider.connect s1 = (Ok tt, s1).
Proof.
  destruct s as [creds con cn d]. destruct d as [up tbl ws acc sel rc pu].
  unfold SnowflakeProvider.connect. run_all. simpl.
  destruct up; simpl; [|done]. destruct sel; simpl; [|done]. by intros [= <-].
Qed.

Lemma s3_connect_idempotent (s s1 : S3Provider.State) :
  S3Provider.connect s = (Ok tt, s1) → S3Provider.connect s1 = (Ok tt, s1).
Proof.
  destruct s as [creds con cl st q]. destruct st as [fault bk objs rd bc].
  unfold S3Provider.connect. run_all. simpl.
  destruct (_ || _) eqn:Hpartial; simpl; [done|].
  destruct (bc _) eqn:Hbc; simpl; [|done].
  destruct fault; simpl; [done|]. intros [= <-]. simpl.
  rewrite Hpartial. simpl. by rewrite Hbc.
Qed.

(** X2. For every provider class, [connect] can be repeated: once it has
    returned, calling it again in the state it left returns again and
    leaves that state as it is. *)
Theorem connect_idempotent (b : Backend) (s s1 : State_of b) :
  connect (provider_of b) s = (Ok tt, s1) →
  connect (provider_of b) s1 = (Ok tt, s1).
Proof.
  destruct b.
  - apply sqlite_connect_idempotent.
  - apply redshift_connect_idempotent.
  - apply bigquery_connect_idempotent.
  - apply snowflake_connect_idempotent.
  - apply s3_connect_idempotent.
Qed.

Lemma connect_idempotent_witness :
  let s := SQLiteProvider.init {["db_path" := VStr "data/app.db"]} true
             (Scenario.database ∅) in
  connect (provider_of SQLite) s = (Ok tt, Scenario.sqlite ∅)
  ∧ connect (provider_of SQLite) (Scenario.sqlite ∅) = (Ok tt, Scenario.sqlite ∅).
Proof.
  intros s.
  assert (connect (provider_of SQLite) s = (Ok tt, Scenario.sqlite ∅)) as H
    by reflexivity.
  split; [exact H|].
  exact (connect_idempotent SQLite s (Scenario.sqlite ∅) H).
Defined.

Lemma sqlite_test_connection_flag (s s' : SQLiteProvider.State) (ok : bool) :
  SQLiteProvider.test_connection s = (Ok ok, s') →
  (ok = true → SQLiteProvider._connected s' = true
               ∧ SQLiteProvider.test_connection s' = (Ok true, s'))
  ∧ (SQLiteProvider._connected s = true → SQLiteProvider._connected s' = true).
Proof.
  destruct s as [creds con path cn eng fs d]. destruct d as [up tbl ws acc sel rc pu].
  unfold SQLiteProvider.test_connection, SQLiteProvider.connect. run_all. simpl.
  destruct path as [|p|z]; simpl.
  - intros [= <- <-]. done.
  - case_bool_decide as Hp; simpl; [intros [= <- <-]; done|].
    destruct fs; simpl; [|intros [= <- <-]; done].
    destruct up; simpl; [|intros [= <- <-]; done].
    destruct sel; simpl; [|intros [= <- <-]; done].
    intros [= <- <-]. simpl. rewrite bool_decide_eq_false_2 by done. done.
  - case_bool_decide; simpl; intros [= <- <-]; done.
Qed.

Lemma redshift_test_connection_flag (s s' : RedshiftProvider.State) (ok : bool) :
  RedshiftProvider.test_connection s = (Ok ok, s') →
  (ok = true → RedshiftProvider._connected s' = true
               ∧ RedshiftProvider.test_connection s' = (Ok true, s'))
  ∧ (RedshiftProvider._connected s = true → RedshiftProvider._connected s' = true).
Proof.
  destruct s as [creds con eng d]. destruct d as [up tbl ws acc sel rc pu].
  unfold RedshiftProvider.test_connection, RedshiftProvider.connect. run_all. simpl.
  destruct (pu _) eqn:Hpu; simpl; [|intros [= <- <-]; done].
  destruct up; simpl; [|intros [= <- <-]; done].
  destruct sel; simpl; [|intros [= <- <-]; done].
  intros [= <- <-]. simpl. by rewrite Hpu.
Qed.

Lemma snowflake_test_connection_flag (s s' : SnowflakeProvider.State) (ok : bool) :
  SnowflakeProvider.test_connection s = (Ok ok, s') →
  (ok = true → SnowflakeProvider._connected s' = true
               ∧ SnowflakeProvider.test_connection s' = (Ok true, s'))
  ∧ (SnowflakeProvider._connected s = true → SnowflakeProvider._connected s' = true).
Proof.
  destruct s as [creds con cn d]. destruct d as [up tbl ws acc sel rc pu].
  unfold SnowflakeProvider.test_connection, SnowflakeProvider.connect. run_all. simpl.
  destruct up; simpl; [|intros [= <- <-]; done].
  destruct sel; simpl; intros [= <- <-]; done.
Qed.

Lemma s3_test_connection_flag (s s' : S3Provider.State) (ok : bool) :
  S3Provider.test_connection s = (Ok ok, s') →
  (ok = true → S3Provider._connected s' = true
               ∧ S3Provider.test_connection s' = (Ok true, s'))
  ∧ (S3Provider._connected s = true → S3Provider._connected s' = true).
Proof.
  destruct s as [creds con cl st q]. destruct st as [fault bk objs rd bc].
  unfold S3Provider.test_connection, S3Provider.connect. run_all. simpl.
  destruct (_ || _) eqn:Hpartial; simpl; [intros [= <- <-]; done|].
  destruct (bc _) eqn:Hbc; simpl; [|intros [= <- <-]; done].
  destruct fault; simpl; intros [= <- <-]; [done|]. simpl.
  rewrite Hpartial. simpl. by rewrite Hbc.
Qed.

Lemma bigquery_test_connection_flag (s s' : BigQueryProvider.State) (ok : bool) :
  BigQueryProvider.test_connection s = (Ok ok, s') →
  (ok = true → BigQueryProvider._connected s' = true
               ∧ BigQueryProvider.test_connection s' = (Ok true, s'))
  ∧ (BigQueryProvider._connected s = true → BigQueryProvider._connected s' = true).
Proof.
  destruct s as [creds con cl c]. destruct c as [up kp ap ds tbl ws acc rep sel].
  unfold BigQueryProvider.test_connection, BigQueryProvider.connect,
    BigQueryProvider.from_service_account_json, BigQueryProvider.new_client.
  run_all. simpl.
  destruct (truthy (cred_get creds "keyfile_path")) eqn:Ek; simpl.
  - destruct (truthy (cred_get creds "project_id")) eqn:Ep; simpl;
      (destruct kp; simpl; [|intros [= <- <-]; done]);
      (destruct up; simpl; [|intros [= <- <-]; done]);
      (destruct sel; simpl; [|intros [= <- <-]; done]);
      intros [= <- <-]; simpl; rewrite Ek, Ep; done.
  - destruct ap; simpl; [|intros [= <- <-]; done].
    destruct up; simpl; [|intros [= <- <-]; done].
    destruct sel; simpl; [|intros [= <- <-]; done].
    intros [= <- <-]; simpl; rewrite Ek; done.
Qed.

(** X3. For every provider class, a [test_connection] that returns [True]
    leaves [_connected] true, and asking again in the state it left gives
    [True] again and changes nothing; and [test_connection] never clears
    the flag: a provider that was marked connected stays marked, also
    when the test returns [False]. *)
Theorem test_connection_flag (b : Backend) (s s' : State_of b) (ok : bool) :
  test_connection (provider_of b) s = (Ok ok, s') →
  (ok = true → connected_of b s' = true
               ∧ test_connection (provider_of b) s' = (Ok true, s'))
  ∧ (connected_of b s = true → connected_of b s' = true).
Proof.
  destruct b.
  - apply sqlite_test_connection_flag.
  - apply redshift_test_connection_flag.
  - apply bigquery_test_connection_flag.
  - apply snowflake_test_connection_flag.
  - apply s3_test_connection_flag.
Qed.

(** A cluster that went away after a successful [connect]: the test says
    [False], the flag still says connected. *)
Lemma test_connection_flag_witness :
  let s := RedshiftProvider.mkState ∅ true None
             (Sql.mkDatabase false ∅ Scenario.where_true (λ _ _, true)
                true true (λ _, true)) in
  let s' := (test_connection (provider_of Redshift) s).2 in
  test_connection (provider_of Redshift) s = (Ok false, s')
  ∧ connected_of Redshift s = true
  ∧ connected_of Redshift s' = true.
Proof.
  intros s s'.
  assert (test_connection (provider_of Redshift) s = (Ok false, s')) as H
    by reflexivity.
  split; [exact H|]. split; [reflexivity|].
  exact (proj2 (test_connection_flag Redshift s s' false H) eq_refl).
Defined.

(** ** has_permissions *)

Lemma foldl_insert_lookup {V} (f : string → V) (l : list string)
    (acc : gmap string V) (x : string) :
  foldl (λ d a, <[a := f a]> d) acc l !! x
  = if decide (x ∈ l) then Some (f x) else acc !! x.
Proof.
  revert acc. induction l as [|a l IH]; intros acc.
  - destruct (decide (x ∈ [])); [set_solver|done].
  - cbn [foldl]. rewrite IH.
    destruct (decide (x ∈ l)), (decide (x ∈ a :: l)); [done|set_solver| |].
    + assert (x = a) as -> by set_solver. by rewrite lookup_insert_eq.
    + rewrite lookup_insert_ne; [done|set_solver].
Qed.

Lemma report_actions_lookup (results : gmap string bool) (actions : list string)
    (a : string) :
  report_actions results actions !! a
  = if decide (a ∈ actions) then Some (default true (results !! a)) else None.
Proof. unfold report_actions. by rewrite foldl_insert_lookup, lookup_empty. Qed.

(** A probe under [try: ... except Exception:] that records a boolean. *)
Lemma probe_total {S} (body : M S (gmap string bool))
    (v : bool → gmap string bool) (s : S) :
  (∀ r s', body s = (Ok r, s') → ∃ b, r = v b) →
  ∃ b s', try_except body (ret (v false)) s = (Ok (v b), s').
Proof.
  intros H. unfold try_except. destruct (body s) as [[r|e] s1] eqn:Hb.
  - destruct (H r s1 eq_refl) as [b ->]. by exists b, s1.
  - by exists false, s1.
Qed.


Lemma two_probes_lookup (br bw : bool) (actions : list string) (a : string) :
  two_probes br bw actions !! a
  = if decide (a ∈ actions)
    then Some (if decide (a = "write") then bw
               else if decide (a = "read") then br else true)
    else None.
Proof.
  unfold two_probes. rewrite report_actions_lookup.
  destruct (decide (a ∈ actions)); [|done]. f_equal.
  destruct (decide (a = "write")) as [->|]; [by rewrite lookup_insert_eq|].
  rewrite lookup_insert_ne by done.
  destruct (decide (a = "read")) as [->|]; [by rewrite lookup_insert_eq|].
  by rewrite lookup_insert_ne.
Qed.

Lemma redshift_has_permissions_total (s : RedshiftProvider.State) (actions : list string) :
  ∃ br bw s', RedshiftProvider.has_permissions actions s
              = (Ok (two_probes br bw actions), s').
Proof.
  unfold RedshiftProvider.has_permissions. cbv zeta.
  destruct (probe_total
    (let* s0 := get in
     let* _e := use_handle (RedshiftProvider.engine s0) in
     do RedshiftProvider.on_db Sql.select_1 then
     ret (<["read" := true]> (∅ : gmap string bool)))
    (λ b, <["read" := b]> ∅) s) as (br & s1 & H1).
  { intros r s' H. peel H. apply ret_ok_inv in H as [<- _]. by exists true. }
  erewrite bind_ok; [|exact H1].
  destruct (probe_total
    (let* s0 := get in
     let* _e := use_handle (RedshiftProvider.engine s0) in
     do RedshiftProvider.on_db Sql.select_1 then
     ret (<["write" := true]> (<["read" := br]> (∅ : gmap string bool))))
    (λ b, <["write" := b]> (<["read" := br]> ∅)) s1) as (bw & s2 & H2).
  { intros r s' H. peel H. apply ret_ok_inv in H as [<- _]. by exists true. }
  erewrite bind_ok; [|exact H2].
  by exists br, bw, s2.
Qed.

Lemma snowflake_has_permissions_total (s : SnowflakeProvider.State)
    (actions : list string) :
  ∃ br bw s', SnowflakeProvider.has_permissions actions s
              = (Ok (two_probes br bw actions), s').
Proof.
  unfold SnowflakeProvider.has_permissions. cbv zeta.
  destruct (probe_total
    (let* s0 := get in
     do use_connection (SnowflakeProvider.conn s0) then
     do SnowflakeProvider.on_db Sql.select_1 then
     ret (<["read" := true]> (∅ : gmap string bool)))
    (λ b, <["read" := b]> ∅) s) as (br & s1 & H1).
  { intros r s' H. peel H. apply ret_ok_inv in H as [<- _]. by exists true. }
  erewrite bind_ok; [|exact H1].
  destruct (probe_total
    (let* s0 := get in
     do use_connection (SnowflakeProvider.conn s0) then
     do SnowflakeProvider.on_db (Sql.create_and_drop_temp "PERM_TEST" ["c"]) then
     ret (<["write" := true]> (<["read" := br]> (∅ : gmap string bool))))
    (λ b, <["write" := b]> (<["read" := br]> ∅)) s1) as (bw & s2 & H2).
  { intros r s' H. peel H. apply ret_ok_inv in H as [<- _]. by exists true. }
  erewrite bind_ok; [|exact H2].
  by exists br, bw, s2.
Qed.

Lemma bigquery_has_permissions_total (s : BigQueryProvider.State)
    (actions : list string) :
  ∃ br bw s', BigQueryProvider.has_permissions actions s
              = (Ok (two_probes br bw actions), s').
Proof.
  unfold BigQueryProvider.has_permissions. cbv zeta.
  destruct (probe_total
    (let* s0 := get in
     let* _c := use_handle (BigQueryProvider.client s0) in
     do BigQueryProvider.on_cloud BigQuery.query_select_1 then
     ret (<["read" := true]> (∅ : gmap string bool)))
    (λ b, <["read" := b]> ∅) s) as (br & s1 & H1).
  { intros r s' H. peel H. apply ret_ok_inv in H as [<- _]. by exists true. }
  erewrite bind_ok; [|exact H1].
  rewrite bind_get.
  set (dataset := cred_get (BigQueryProvider.credentials s1) "dataset").
  destruct (probe_total
    (if truthy dataset then
       let* s0 := get in
       let* c := use_handle (BigQueryProvider.client s0) in
       let table_id := BigQueryProvider.project c +:+ "." +:+ py_str dataset
                       +:+ ".__perm_test" in
       do BigQueryProvider.on_cloud (BigQuery.create_table_exists_ok table_id ["c"]) then
       do BigQueryProvider.on_cloud (BigQuery.delete_table table_id true) then
       ret (<["write" := true]> (<["read" := br]> (∅ : gmap string bool)))
     else ret (<["write" := true]> (<["read" := br]> ∅)))
    (λ b, <["write" := b]> (<["read" := br]> ∅)) s1) as (bw & s2 & H2).
  { intros r s' H. peel H; apply ret_ok_inv in H as [<- _]; by exists true. }
  erewrite bind_ok; [|exact H2].
  by exists br, bw, s2.
Qed.

Lemma s3_has_permissions_total (s : S3Provider.State) (actions : list string) :
  ∃ br bw s', S3Provider.has_permissions actions s
              = (Ok (two_probes br bw actions), s').
Proof.
  unfold S3Provider.has_permissions. cbv zeta. rewrite bind_get.
  set (bucket := cred_get (S3Provider.credentials s) "bucket").
  destruct (probe_total
    (do (if truthy bucket
         then (let* _l := S3Provider.call_client (S3.list_objects_v2 bucket) in ret tt)
         else (let* _l := S3Provider.call_client S3.list_buckets in ret tt)) then
     ret (<["read" := true]> (∅ : gmap string bool)))
    (λ b, <["read" := b]> ∅) s) as (br & s1 & H1).
  { intros r s' H. peel H. apply ret_ok_inv in H as [<- _]. by exists true. }
  erewrite bind_ok; [|exact H1].
  destruct (probe_total
    (if truthy bucket then
       let key := VStr "__perm_test__.txt" in
       do S3Provider.call_client (S3.put_object bucket key (S3.Raw "test")) then
       do S3Provider.call_client (S3.delete_object bucket key) then
       ret (<["write" := true]> (<["read" := br]> (∅ : gmap string bool)))
     else ret (<["write" := false]> (<["read" := br]> ∅)))
    (λ b, <["write" := b]> (<["read" := br]> ∅)) s1) as (bw & s2 & H2).
  { intros r s' H. destruct (truthy bucket).
    - peel H. apply ret_ok_inv in H as [<- _]. by exists true.
    - apply ret_ok_inv in H as [<- _]. by exists false. }
  erewrite bind_ok; [|exact H2].
  by exists br, bw, s2.
Qed.

Lemma sqlite_has_permissions_total (s : SQLiteProvider.State) (actions : list string) :
  ∀ perms : gmap string bool,
  ∃ perms' s',
    for_each actions perms (λ perms act,
      if bool_decide (act ∈ ["read"; "write"]) then
        try_except
          (let* s := get in
           let* _p := lift_res (SQLiteProvider.path_of (SQLiteProvider.db_path s)) in
           do (if SQLiteProvider.fs_ok s then ret tt else raise OSError) then
           ret (<[act := true]> perms))
          (ret (<[act := false]> perms))
      else ret (<[act := true]> perms)) s
    = (Ok perms', s')
    ∧ (∀ a, a ∉ actions → perms' !! a = perms !! a)
    ∧ (∀ a, a ∈ actions → is_Some (perms' !! a))
    ∧ (∀ a, a ∈ actions → a ≠ "read" → a ≠ "write" → perms' !! a = Some true).
Proof.
  revert s. induction actions as [|act l IH]; intros s perms.
  - exists perms, s. split; [done|]. set_solver.
  - cbn [for_each]. set (body := λ perms act, _).
    assert (∃ b s1, body perms act s = (Ok (<[act := b]> perms), s1)
                    ∧ (act ≠ "read" → act ≠ "write" → b = true))
      as (b & s1 & Hb & Htrue).
    { subst body. cbv beta. case_bool_decide as Hact.
      - destruct (probe_total
          (let* s0 := get in
           let* _p := lift_res (SQLiteProvider.path_of (SQLiteProvider.db_path s0)) in
           do (if SQLiteProvider.fs_ok s0 then ret tt else raise OSError) then
           ret (<[act := true]> perms))
          (λ b, <[act := b]> perms) s) as (b & s1 & H1).
        { intros r s' H. peel H; apply ret_ok_inv in H as [<- _]; by exists true. }
        exists b, s1. split; [exact H1|]. set_solver.
      - exists true, s. done. }
    erewrite bind_ok; [|exact Hb].
    destruct (IH s1 (<[act := b]> perms)) as (perms' & s' & Hrun & Hout & Hin & Hunk).
    exists perms', s'. split; [exact Hrun|]. split_and!.
    + intros a Ha. rewrite Hout by set_solver. rewrite lookup_insert_ne; set_solver.
    + intros a Ha. destruct (decide (a ∈ l)); [by apply Hin|].
      assert (a = act) as -> by set_solver.
      rewrite Hout by done. rewrite lookup_insert_eq. by eexists.
    + intros a Ha Hr Hw. destruct (decide (a ∈ l)); [by apply Hunk|].
      assert (a = act) as -> by set_solver.
      rewrite Hout by done. rewrite lookup_insert_eq. by rewrite Htrue.
Qed.

(** X4. For every provider class, in every state and for every list of
    actions, [has_permissions] returns a dictionary and never raises; its
    keys are exactly the actions asked, and every action other than
    [read] and [write] is answered [True]. *)
Theorem has_permissions_never_raises (b : Backend) (s : State_of b)
    (actions : list string) :
  ∃ perms s',
    has_permissions (provider_of b) actions s = (Ok perms, s')
    ∧ (∀ a, is_Some (perms !! a) ↔ a ∈ actions)
    ∧ (∀ a, a ∈ actions → a ≠ "read" → a ≠ "write" → perms !! a = Some true).
Proof.
  assert (∀ br bw,
    (∀ a, is_Some (two_probes br bw actions !! a) ↔ a ∈ actions)
    ∧ (∀ a, a ∈ actions → a ≠ "read" → a ≠ "write" →
            two_probes br bw actions !! a = Some true)) as Htwo.
  { intros br bw. split.
    - intros a. rewrite two_probes_lookup. destruct (decide (a ∈ actions)).
      + split; [done|]. by eexists.
      + split; [by intros [? ?]|done].
    - intros a Ha Hr Hw. rewrite two_probes_lookup.
      by rewrite decide_True, decide_False, decide_False. }
  destruct b.
  - destruct (sqlite_has_permissions_total s actions ∅)
      as (perms & s' & Hrun & Hout & Hin & Hunk).
    exists perms, s'. split; [exact Hrun|]. split; [|exact Hunk].
    intros a. split; [|apply Hin].
    intros Hsome. destruct (decide (a ∈ actions)); [done|].
    rewrite Hout, lookup_empty in Hsome by done. by destruct Hsome.
  - destruct (redshift_has_permissions_total s actions) as (br & bw & s' & H).
    exists (two_probes br bw actions), s'. split; [exact H|apply Htwo].
  - destruct (bigquery_has_permissions_total s actions) as (br & bw & s' & H).
    exists (two_probes br bw actions), s'. split; [exact H|apply Htwo].
  - destruct (snowflake_has_permissions_total s actions) as (br & bw & s' & H).
    exists (two_probes br bw actions), s'. split; [exact H|apply Htwo].
  - destruct (s3_has_permissions_total s actions) as (br & bw & s' & H).
    exists (two_probes br bw actions), s'. split; [exact H|apply Htwo].
Qed.

(** ** What a permission probe leaves behind *)

Lemma sql_guard_up_keeps {C} (proj : Sql.Database → C) : keeps proj Sql.guard_up.
Proof. intros d. unfold Sql.guard_up. by destruct (Sql.up d). Qed.

Lemma sql_select_1_keeps {C} (proj : Sql.Database → C) : keeps proj Sql.select_1.
Proof.
  unfold Sql.select_1.
  apply keeps_bind; [apply sql_guard_up_keeps|intros _].
  apply keeps_bind; [apply keeps_get|intros d].
  destruct (Sql.select_1_ok d); [apply keeps_ret|apply keeps_raise].
Qed.

Lemma sql_create_and_drop_temp_keeps {C} (proj : Sql.Database → C)
    (name : string) (cols : list string) :
  keeps proj (Sql.create_and_drop_temp name cols).
Proof.
  unfold Sql.create_and_drop_temp.
  apply keeps_bind; [apply sql_guard_up_keeps|intros _].
  apply keeps_bind; [apply keeps_get|intros d].
  destruct (Sql.accepts _ _ _); [apply keeps_ret|apply keeps_raise].
Qed.

Lemma sqlite_on_db_keeps_db {A C} (proj : Sql.Database → C) (m : M Sql.Database A) :
  keeps proj m → keeps (λ s, proj (SQLiteProvider.db s)) (SQLiteProvider.on_db m).
Proof.
  intros H s. unfold SQLiteProvider.on_db. specialize (H (SQLiteProvider.db s)).
  by destruct (m _).
Qed.

Lemma redshift_on_db_keeps_db {A C} (proj : Sql.Database → C) (m : M Sql.Database A) :
  keeps proj m → keeps (λ s, proj (RedshiftProvider.db s)) (RedshiftProvider.on_db m).
Proof.
  intros H s. unfold RedshiftProvider.on_db. specialize (H (RedshiftProvider.db s)).
  by destruct (m _).
Qed.

Lemma snowflake_on_db_keeps_db {A C} (proj : Sql.Database → C) (m : M Sql.Database A) :
  keeps proj m → keeps (λ s, proj (SnowflakeProvider.db s)) (SnowflakeProvider.on_db m).
Proof.
  intros H s. unfold SnowflakeProvider.on_db. specialize (H (SnowflakeProvider.db s)).
  by destruct (m _).
Qed.

(** X5. Through the SQLite, Redshift and Snowflake providers,
    [has_permissions] leaves every table of the database as it was,
    whatever the actions asked and whatever the probes answer. *)
Theorem has_permissions_keeps_tables (actions : list string) :
  keeps (λ s, Sql.tables (SQLiteProvider.db s))
        (has_permissions (provider_of SQLite) actions)
  ∧ keeps (λ s, Sql.tables (RedshiftProvider.db s))
          (has_permissions (provider_of Redshift) actions)
  ∧ keeps (λ s, Sql.tables (SnowflakeProvider.db s))
          (has_permissions (provider_of Snowflake) actions).
Proof.
  split_and!.
  - change (has_permissions (provider_of SQLite) actions)
      with (SQLiteProvider.has_permissions actions).
    unfold SQLiteProvider.has_permissions. keeps_method.
  - change (has_permissions (provider_of Redshift) actions)
      with (RedshiftProvider.has_permissions actions).
    unfold RedshiftProvider.has_permissions.
    repeat first
      [ apply (redshift_on_db_keeps_db Sql.tables); apply sql_select_1_keeps
      | keeps_step | progress unfold use_handle ].
  - change (has_permissions (provider_of Snowflake) actions)
      with (SnowflakeProvider.has_permissions actions).
    unfold SnowflakeProvider.has_permissions.
    repeat first
      [ apply (snowflake_on_db_keeps_db Sql.tables); apply sql_select_1_keeps
      | apply (snowflake_on_db_keeps_db Sql.tables);
        apply sql_create_and_drop_temp_keeps
      | keeps_step | progress unfold use_connection ].
Qed.

Lemma s3_on_store_keeps_store {A C} (proj : S3.Store → C) (m : M S3.Store A) :
  keeps proj m → keeps (λ s, proj (S3Provider.store s)) (S3Provider.on_store m).
Proof.
  intros H s. unfold S3Provider.on_store. specialize (H (S3Provider.store s)).
  by destruct (m _).
Qed.

Lemma s3_call_client_keeps_store {A C} (proj : S3.Store → C) (m : M S3.Store A) :
  keeps proj m → keeps (λ s, proj (S3Provider.store s)) (S3Provider.call_client m).
Proof.
  intros H. unfold S3Provider.call_client.
  apply keeps_bind; [apply keeps_get|intros s].
  apply keeps_bind; [unfold use_handle; destruct (S3Provider.client s);
                     [apply keeps_ret|apply keeps_raise]|intros _].
  by apply s3_on_store_keeps_store.
Qed.

Lemma s3_guard_keeps {C} (proj : S3.Store → C) : keeps proj S3.guard.
Proof. intros st. unfold S3.guard. by destruct (S3.fault st). Qed.

Lemma s3_guard_bucket_keeps {C} (proj : S3.Store → C) (b : string) :
  keeps proj (S3.guard_bucket b).
Proof.
  unfold S3.guard_bucket.
  apply keeps_bind; [apply s3_guard_keeps|intros _].
  apply keeps_bind; [apply keeps_get|intros st].
  case_bool_decide; [apply keeps_ret|apply keeps_raise].
Qed.

Lemma s3_list_buckets_keeps {C} (proj : S3.Store → C) : keeps proj S3.list_buckets.
Proof.
  unfold S3.list_buckets. apply keeps_bind; [apply s3_guard_keeps|intros _].
  apply keeps_gets.
Qed.

Lemma s3_list_objects_v2_keeps {C} (proj : S3.Store → C) (bucket : Value) :
  keeps proj (S3.list_objects_v2 bucket).
Proof.
  unfold S3.list_objects_v2.
  apply keeps_bind; [apply keeps_lift_res|intros b].
  apply keeps_bind; [apply s3_guard_bucket_keeps|intros _].
  apply keeps_bind; [apply keeps_get|intros st]. apply keeps_ret.
Qed.

Lemma s3_put_object_keeps_other (bucket key : Value) (body : S3.Body)
    (k : string * string) :
  VStr k.2 ≠ key →
  keeps (λ st, S3.objects st !! k) (S3.put_object bucket key body).
Proof.
  intros Hk st.
  unfold S3.put_object, bind, lift_res, S3.str_param, S3.guard_bucket, S3.guard,
    get, bind, modify, ret, raise.
  destruct bucket as [|b|]; [done| |done]. destruct key as [|key|]; [done| |done].
  destruct (S3.fault st); [done|]. case_bool_decide; [|done]. simpl.
  apply lookup_insert_ne. intros E. apply Hk. by rewrite <- E.
Qed.

Lemma s3_delete_object_keeps_other (bucket key : Value) (k : string * string) :
  VStr k.2 ≠ key →
  keeps (λ st, S3.objects st !! k) (S3.delete_object bucket key).
Proof.
  intros Hk st.
  unfold S3.delete_object, bind, lift_res, S3.str_param, S3.guard_bucket, S3.guard,
    get, bind, modify, ret, raise.
  destruct bucket as [|b|]; [done| |done]. destruct key as [|key|]; [done| |done].
  destruct (S3.fault st); [done|]. case_bool_decide; [|done]. simpl.
  apply lookup_delete_ne. intros E. apply Hk. by rewrite <- E.
Qed.

Lemma s3_delete_object_ok_inv (bucket key : Value) (st st' : S3.Store) :
  S3.delete_object bucket key st = (Ok tt, st') →
  ∃ b k, bucket = VStr b ∧ key = VStr k ∧ S3.objects st' !! (b, k) = None.
Proof.
  unfold S3.delete_object, bind, lift_res, S3.str_param, S3.guard_bucket, S3.guard,
    get, bind, modify, ret, raise.
  destruct bucket as [|b|]; [done| |done]. destruct key as [|key|]; [done| |done].
  destruct (S3.fault st); [done|]. case_bool_decide; [|done].
  intros [= <-]. exists b, key. split; [done|]. split; [done|].
  simpl. apply lookup_delete_eq.
Qed.

Lemma s3_has_permissions_keeps_other (actions : list string) (k : string * string) :
  k.2 ≠ "__perm_test__.txt" →
  keeps (λ s, S3.objects (S3Provider.store s) !! k)
        (S3Provider.has_permissions actions).
Proof.
  intros Hk. unfold S3Provider.has_permissions.
  repeat first
    [ apply (s3_call_client_keeps_store (λ st, S3.objects st !! k));
      first [ apply s3_list_objects_v2_keeps | apply s3_list_buckets_keeps
            | apply s3_put_object_keeps_other; congruence
            | apply s3_delete_object_keeps_other; congruence ]
    | keeps_step ].
Qed.

Lemma s3_has_permissions_write_true (actions : list string)
    (s s' : S3Provider.State) (perms : gmap string bool) :
  S3Provider.has_permissions actions s = (Ok perms, s') →
  perms !! "write" = Some true →
  ∃ b, cred_get (S3Provider.credentials s) "bucket" = VStr b
       ∧ S3.objects (S3Provider.store s') !! (b, "__perm_test__.txt") = None.
Proof.
  unfold S3Provider.has_permissions. cbv zeta. rewrite bind_get.
  set (bucket := cred_get (S3Provider.credentials s) "bucket").
  intros H Hw.
  apply bind_ok_inv in H as (r1 & s1 & H1 & H).
  apply bind_ok_inv in H as (r2 & s2 & H2 & H).
  apply ret_ok_inv in H as [<- <-].
  rewrite report_actions_lookup in Hw.
  destruct (decide ("write" ∈ actions)); [|done].
  unfold try_except in H2.
  destruct (truthy bucket) eqn:Hb.
  - match type of H2 with
    | match ?body s1 with _ => _ end = _ => destruct (body s1) as [[v|ex] sx] eqn:Hbody
    end.
    + injection H2 as <- <-.
      apply bind_ok_inv in Hbody as ([] & sa & _ & Hbody).
      apply bind_ok_inv in Hbody as ([] & sb & Hdel & Hbody).
      apply ret_ok_inv in Hbody as [_ <-].
      unfold S3Provider.call_client in Hdel.
      apply bind_ok_inv in Hdel as (? & ? & Hg & Hdel).
      apply ret_ok_inv in Hg as [<- <-].
      apply bind_ok_inv in Hdel as (? & ? & _ & Hdel).
      unfold S3Provider.on_store in Hdel.
      destruct (S3.delete_object _ _ _) as [rd st'] eqn:Hd.
      injection Hdel as -> <-.
      apply s3_delete_object_ok_inv in Hd as (b & k & Hbk & [= <-] & Hnone).
      exists b. split; [exact Hbk|]. simpl. exact Hnone.
    + unfold ret in H2. injection H2 as <- <-.
      rewrite lookup_insert_eq in Hw. simpl in Hw. done.
  - cbv [ret] in H2. injection H2 as <- <-.
    rewrite lookup_insert_eq in Hw. simpl in Hw. done.
Qed.
Lemma bigquery_has_permissions_probe (actions : list string)
    (s s' : BigQueryProvider.State) (perms : gmap string bool) :
  BigQueryProvider.has_permissions actions s = (Ok perms, s') →
  (∀ full, bigquery_perm_test_table s ≠ Some full →
           BigQuery.tables (BigQueryProvider.cloud s') !! full
           = BigQuery.tables (BigQueryProvider.cloud s) !! full)
  ∧ (∀ full, bigquery_perm_test_table s = Some full →
             perms !! "write" = Some true →
             BigQuery.tables (BigQueryProvider.cloud s') !! full = None).
Proof.
  destruct s as [creds con cl c]. destruct c as [up kp ap ds tbl ws acc rep sel].
  unfold bigquery_perm_test_table, BigQueryProvider.has_permissions, try_except, bind,
    get, use_handle, BigQueryProvider.on_cloud, BigQuery.query_select_1,
    BigQuery.create_table_exists_ok, BigQuery.delete_table, BigQuery.guard_up, bind,
    get, modify, ret, raise. simpl.
  destruct cl as [c|]; simpl.
  - destruct up; simpl.
    + destruct sel; simpl;
        (destruct (truthy (cred_get creds "dataset")) eqn:Hd; simpl;
         [|intros [= <- <-]; simpl; done]);
        set (key := BigQueryProvider.project c +:+ "." +:+
                    py_str (cred_get creds "dataset") +:+ ".__perm_test");
        (destruct (tbl !! key) eqn:Hk; simpl;
         [ rewrite Hk; simpl; intros [= <- <-]; simpl; split;
           [ intros full Hf; apply lookup_delete_ne; congruence
           | intros full [= <-] _; apply lookup_delete_eq ]
         | destruct (acc key _); simpl;
           [ rewrite lookup_insert_eq; simpl; intros [= <- <-]; simpl; split;
             [ intros full Hf; rewrite lookup_delete_ne by congruence;
               apply lookup_insert_ne; congruence
             | intros full [= <-] _; apply lookup_delete_eq ]
           | intros [= <- <-]; simpl; split; [done|];
             intros full [= <-]; rewrite report_actions_lookup;
             destruct (decide _); [|done]; by rewrite lookup_insert_eq ] ]).
    + destruct (truthy (cred_get creds "dataset")) eqn:Hd; simpl.
      * intros [= <- <-]. simpl. split; [done|].
        intros full [= <-]. rewrite report_actions_lookup.
        destruct (decide _); [|done]. by rewrite lookup_insert_eq.
      * intros [= <- <-]. simpl. done.
  - destruct (truthy (cred_get creds "dataset")) eqn:Hd; simpl;
      intros [= <- <-]; simpl; done.
Qed.

(** X6. The write probes of the S3 and BigQuery providers touch one name
    only.  Whatever [has_permissions] answers, every object whose key is
    not [__perm_test__.txt], and every table other than the provider's
    [__perm_test] table, is as before.  When the answer for [write] is
    [True], no such object, or table, exists afterwards: the probe has
    deleted what it wrote, and with it anything that carried this name
    before. *)
Theorem permission_probe_artifacts :
  (∀ (actions : list string) (s : S3Provider.State) (k : string * string),
     k.2 ≠ "__perm_test__.txt" →
     S3.objects (S3Provider.store (has_permissions (provider_of S3) actions s).2) !! k
     = S3.objects (S3Provider.store s) !! k)
  ∧ (∀ (actions : list string) (s s' : S3Provider.State) perms,
       has_permissions (provider_of S3) actions s = (Ok perms, s') →
       perms !! "write" = Some true →
       ∃ b, cred_get (S3Provider.credentials s) "bucket" = VStr b
            ∧ S3.objects (S3Provider.store s') !! (b, "__perm_test__.txt") = None)
  ∧ (∀ (actions : list string) (s s' : BigQueryProvider.State) perms,
       has_permissions (provider_of BigQuery) actions s = (Ok perms, s') →
       (∀ full, bigquery_perm_test_table s ≠ Some full →
                BigQuery.tables (BigQueryProvider.cloud s') !! full
                = BigQuery.tables (BigQueryProvider.cloud s) !! full)
       ∧ (∀ full, bigquery_perm_test_table s = Some full →
                  perms !! "write" = Some true →
                  BigQuery.tables (BigQueryProvider.cloud s') !! full = None)).
Proof.
  split_and!.
  - intros actions s k Hk. by apply (s3_has_permissions_keeps_other actions k Hk s).
  - apply s3_has_permissions_write_true.
  - apply bigquery_has_permissions_probe.
Qed.

(** A bucket and a dataset that already hold something under the name of
    the probe: the other object and table stay, the namesakes are gone. *)
Lemma permission_probe_artifacts_witness :
  let s3 := Scenario.s3 {[("lake", "__perm_test__.txt") := S3.Raw "mine";
                          ("lake", "t.csv") := S3.Serialized false abacb]} in
  let bq := Scenario.bigquery {["acme.sales.__perm_test" := abacb;
                                "acme.sales.orders" := abacb]} in
  let r3 := has_permissions (provider_of S3) ["write"] s3 in
  let rq := has_permissions (provider_of BigQuery) ["write"] bq in
  r3.1 = Ok {["write" := true]}
  ∧ S3.objects (S3Provider.store r3.2) !! ("lake", "t.csv")
    = Some (S3.Serialized false abacb)
  ∧ S3.objects (S3Provider.store r3.2) !! ("lake", "__perm_test__.txt") = None
  ∧ rq.1 = Ok {["write" := true]}
  ∧ BigQuery.tables (BigQueryProvider.cloud rq.2) !! "acme.sales.orders" = Some abacb
  ∧ BigQuery.tables (BigQueryProvider.cloud rq.2) !! "acme.sales.__perm_test" = None.
Proof.
  intros s3 bq r3 rq.
  destruct permission_probe_artifacts as (Hother & Hgone & Hbq).
  assert (has_permissions (provider_of S3) ["write"] s3 = (Ok {["write" := true]}, r3.2))
    as H3 by (vm_compute; reflexivity).
  assert (has_permissions (provider_of BigQuery) ["write"] bq
          = (Ok {["write" := true]}, rq.2)) as Hq by (vm_compute; reflexivity).
  split; [exact (f_equal fst H3)|]. split.
  { etrans; [apply (Hother ["write"] s3 ("lake", "t.csv")); discriminate|].
    reflexivity. }
  split.
  { destruct (Hgone ["write"] s3 r3.2 _ H3 eq_refl) as (b & Hb & Hnone).
    injection Hb as <-. exact Hnone. }
  split; [exact (f_equal fst Hq)|].
  destruct (Hbq ["write"] bq rq.2 _ Hq) as [Hkeep Hdel].
  split.
  - etrans; [apply (Hkeep "acme.sales.orders"); discriminate|]. reflexivity.
  - apply (Hdel "acme.sales.__perm_test"); reflexivity.
Defined.

(** ** read_table and its limit *)

Lemma rows_head (n : Z) (df : DataFrame) :
  0 ≤ n → rows (head n df) = take (Z.to_nat n) (rows df) ∧ columns (head n df) = columns df.
Proof.
  intros Hn. split; [|done]. unfold head, iloc. simpl.
  replace 0 with (Z.of_nat 0) by done.
  replace n with (Z.of_nat 0 + Z.of_nat (Z.to_nat n)) at 1 by lia.
  by rewrite py_slice_nat, drop_0.
Qed.

Lemma has_limit_cases (n : Z) :
  (n ≤ 0 → has_limit (Some n) = None) ∧ (0 < n → has_limit (Some n) = Some n).
Proof. unfold has_limit. destruct (decide (0 < n)); split; intros; (done || lia). Qed.

Lemma sql_select_all_limit (schema name : string) (n : Z) (d : Sql.Database) :
  Sql.select_all schema name (Some n) d
  = (res_map (head n) (Sql.select_all schema name None d).1,
     (Sql.select_all schema name None d).2).
Proof.
  unfold Sql.select_all, bind, Sql.guard_up, get, ret, raise.
  destruct (Sql.up d); [|done]. by destruct (Sql.tables d !! (schema, name)).
Qed.

Lemma bigquery_select_all_limit (full : string) (n : Z) (c : BigQuery.Cloud) :
  BigQuery.query_select_all full (Some n) c
  = (res_map (head n) (BigQuery.query_select_all full None c).1,
     (BigQuery.query_select_all full None c).2).
Proof.
  unfold BigQuery.query_select_all, bind, BigQuery.guard_up, get, ret, raise.
  destruct (BigQuery.up c); [|done]. by destruct (BigQuery.tables c !! full).
Qed.

Lemma read_table_limit_positive (b : Backend) (s : State_of b) (table_name : string)
    (n : Z) :
  0 < n →
  read_table (provider_of b) table_name (Some n) s
  = (res_map (head n) (read_table (provider_of b) table_name None s).1,
     (read_table (provider_of b) table_name None s).2).
Proof.
  intros Hn. pose proof (proj2 (has_limit_cases n) Hn) as Hl.
  destruct b.
  - change (read_table (provider_of SQLite)) with SQLiteProvider.read_table.
    unfold SQLiteProvider.read_table. rewrite !bind_get, Hl.
    unfold use_connection, bind, SQLiteProvider.on_db, ret, raise.
    destruct (SQLiteProvider.conn s) as [[]|]; [|done..].
    cbn [has_limit]. rewrite sql_select_all_limit.
    by destruct (Sql.select_all _ _ None _).
  - change (read_table (provider_of Redshift)) with RedshiftProvider.read_table.
    unfold RedshiftProvider.read_table. rewrite !bind_get, Hl.
    unfold use_handle, bind, RedshiftProvider.on_db, ret, raise.
    destruct (RedshiftProvider.engine s); [|done].
    cbn [has_limit]. rewrite sql_select_all_limit.
    by destruct (Sql.select_all _ _ None _).
  - change (read_table (provider_of BigQuery)) with BigQueryProvider.read_table.
    unfold BigQueryProvider.read_table. rewrite Hl. cbn [has_limit].
    unfold bind. destruct (BigQueryProvider._full_table_ref _ _) as [[full|e] s1];
      [|done].
    unfold BigQueryProvider.on_cloud. rewrite bigquery_select_all_limit.
    by destruct (BigQuery.query_select_all _ None _).
  - change (read_table (provider_of Snowflake)) with SnowflakeProvider.read_table.
    unfold SnowflakeProvider.read_table. rewrite !bind_get, Hl.
    unfold use_connection, bind, SnowflakeProvider.on_db, ret, raise.
    destruct (SnowflakeProvider.conn s) as [[]|]; [|done..].
    cbn [has_limit]. rewrite sql_select_all_limit.
    by destruct (Sql.select_all _ _ None _).
  - change (read_table (provider_of S3)) with S3Provider.read_table.
    unfold S3Provider.read_table. rewrite !bind_get. cbv zeta. rewrite Hl.
    cbn [has_limit].
    destruct (negb _ || negb _); [done|].
    unfold bind. destruct (S3Provider._read_object_df _ _ s) as [[df|e] s1]; done.
Qed.

Lemma read_table_limit_ignored (b : Backend) (s : State_of b) (table_name : string)
    (n : Z) :
  n ≤ 0 →
  read_table (provider_of b) table_name (Some n) s
  = read_table (provider_of b) table_name None s.
Proof.
  intros Hn. pose proof (proj1 (has_limit_cases n) Hn) as Hl.
  destruct b.
  - change (read_table (provider_of SQLite)) with SQLiteProvider.read_table.
    unfold SQLiteProvider.read_table. by rewrite Hl.
  - change (read_table (provider_of Redshift)) with RedshiftProvider.read_table.
    unfold RedshiftProvider.read_table. by rewrite Hl.
  - change (read_table (provider_of BigQuery)) with BigQueryProvider.read_table.
    unfold BigQueryProvider.read_table. by rewrite Hl.
  - change (read_table (provider_of Snowflake)) with SnowflakeProvider.read_table.
    unfold SnowflakeProvider.read_table. by rewrite Hl.
  - change (read_table (provider_of S3)) with S3Provider.read_table.
    unfold S3Provider.read_table. by rewrite Hl.
Qed.



(** ** delete_table *)

Lemma sql_drop_if_exists_run (schema name : string) (d : Sql.Database) :
  Sql.up d = true →
  Sql.drop_if_exists schema name d
  = (Ok tt, Sql.set_tables (λ t, delete (schema, name) t) d).
Proof.
  intros Hup. unfold Sql.drop_if_exists.
  erewrite bind_ok; [|by apply sql_guard_up_run]. done.
Qed.

Lemma sql_drop_if_exists_inv (schema name : string) (d d' : Sql.Database) r :
  Sql.drop_if_exists schema name d = (r, d') →
  (r = Ok tt ∧ Sql.up d = true
   ∧ d' = Sql.set_tables (λ t, delete (schema, name) t) d)
  ∨ (r = Raise DatabaseError ∧ Sql.up d = false ∧ d' = d).
Proof.
  unfold Sql.drop_if_exists, bind, Sql.guard_up, modify.
  destruct (Sql.up d); intros [= <- <-]; [left|right]; done.
Qed.

Lemma sql_select_all_absent (schema name : string) (limit : option Z) (d : Sql.Database) :
  Sql.tables d !! (schema, name) = None →
  ∃ e, Sql.select_all schema name limit d = (Raise e, d).
Proof.
  intros H. unfold Sql.select_all, bind, Sql.guard_up, get, raise.
  destruct (Sql.up d); [|by eexists]. rewrite H. by eexists.
Qed.

Lemma sql_set_tables_delete_idemp (k : string * string) (d : Sql.Database) :
  Sql.set_tables (λ t, delete k t) (Sql.set_tables (λ t, delete k t) d)
  = Sql.set_tables (λ t, delete k t) d.
Proof. destruct d. unfold Sql.set_tables. simpl. f_equal. apply delete_delete_eq. Qed.

Lemma sqlite_delete_table_twice (s s1 : SQLiteProvider.State) (table_name : string) :
  SQLiteProvider.delete_table table_name s = (Ok tt, s1) →
  SQLiteProvider.delete_table table_name s1 = (Ok tt, s1)
  ∧ ∃ e s2, SQLiteProvider.read_table table_name None s1 = (Raise e, s2).
Proof.
  destruct s as [creds con path cn eng fs [up tbl ws acc sel rc pu]].
  unfold SQLiteProvider.delete_table, SQLiteProvider.read_table. run_all. simpl.
  destruct eng as [url|]; [|done]. destruct up; [|done]. simpl.
  intros [= <-]. simpl. rewrite delete_delete_eq. split; [done|].
  destruct cn as [[]|]; simpl; [|by do 2 eexists..].
  rewrite lookup_delete_eq. by do 2 eexists.
Qed.

Lemma redshift_delete_table_twice (s s1 : RedshiftProvider.State) (table_name : string) :
  RedshiftProvider.delete_table table_name s = (Ok tt, s1) →
  RedshiftProvider.delete_table table_name s1 = (Ok tt, s1)
  ∧ ∃ e s2, RedshiftProvider.read_table table_name None s1 = (Raise e, s2).
Proof.
  destruct s as [creds con eng [up tbl ws acc sel rc pu]].
  unfold RedshiftProvider.delete_table, RedshiftProvider.read_table,
    RedshiftProvider.schema_text. run_all. simpl.
  destruct eng as [url|]; [|done]. destruct up; [|done]. simpl.
  intros [= <-]. simpl. rewrite delete_delete_eq. split; [done|].
  rewrite lookup_delete_eq. by do 2 eexists.
Qed.

Lemma snowflake_delete_table_twice (s s1 : SnowflakeProvider.State)
    (table_name : string) :
  SnowflakeProvider.delete_table table_name s = (Ok tt, s1) →
  SnowflakeProvider.delete_table table_name s1 = (Ok tt, s1)
  ∧ ∃ e s2, SnowflakeProvider.read_table table_name None s1 = (Raise e, s2).
Proof.
  destruct s as [creds con cn [up tbl ws acc sel rc pu]].
  unfold SnowflakeProvider.delete_table, SnowflakeProvider.read_table,
    SnowflakeProvider.session_schema. run_all. simpl.
  destruct cn as [[]|]; [|done..]. destruct up; [|done]. simpl.
  intros [= <-]. simpl. rewrite delete_delete_eq. split; [done|].
  rewrite lookup_delete_eq. by do 2 eexists.
Qed.

Lemma bigquery_delete_table_twice (s s1 : BigQueryProvider.State)
    (table_name : string) :
  BigQueryProvider.delete_table table_name s = (Ok tt, s1) →
  BigQueryProvider.delete_table table_name s1 = (Ok tt, s1)
  ∧ ∃ e s2, BigQueryProvider.read_table table_name None s1 = (Raise e, s2).
Proof.
  destruct s as [creds con cl [up kp ap ds tbl ws acc rep sel]].
  unfold BigQueryProvider.delete_table, BigQueryProvider.read_table,
    BigQueryProvider._full_table_ref. run_all. simpl.
  destruct cl as [c|]; [|by destruct (str_contains "." table_name)].
  destruct (str_contains "." table_name); simpl;
    (destruct up; [|done]); simpl;
    match goal with
    | |- context [tbl !! ?k] => destruct (tbl !! k) eqn:Hk
    end; simpl; intros [= <-]; simpl;
    rewrite ?lookup_delete_eq, ?Hk; simpl; rewrite ?delete_delete_eq;
    (split; [try done|by do 2 eexists]).
Qed.

Lemma s3_delete_table_twice (s s1 : S3Provider.State) (table_name : string) :
  S3Provider.delete_table table_name s = (Ok tt, s1) →
  S3Provider.delete_table table_name s1 = (Ok tt, s1)
  ∧ ∃ e s2, S3Provider.read_table table_name None s1 = (Raise e, s2).
Proof.
  destruct s as [creds con cl [fault bk objs rd bc] q].
  unfold S3Provider.delete_table, S3Provider.read_table, S3Provider._read_object_df.
  run_all. simpl.
  destruct (negb (truthy (cred_get creds "bucket"))
            || negb (truthy (py_or (VStr table_name) (cred_get creds "key")))) eqn:Hcfg.
  - intros [= <-]. simpl. rewrite Hcfg. split; [done|]. by do 2 eexists.
  - destruct cl as [[]|]; [|done]. simpl.
    destruct (cred_get creds "bucket") as [|b|] eqn:Hb; [done| |done].
    destruct (py_or (VStr table_name) (cred_get creds "key")) as [|k|] eqn:Hk;
      [done| |done].
    destruct fault; [done|]. simpl. case_bool_decide as Hin; [|done]. simpl.
    intros [= <-]. simpl. rewrite Hb, Hk, Hcfg. simpl.
    rewrite (bool_decide_eq_true_2 _ Hin). simpl.
    rewrite delete_delete_eq, lookup_delete_eq. split; [done|]. by do 2 eexists.
Qed.

Lemma delete_table_ready (b : Backend) (s : State_of b) (table_name : string) :
  ready b s → table_name ≠ "" →
  ∃ s1, delete_table (provider_of b) table_name s = (Ok tt, s1).
Proof.
  destruct b; cbn [ready State_of].
  - intros ([url Hurl] & _ & Hup) _.
    destruct s as [creds con path cn eng fs [up tbl ws acc sel rc pu]]. simpl in *. subst.
    by eexists.
  - intros ([url Hurl] & Hup) _.
    destruct s as [creds con eng [up tbl ws acc sel rc pu]]. simpl in *. subst. by eexists.
  - intros ([c Hc] & Hup) _.
    destruct s as [creds con cl [up kp ap ds tbl ws acc rep sel]]. simpl in *. subst.
    change (delete_table (provider_of BigQuery)) with BigQueryProvider.delete_table.
    unfold BigQueryProvider.delete_table, BigQueryProvider._full_table_ref.
    run_all. simpl.
    destruct (str_contains "." table_name); simpl;
      match goal with
      | |- context [tbl !! ?k] => destruct (tbl !! k)
      end; by eexists.
  - intros (Hc & Hup) _.
    destruct s as [creds con cn [up tbl ws acc sel rc pu]]. simpl in *. subst. by eexists.
  - intros (Hc & Hf & (bucket & Hb & Hne & Hin)) Hname.
    destruct s as [creds con cl [fault bk objs rd bc] q]. simpl in *. subst.
    change (delete_table (provider_of S3)) with S3Provider.delete_table.
    unfold S3Provider.delete_table. rewrite bind_get. cbv zeta.
    cbn [S3Provider.credentials]. rewrite Hb, py_or_str by done.
    rewrite (truthy_str bucket), (truthy_str table_name) by done. cbn [negb orb].
    run_all. simpl. rewrite (bool_decide_eq_true_2 _ Hin). by eexists.
Qed.



(** ** Writing, then reading *)

Lemma sqlite_replace_then_read (s s1 : SQLiteProvider.State) (table_name : string)
    (df : DataFrame) (n : Z) :
  SQLiteProvider.conn s = Some true →
  SQLiteProvider.write_table table_name df "replace" s = (Ok n, s1) →
  SQLiteProvider.read_table table_name None s1 = (Ok df, s1).
Proof.
  destruct s as [creds con path cn eng fs [up tbl ws acc sel rc pu]]. simpl. intros ->.
  unfold SQLiteProvider.write_table, SQLiteProvider.read_table. run_all. simpl.
  destruct eng as [url|]; [|done]. destruct up; [|done]. simpl.
  destruct (tbl !! ("main", table_name)); simpl;
    (destruct (acc table_name df); [|done]); simpl;
    intros [= <- <-]; simpl; by rewrite lookup_insert_eq.
Qed.

Lemma redshift_replace_then_read (s s1 : RedshiftProvider.State) (table_name : string)
    (df : DataFrame) (n : Z) :
  RedshiftProvider.schema_text s = RedshiftProvider.schema_arg s →
  RedshiftProvider.write_table table_name df "replace" s = (Ok n, s1) →
  RedshiftProvider.read_table table_name None s1 = (Ok df, s1).
Proof.
  destruct s as [creds con eng [up tbl ws acc sel rc pu]].
  unfold RedshiftProvider.write_table, RedshiftProvider.read_table,
    RedshiftProvider.schema_text, RedshiftProvider.schema_arg. simpl. intros Hsch.
  destruct (cred_get_default creds "schema" (VStr "public")) as [|sch|z] eqn:E;
    [done| |]; clear Hsch; run_all; simpl; rewrite ?E; simpl;
    (destruct eng as [url|]; [|done]); (destruct up; [|done]); simpl;
  match goal with
  | |- context [tbl !! ?k] => destruct (tbl !! k)
  end; simpl; (destruct (acc table_name df); [|done]); simpl;
    intros [= <- <-]; simpl; rewrite E; simpl; by rewrite lookup_insert_eq.
Qed.

Lemma bigquery_replace_then_read (s s1 : BigQueryProvider.State)
    (table_name full : string) (df : DataFrame) (n : Z) :
  BigQueryProvider._full_table_ref table_name s = (Ok full, s) →
  BigQuery.tables (BigQueryProvider.cloud s) !! full = None →
  BigQueryProvider.write_table table_name df "replace" s = (Ok n, s1) →
  BigQueryProvider.read_table table_name None s1 = (Ok df, s1).
Proof.
  intros Hfull Habs. unfold BigQueryProvider.write_table, BigQueryProvider.read_table.
  erewrite bind_ok; [|exact Hfull]. rewrite decide_False by (intros H; by apply H).
  erewrite bind_ok; [|reflexivity]. rewrite decide_True by done.
  destruct s as [creds con cl [up kp ap ds tbl ws acc rep sel]]. simpl in *.
  assert (∀ c', BigQueryProvider._full_table_ref table_name
                  (BigQueryProvider.mkState creds con cl c')
                = (Ok full, BigQueryProvider.mkState creds con cl c')) as Hfull'.
  { intros c'. revert Hfull. unfold BigQueryProvider._full_table_ref. run_all. simpl.
    destruct (str_contains "." table_name); destruct cl; simpl; try done;
      by intros [= <-]. }
  run_all. simpl. destruct up; [|done]. simpl. rewrite Habs. simpl.
  destruct (acc full df); [|done]. simpl. rewrite Habs. simpl.
  intros [= <- <-]. rewrite Hfull'. simpl. by rewrite lookup_insert_eq.
Qed.

Lemma s3_replace_then_read (s s1 : S3Provider.State) (table_name : string)
    (df : DataFrame) (n : Z) :
  table_name ≠ "" →
  S3.reader (S3Provider.store s) (endswith (lower table_name) ".parquet")
    (S3.Serialized (endswith (lower table_name) ".parquet") df) = Ok df →
  S3Provider.write_table table_name df "replace" s = (Ok n, s1) →
  S3Provider.read_table table_name None s1 = (Ok df, s1).
Proof.
  intros Hname Hrd.
  destruct s as [creds con cl [fault bk objs rd bc] q]. simpl in Hrd.
  unfold S3Provider.write_table, S3Provider.read_table, S3Provider._read_object_df,
    S3Provider.is_parquet.
  rewrite !bind_get. cbv zeta. cbn [S3Provider.credentials].
  rewrite !py_or_str by done. rewrite (truthy_str table_name) by done.
  destruct (truthy (cred_get creds "bucket")) eqn:Hb; [|done]. cbn [negb orb].
  rewrite decide_False by done.
  run_all. simpl.
  destruct cl as [[]|]; [|done]. simpl.
  destruct (cred_get creds "bucket") as [|b|] eqn:Hbv; [done| |done].
  destruct fault; [done|]. simpl. case_bool_decide as Hin; [|done]. simpl.
  intros [= <- <-]. simpl. rewrite ?Hbv. simpl in *. rewrite ?Hb. simpl.
  rewrite (bool_decide_eq_true_2 _ Hin). simpl.
  rewrite lookup_insert_eq. simpl. by rewrite Hrd.
Qed.

Lemma col_index_self_tail (c c' : string) (cs : list string) :
  c' ≠ c → col_index c' (c :: cs) = S <$> col_index c' cs.
Proof. intros H. simpl. by rewrite decide_False by done. Qed.

Lemma relay_same_header (cols : list string) (r : list Cell) :
  NoDup cols → length r = length cols → relay cols cols r = r.
Proof.
  unfold relay. revert r. induction cols as [|c cs IH]; intros r Hnd Hlen.
  - by destruct r.
  - destruct r as [|x xs]; [done|]. apply NoDup_cons in Hnd as [Hc Hnd].
    rewrite fmap_cons. simpl. rewrite decide_True by done. simpl. f_equal.
    etrans; [|apply (IH xs Hnd); simpl in Hlen; lia].
    apply list_fmap_ext. intros i c' Hi.
    assert (c' ≠ c) as Hne.
    { intros ->. apply Hc. by apply list_elem_of_lookup_2 in Hi. }
    rewrite decide_False by done.
    destruct (col_index c' cs); done.
Qed.

Lemma relay_rows_same_header (df : DataFrame) :
  well_formed df → relay (columns df) (columns df) <$> rows df = rows df.
Proof.
  intros [Hnd Hlen]. induction Hlen as [|r rs Hr _ IH]; [done|].
  rewrite fmap_cons, IH. f_equal. by apply relay_same_header.
Qed.

Lemma snowflake_replace_then_read (s s1 : SnowflakeProvider.State)
    (table_name : string) (df : DataFrame) (n : Z) :
  well_formed df →
  SnowflakeProvider.write_table table_name df "replace" s = (Ok n, s1) →
  SnowflakeProvider.read_table table_name None s1
  = (Ok (mkDF (columns df) (const DObject <$> columns df) (rows df)), s1).
Proof.
  intros Hwf. destruct s as [creds con cn [up tbl ws acc sel rc pu]].
  unfold SnowflakeProvider.write_table, SnowflakeProvider.read_table,
    SnowflakeProvider.session_schema. run_all. simpl.
  destruct cn as [[]|]; [|done..]. destruct up; [|done]. simpl.
  set (sch := match cred_get creds "schema" with VNone => _ | _ => _ end).
  rewrite lookup_delete_eq. unfold Sql.create_and_load. run_all. simpl.
  match goal with
  | |- context [acc table_name ?d] => destruct (acc table_name d)
  end; [|done]. simpl.
  rewrite lookup_insert_eq. simpl.
  destruct (acc table_name df); [|done]. simpl.
  destruct (forallb _ _); [|done]. simpl.
  intros [= <- <-]. simpl. subst sch.
  rewrite lookup_insert_eq. simpl.
  rewrite insert_insert_eq.
  by rewrite relay_rows_same_header.
Qed.



(** ** migrate_table: chunk sizes that are not positive, and failures *)

(** X10. On a source table with rows, [migrate_table] with a chunk size
    of zero raises [ValueError] once the table has been read, and with a
    negative chunk size it returns 0: in both cases the destination is
    never called, so that nothing is migrated. *)
Theorem migrate_table_chunk_size_not_positive_general {W}
    (source dest : DataProvider W) (table_name : string) (chunk_size : Z)
    (df : DataFrame) (w w1 : W) (log : list Event) :
  read_table source table_name None w = (Ok df, w1) →
  empty df = false →
  chunk_size ≤ 0 →
  migrate_table source dest table_name chunk_size (w, log)
  = (if decide (chunk_size = 0) then Raise ValueError else Ok 0,
     (w1, log ++ [(Source, CallRead table_name None)])).
Proof.
  intros Hread Hne Hk. pose proof (empty_false_len df Hne) as HN.
  unfold migrate_table.
  erewrite bind_ok; [|apply invoke_eq; exact Hread].
  rewrite Hne. rewrite decide_False by lia.
  unfold py_range. destruct (decide (chunk_size = 0)) as [->|Hk0]; [done|].
  rewrite decide_False by lia. rewrite decide_False by lia. done.
Qed.

Lemma migrate_table_chunk_size_not_positive_general_witness :
  let p := MemoryProvider.provider in
  let w : MemoryProvider.State := {["t" := abacb]} in
  (read_table p "t" None w = (Ok abacb, w) ∧ empty abacb = false ∧ -2 ≤ 0)
  ∧ migrate_table p p "t" (-2) (w, [])
    = (Ok 0, (w, [(Source, CallRead "t" None)])).
Proof.
  intros p w.
  assert (read_table p "t" None w = (Ok abacb, w)) as Hr by reflexivity.
  assert (empty abacb = false) as He by reflexivity.
  assert (-2 ≤ 0) as Hk by lia.
  split; [done|].
  exact (migrate_table_chunk_size_not_positive_general p p "t" (-2) abacb w w []
           Hr He Hk).
Defined.

Lemma migrate_loop_raise {W} (dest : DataProvider W) (table_name : string)
    (k : Z) (df : DataFrame) (js : list nat) total s log e s' log' :
  for_each ((λ j : nat, 0 + Z.of_nat j * k) <$> js) total
    (λ total i,
       let chunk := iloc i (i + k) df in
       let* n := invoke Dest (CallWrite table_name chunk "append")
                   (write_table dest table_name chunk "append") in
       ret (total + n)) (s, log)
  = (Raise e, (s', log')) →
  ∃ (js0 : list nat) (j : nat) (js1 : list nat) (sk : W),
    js = js0 ++ j :: js1
    ∧ log' = log ++ ((λ d, (Dest, CallWrite table_name d "append"))
                       <$> (chunk_at k df <$> js0 ++ [j]))
    ∧ write_table dest table_name (chunk_at k df j) "append" sk = (Raise e, s').
Proof.
  revert total s log. induction js as [|j js IH]; intros total s log; [done|].
  rewrite fmap_cons. cbn [for_each].
  destruct (write_table dest table_name (chunk_at k df j) "append" s)
    as [[n|ex] s1] eqn:Hw.
  - erewrite bind_ok; last first.
    { erewrite bind_ok; [reflexivity|]. apply invoke_eq. exact Hw. }
    intros Hrun. apply IH in Hrun as (js0 & j' & js1 & sk & -> & -> & Hfail).
    exists (j :: js0), j', js1, sk. split; [done|]. split; [|done].
    rewrite <- app_assoc. done.
  - erewrite bind_raise; last first.
    { erewrite bind_raise; [reflexivity|]. apply invoke_eq. exact Hw. }
    intros [= <- <- <-]. by exists [], j, js, s.
Qed.

Lemma seq_split_at (c : nat) (js0 : list nat) (j : nat) (js1 : list nat) :
  seq 0 c = js0 ++ j :: js1 → js0 = seq 0 j ∧ (j < c)%nat.
Proof.
  intros H.
  assert (length js0 < c)%nat as Hlt.
  { apply (f_equal length) in H. rewrite length_seq, length_app in H.
    simpl in H. lia. }
  assert (j = length js0) as ->.
  { assert (seq 0 c !! length js0 = Some j) as Hj.
    { rewrite H. by rewrite list_lookup_middle. }
    apply lookup_seq in Hj. lia. }
  split; [|done].
  assert (take (length js0) (seq 0 c) = js0) as Ht.
  { rewrite H. by rewrite take_app_length. }
  rewrite <- Ht at 1. rewrite take_seq. f_equal. lia.
Qed.

(** X11. When [migrate_table] raises, the exception is that of the read
    of the source, or the [ValueError] of a chunk size of zero, or that
    of a write on the destination.  In the last case that write is the
    last call made: no later chunk is sent and nothing is undone; the
    chunks sent before it were full chunks, and they make up, with the
    one that failed, a prefix of the source rows. *)
Theorem migrate_table_failure {W} (source dest : DataProvider W)
    (table_name : string) (chunk_size : Z) (w w' : W) (log log' : list Event)
    (e : Exn) :
  migrate_table source dest table_name chunk_size (w, log)
  = (Raise e, (w', log')) →
  (read_table source table_name None w = (Raise e, w')
   ∧ log' = log ++ [(Source, CallRead table_name None)])
  ∨ (∃ df, read_table source table_name None w = (Ok df, w')
           ∧ chunk_size = 0 ∧ e = ValueError ∧ 0 < len df
           ∧ log' = log ++ [(Source, CallRead table_name None)])
  ∨ (∃ (df : DataFrame) (w1 : W) (sent : list DataFrame) (d : DataFrame) (wk : W),
       read_table source table_name None w = (Ok df, w1)
       ∧ log' = log ++ (Source, CallRead table_name None)
                       :: ((λ d, (Dest, CallWrite table_name d "append"))
                             <$> sent ++ [d])
       ∧ write_table dest table_name d "append" wk = (Raise e, w')
       ∧ Forall (λ x, columns x = columns df ∧ len x = chunk_size) sent
       ∧ columns d = columns df
       ∧ concat (rows <$> sent) ++ rows d `prefix_of` rows df).
Proof.
  unfold migrate_table.
  destruct (read_table source table_name None w) as [[df|ex] w1] eqn:Hread.
  2:{ erewrite bind_raise; [|apply invoke_eq; exact Hread].
      intros [= <- <- <-]. by left. }
  erewrite bind_ok; [|apply invoke_eq; exact Hread].
  destruct (empty df) eqn:Hne.
  { destruct (write_table dest table_name df "append" w1) as [[n|ex] w2] eqn:Hw.
    - erewrite bind_ok; [|apply invoke_eq; exact Hw]. done.
    - erewrite bind_raise; [|apply invoke_eq; exact Hw].
      intros [= <- <- <-]. right. right. exists df, w1, [], df, w1.
      split_and!; try done. by rewrite <- app_assoc. }
  pose proof (empty_false_len df Hne) as HN.
  destruct (decide (len df ≤ chunk_size)) as [Hle|Hgt].
  { destruct (write_table dest table_name df "append" w1) as [[n|ex] w2] eqn:Hw.
    - erewrite bind_ok; [|apply invoke_eq; exact Hw]. done.
    - erewrite bind_raise; [|apply invoke_eq; exact Hw].
      intros [= <- <- <-]. right. right. exists df, w1, [], df, w1.
      split_and!; try done. by rewrite <- app_assoc. }
  unfold py_range.
  destruct (decide (chunk_size = 0)) as [->|Hk0].
  { intros [= <- <- <-]. right. left. by exists df. }
  destruct (decide (0 < chunk_size)) as [Hk|Hk]; last first.
  { rewrite decide_False by lia. done. }
  rewrite decide_True by lia.
  pose proof (ceil_div_bounds (len df) chunk_size Hk HN) as [Hc Hc0].
  simpl in Hc, Hc0.
  replace (len df - 0 + chunk_size - 1) with (len df + chunk_size - 1) by lia.
  set (c := (len df + chunk_size - 1) `div` chunk_size) in *.
  erewrite bind_ok; [|reflexivity].
  intros Hrun.
  apply migrate_loop_raise in Hrun as (js0 & j & js1 & wk & Hjs & -> & Hfail).
  apply seq_split_at in Hjs as [-> Hj].
  right. right.
  exists df, w1, (chunk_at chunk_size df <$> seq 0 j), (chunk_at chunk_size df j), wk.
  split_and!; try done.
  - rewrite <- app_assoc. simpl. by rewrite fmap_app.
  - apply Forall_fmap, Forall_forall. intros i Hi.
    apply elem_of_seq in Hi. simpl. split; [done|].
    rewrite len_chunk_at by done. nia.
  - rewrite <- list_fmap_compose.
    rewrite (list_fmap_ext (rows ∘ chunk_at chunk_size df)
               (λ j, take (Z.to_nat chunk_size)
                       (drop (j * Z.to_nat chunk_size) (rows df))));
      [|intros; simpl; by apply rows_chunk_at].
    rewrite concat_chunks, drop_0, rows_chunk_at by done.
    rewrite take_take_drop. apply prefix_take.
Qed.

Lemma migrate_table_failure_witness :
  let source : DataProvider (MemoryProvider.State * SQLiteProvider.State) :=
    left_provider MemoryProvider.provider in
  let dest : DataProvider (MemoryProvider.State * SQLiteProvider.State) :=
    right_provider SQLiteProvider.provider in
  (* a database that takes loads of five rows only *)
  let picky :=
    Sql.mkDatabase true ∅ Scenario.where_true (λ _ d, bool_decide (len d = 5))
      true true (λ _, true) in
  let s :=
    (SQLiteProvider.connect
       (SQLiteProvider.init {["db_path" := VStr "data/app.db"]} true picky)).2 in
  let w : MemoryProvider.State * SQLiteProvider.State :=
    ({["t" := Scenario.numbered 12]}, s) in
  let out := migrate_table source dest "t" 5 (w, []) in
  out = (Raise DatabaseError, (out.2.1, out.2.2))
  ∧ len <$> writes_of Dest out.2.2 = [5; 5; 2]
  ∧ (SQLiteProvider.read_table "t" None out.2.1.2).1
    = Ok (iloc 0 10 (Scenario.numbered 12))
  ∧ ∃ (df : DataFrame) w1 (sent : list DataFrame) (d : DataFrame) wk,
      read_table source "t" None w = (Ok df, w1)
      ∧ out.2.2 = [] ++ (Source, CallRead "t" None)
                        :: ((λ d, (Dest, CallWrite "t" d "append")) <$> sent ++ [d])
      ∧ write_table dest "t" d "append" wk = (Raise DatabaseError, out.2.1)
      ∧ Forall (λ x, columns x = columns df ∧ len x = 5) sent
      ∧ columns d = columns df
      ∧ concat (rows <$> sent) ++ rows d `prefix_of` rows df.
Proof.
  intros source dest picky s w out.
  assert (out = (Raise DatabaseError, (out.2.1, out.2.2))) as Hout
    by (vm_compute; reflexivity).
  split; [exact Hout|]. split; [vm_compute; reflexivity|].
  split; [vm_compute; reflexivity|].
  destruct (migrate_table_failure source dest "t" 5 w out.2.1 [] out.2.2
              DatabaseError Hout) as [[Hr _]|[(df & _ & Hk & _)|H]].
  - exfalso. vm_compute in Hr. discriminate Hr.
  - exfalso. discriminate Hk.
  - exact H.
Defined.

(** ** migrate_table into a SQLite database *)

Lemma appended_appended (o : option DataFrame) (d1 d2 : DataFrame) :
  appended (Some (appended o d1)) d2
  = appended o (mkDF (columns d1) (dtypes d1) (rows d1 ++ rows d2)).
Proof. destruct o; simpl; by rewrite ?app_assoc. Qed.

Lemma sqlite_append_step (table_name : string) (hdr : list string)
    (s : SQLiteProvider.State) (d : DataFrame) :
  hdr ≠ [] → NoDup hdr → columns d = hdr →
  Forall (λ r, length r = length hdr) (rows d) →
  sqlite_takes table_name hdr s →
  ∃ s', SQLiteProvider.write_table table_name d "append" s = (Ok (len d), s')
        ∧ sqlite_takes table_name hdr s'
        ∧ SQLiteProvider.conn s' = SQLiteProvider.conn s
        ∧ Sql.tables (SQLiteProvider.db s')
          = <[("main", table_name) :=
                appended (Sql.tables (SQLiteProvider.db s) !! ("main", table_name)) d]>
              (Sql.tables (SQLiteProvider.db s)).
Proof.
  intros Hne Hnd Hd Hlen Htakes.
  pose proof Htakes as ((url & He) & Hup & Hacc & Hold).
  destruct (sqlite_takes_write table_name hdr s d Hne Hd Htakes) as (s' & Hw & Ht').
  exists s'. split; [exact Hw|]. split; [exact Ht'|].
  rewrite (sqlite_write_table_append_run s url) in Hw; [|done..| |].
  - injection Hw as <-. split; [done|]. simpl. f_equal.
    destruct (Sql.tables _ !! _) as [old|] eqn:Ho; [|done].
    simpl. f_equal. f_equal. rewrite (Hold old eq_refl), Hd.
    assert (well_formed (mkDF hdr [] (rows d))) as Hwf by done.
    exact (relay_rows_same_header _ Hwf).
  - rewrite Hacc, Hd. by rewrite bool_decide_eq_false_2.
  - intros old Ho. rewrite (Hold old Ho), Hd. apply forallb_elem_self.
Qed.

Lemma Forall_py_slice {A} (P : A → Prop) (i j : Z) (l : list A) :
  Forall P l → Forall P (py_slice i j l).
Proof. intros H. unfold py_slice. by apply Forall_take, Forall_drop. Qed.

Lemma sqlite_read_table_run (s : SQLiteProvider.State) (table_name : string)
    (t : DataFrame) :
  SQLiteProvider.conn s = Some true →
  Sql.up (SQLiteProvider.db s) = true →
  Sql.tables (SQLiteProvider.db s) !! ("main", table_name) = Some t →
  SQLiteProvider.read_table table_name None s = (Ok t, s).
Proof.
  destruct s as [creds con path cn eng fs [up tbl ws acc sel rc pu]]. simpl.
  intros -> -> Ht. unfold SQLiteProvider.read_table. run_all. simpl.
  by rewrite Ht.
Qed.

Lemma migrate_loop_sqlite {W} (table_name : string) (k : Z) (df : DataFrame)
    (m j0 : nat) (total : Z) (w : W) (s : SQLiteProvider.State)
    (log : list Event) (t0 : DataFrame) :
  columns df ≠ [] → well_formed df →
  sqlite_takes table_name (columns df) s →
  Sql.tables (SQLiteProvider.db s) !! ("main", table_name) = Some t0 →
  ∃ s' log',
    for_each ((λ j : nat, 0 + Z.of_nat j * k) <$> seq j0 m) total
      (λ total i,
         let chunk := iloc i (i + k) df in
         let* n := invoke Dest (CallWrite table_name chunk "append")
                     (write_table (right_provider (S1 := W) SQLiteProvider.provider)
                        table_name chunk "append") in
         ret (total + n)) ((w, s), log)
    = (Ok (total + Z.of_nat (length (concat (rows <$> (chunk_at k df <$> seq j0 m))))),
       ((w, s'), log'))
    ∧ sqlite_takes table_name (columns df) s'
    ∧ SQLiteProvider.conn s' = SQLiteProvider.conn s
    ∧ Sql.tables (SQLiteProvider.db s')
      = <[("main", table_name) :=
            mkDF (columns t0) (dtypes t0)
                 (rows t0 ++ concat (rows <$> (chunk_at k df <$> seq j0 m)))]>
          (Sql.tables (SQLiteProvider.db s)).
Proof.
  intros Hne [Hnd Hlen].
  revert j0 total s log t0. induction m as [|m IH]; intros j0 total s log t0 Ht Ho.
  - exists s, log. simpl. rewrite Z.add_0_r, app_nil_r. split_and!; try done.
    rewrite insert_id; [done|]. by destruct t0.
  - destruct (sqlite_append_step table_name (columns df) s (chunk_at k df j0))
      as (s1 & Hw & Ht1 & Hc1 & Htb1); try done.
    { by apply Forall_py_slice. }
    rewrite Ho in Htb1. simpl in Htb1.
    destruct (IH (S j0) (total + len (chunk_at k df j0)) s1
                (log ++ [(Dest, CallWrite table_name (chunk_at k df j0) "append")])
                (mkDF (columns t0) (dtypes t0) (rows t0 ++ rows (chunk_at k df j0)))
                Ht1)
      as (s' & log' & Hrun & Ht' & Hc' & Htb').
    { rewrite Htb1. by rewrite lookup_insert_eq. }
    exists s', log'. split_and!; try done; [| congruence |].
    + rewrite <- cons_seq, !fmap_cons. cbn [for_each].
      erewrite bind_ok; last first.
      { erewrite bind_ok; [reflexivity|]. apply invoke_eq.
        apply right_provider_write. exact Hw. }
      etrans; [exact Hrun|]. f_equal. f_equal. cbn [concat].
      rewrite length_app. unfold len. lia.
    + rewrite Htb', Htb1. rewrite insert_insert_eq. cbn [columns dtypes rows].
      rewrite <- cons_seq, !fmap_cons. cbn [concat]. by rewrite app_assoc.
Qed.



(** ** apply_corrections is not atomic *)

Lemma sqlite_failed_rewrite (s1 s2 s3 : SQLiteProvider.State) (table_name : string)
    (d df : DataFrame) (e : Exn) :
  SQLiteProvider.delete_table table_name s1 = (Ok tt, s2) →
  SQLiteProvider.write_table table_name d "replace" s2 = (Raise e, s3) →
  (SQLiteProvider.read_table table_name None s3).1 ≠ Ok df.
Proof.
  destruct s1 as [creds con path cn eng fs [up tbl ws acc sel rc pu]].
  unfold SQLiteProvider.delete_table, SQLiteProvider.write_table,
    SQLiteProvider.read_table. run_all. simpl.
  destruct eng as [url|]; [|done]. destruct up; [|done]. simpl.
  intros [= <-]. simpl. rewrite lookup_delete_eq. simpl.
  destruct (acc table_name d); [done|]. simpl. intros [= <- <-]. simpl.
  destruct cn as [[]|]; simpl; try done. by rewrite lookup_delete_eq.
Qed.

Lemma redshift_failed_rewrite (s1 s2 s3 : RedshiftProvider.State)
    (table_name : string) (d df : DataFrame) (e : Exn) :
  RedshiftProvider.delete_table table_name s1 = (Ok tt, s2) →
  RedshiftProvider.write_table table_name d "replace" s2 = (Raise e, s3) →
  (RedshiftProvider.read_table table_name None s3).1 ≠ Ok df.
Proof.
  destruct s1 as [creds con eng [up tbl ws acc sel rc pu]].
  unfold RedshiftProvider.delete_table, RedshiftProvider.write_table,
    RedshiftProvider.read_table, RedshiftProvider.schema_text,
    RedshiftProvider.schema_arg. run_all. simpl.
  destruct eng as [url|]; [|done]. destruct up; [|done]. simpl.
  intros [= <-]. simpl.
  set (st := py_str (cred_get_default creds "schema" (VStr "public"))).
  set (sa := match cred_get_default creds "schema" (VStr "public") with
             | VNone => _ | _ => _ end).
  destruct (delete (st, table_name) tbl !! (sa, table_name)); simpl;
    (destruct (acc table_name d); [done|]); simpl; intros [= <- <-]; simpl;
    subst st; by rewrite lookup_delete_eq.
Qed.

Lemma empty_false_rows (df : DataFrame) : empty df = false → rows df ≠ [].
Proof.
  unfold empty. intros H. apply orb_false_elim in H as [H _].
  by apply bool_decide_eq_false in H.
Qed.

Lemma snowflake_failed_rewrite (s1 s2 s3 : SnowflakeProvider.State)
    (table_name : string) (d df : DataFrame) (e : Exn) :
  rows df ≠ [] →
  SnowflakeProvider.delete_table table_name s1 = (Ok tt, s2) →
  SnowflakeProvider.write_table table_name d "replace" s2 = (Raise e, s3) →
  (SnowflakeProvider.read_table table_name None s3).1 ≠ Ok df.
Proof.
  intros Hrows.
  destruct s1 as [creds con cn [up tbl ws acc sel rc pu]].
  unfold SnowflakeProvider.delete_table, SnowflakeProvider.write_table,
    SnowflakeProvider.read_table, SnowflakeProvider.session_schema. run_all. simpl.
  destruct cn as [[]|]; [|done..]. destruct up; [|done]. simpl.
  intros [= <-]. simpl.
  set (sch := match cred_get creds "schema" with VNone => _ | _ => _ end).
  rewrite delete_delete_eq, lookup_delete_eq. unfold Sql.create_and_load.
  run_all. simpl.
  match goal with
  | |- context [acc table_name ?d0] => destruct (acc table_name d0)
  end; simpl.
  - rewrite lookup_insert_eq. simpl.
    destruct (acc table_name d && forallb _ _); simpl; [done|].
    intros [= <- <-]. simpl. subst sch. rewrite lookup_insert_eq. simpl.
    intros [= <-]. done.
  - intros [= <- <-]. simpl. subst sch. by rewrite lookup_delete_eq.
Qed.

Lemma bigquery_failed_rewrite (s1 s2 s3 : BigQueryProvider.State)
    (table_name : string) (d df : DataFrame) (e : Exn) :
  BigQueryProvider.delete_table table_name s1 = (Ok tt, s2) →
  BigQueryProvider.write_table table_name d "replace" s2 = (Raise e, s3) →
  (BigQueryProvider.read_table table_name None s3).1 ≠ Ok df.
Proof.
  destruct s1 as [creds con cl [up kp ap ds tbl ws acc rep sel]].
  unfold BigQueryProvider.delete_table, BigQueryProvider.write_table,
    BigQueryProvider.read_table, BigQueryProvider._full_table_ref.
  run_all. simpl.
  destruct (str_contains "." table_name); destruct cl as [c|]; simpl; try done;
    (destruct up; [|done]); simpl;
    match goal with
    | |- context [tbl !! ?k] => destruct (tbl !! k) eqn:Ht
    end; simpl; intros [= <-]; simpl; rewrite ?lookup_delete_eq, ?Ht; simpl;
    match goal with
    | |- context [acc ?k d] => destruct (acc k d)
    end; simpl; try done; rewrite ?lookup_delete_eq, ?Ht; simpl; try done;
    intros [= <- <-]; simpl; by rewrite ?lookup_delete_eq, ?Ht.
Qed.

(** X13. [apply_corrections] is not atomic.  Through the SQLite,
    Redshift, Snowflake and BigQuery providers, when the table was read
    with rows and dropped, and the write of the corrected frame then
    raises, [apply_corrections] raises that exception after its three
    calls and restores nothing: the table that was read cannot be read
    back. *)
Theorem apply_corrections_not_atomic (b : Backend) (s s1 s2 s3 : State_of b)
    (table_name : string) (df : DataFrame) (e : Exn) (log : list Event) :
  b ≠ S3 →
  read_table (provider_of b) table_name None s = (Ok df, s1) →
  empty df = false →
  delete_table (provider_of b) table_name s1 = (Ok tt, s2) →
  write_table (provider_of b) table_name (drop_duplicates df) "replace" s2
  = (Raise e, s3) →
  apply_corrections (provider_of b) table_name (s, log)
  = (Raise e,
     (s3, log ++ [(Subject, CallRead table_name None);
                  (Subject, CallDeleteTable table_name);
                  (Subject, CallWrite table_name (drop_duplicates df) "replace")]))
  ∧ (read_table (provider_of b) table_name None s3).1 ≠ Ok df.
Proof.
  intros Hb Hread Hne Hdel Hwrite. split.
  - unfold apply_corrections.
    erewrite bind_ok; [|apply invoke_eq; exact Hread].
    rewrite Hne.
    erewrite bind_ok; [|apply invoke_eq; exact Hdel].
    erewrite bind_raise; [|apply invoke_eq; exact Hwrite].
    by rewrite <- !app_assoc.
  - destruct b; [| | | |done].
    + exact (sqlite_failed_rewrite s1 s2 s3 table_name _ df e Hdel Hwrite).
    + exact (redshift_failed_rewrite s1 s2 s3 table_name _ df e Hdel Hwrite).
    + exact (bigquery_failed_rewrite s1 s2 s3 table_name _ df e Hdel Hwrite).
    + exact (snowflake_failed_rewrite s1 s2 s3 table_name _ df e
               (empty_false_rows df Hne) Hdel Hwrite).
Qed.

Lemma apply_corrections_not_atomic_witness :
  (* a database that takes loads of five rows only *)
  let picky :=
    Sql.mkDatabase true {[("main", "t") := abacb]} Scenario.where_true
      (λ _ d, bool_decide (len d = 5))
      true true (λ _, true) in
  let s : State_of SQLite :=
    (SQLiteProvider.connect
       (SQLiteProvider.init {["db_path" := VStr "data/app.db"]} true picky)).2 in
  let s2 := (delete_table (provider_of SQLite) "t" s).2 in
  let s3 := (write_table (provider_of SQLite) "t" (drop_duplicates abacb) "replace" s2).2 in
  (SQLite ≠ S3
   ∧ read_table (provider_of SQLite) "t" None s = (Ok abacb, s)
   ∧ empty abacb = false
   ∧ delete_table (provider_of SQLite) "t" s = (Ok tt, s2)
   ∧ write_table (provider_of SQLite) "t" (drop_duplicates abacb) "replace" s2
     = (Raise DatabaseError, s3))
  ∧ apply_corrections (provider_of SQLite) "t" (s, [])
    = (Raise DatabaseError,
       (s3, [] ++ [(Subject, CallRead "t" None); (Subject, CallDeleteTable "t");
                   (Subject, CallWrite "t" (drop_duplicates abacb) "replace")]))
  ∧ (read_table (provider_of SQLite) "t" None s3).1 ≠ Ok abacb.
Proof.
  intros picky s s2 s3.
  assert (SQLite ≠ S3) as Hb by discriminate.
  assert (read_table (provider_of SQLite) "t" None s = (Ok abacb, s)) as Hread
    by reflexivity.
  assert (empty abacb = false) as Hne by reflexivity.
  assert (delete_table (provider_of SQLite) "t" s = (Ok tt, s2)) as Hdel
    by reflexivity.
  assert (write_table (provider_of SQLite) "t" (drop_duplicates abacb) "replace" s2
          = (Raise DatabaseError, s3)) as Hwrite by reflexivity.
  split; [done|].
  exact (apply_corrections_not_atomic SQLite s s s2 s3 "t" abacb DatabaseError []
           Hb Hread Hne Hdel Hwrite).
Defined.

(** ** apply_corrections on a SQLite database *)

Lemma kept_NoDup (seen l : list (list Cell)) :
  NoDup (row_key <$> l) → (∀ y, y ∈ l → row_key y ∉ seen) →
  drop_masked (duplicated_from seen l) l = l.
Proof.
  revert seen. induction l as [|x l IH]; intros seen Hnd Hs; [done|].
  rewrite fmap_cons in Hnd. apply NoDup_cons in Hnd as [Hx Hnd].
  rewrite drop_masked_cons. rewrite decide_False by (apply Hs; left).
  f_equal. apply IH; [done|]. intros y Hy. rewrite not_elem_of_cons.
  split; [|apply Hs; by right].
  intros Hk. apply Hx. rewrite <- Hk. apply list_elem_of_fmap. by exists y.
Qed.

Lemma drop_duplicates_idemp (df : DataFrame) :
  drop_duplicates (drop_duplicates df) = drop_duplicates df.
Proof.
  destruct (empty df) eqn:He.
  { unfold drop_duplicates. by rewrite !He. }
  pose proof (empty_drop_duplicates df He) as He'.
  unfold drop_duplicates at 1. rewrite He'. unfold duplicated. rewrite He'.
  rewrite rows_drop_duplicates by done. unfold keep_first.
  rewrite kept_NoDup; [| apply NoDup_kept | set_solver].
  unfold drop_duplicates, duplicated. by rewrite He.
Qed.

Lemma sqlite_rewrite_run (s : SQLiteProvider.State) (table_name : string)
    (d : DataFrame) :
  is_Some (SQLiteProvider.engine s) →
  Sql.up (SQLiteProvider.db s) = true →
  Sql.accepts (SQLiteProvider.db s) table_name d = true →
  ∃ s2 s3,
    SQLiteProvider.delete_table table_name s = (Ok tt, s2)
    ∧ SQLiteProvider.write_table table_name d "replace" s2 = (Ok (len d), s3)
    ∧ SQLiteProvider.conn s3 = SQLiteProvider.conn s
    ∧ SQLiteProvider.engine s3 = SQLiteProvider.engine s
    ∧ Sql.up (SQLiteProvider.db s3) = true
    ∧ Sql.accepts (SQLiteProvider.db s3) = Sql.accepts (SQLiteProvider.db s)
    ∧ Sql.tables (SQLiteProvider.db s3)
      = <[("main", table_name) := d]> (Sql.tables (SQLiteProvider.db s))
    ∧ (Sql.tables (SQLiteProvider.db s) !! ("main", table_name) = Some d → s3 = s).
Proof.
  destruct s as [creds con path cn eng fs [up tbl ws acc sel rc pu]]. simpl.
  intros [url ->] -> Hacc.
  do 2 eexists. split.
  { unfold SQLiteProvider.delete_table. run_all. simpl. reflexivity. }
  split.
  { unfold SQLiteProvider.write_table. run_all. simpl.
    rewrite lookup_delete_eq. simpl. rewrite Hacc. simpl. reflexivity. }
  simpl. rewrite insert_delete_eq. split_and!; try done.
  intros Ht. by rewrite insert_id.
Qed.



(** ** check_table_quality: what the report can hold *)

Lemma bool_sum_bounds (m : list bool) : 0 ≤ bool_sum m ≤ Z.of_nat (length m).
Proof.
  unfold bool_sum. pose proof (length_filter (λ b : bool, b = true) m). lia.
Qed.

Lemma series_bounds (df : DataFrame) (c : string) (f : Cell → bool) :
  0 ≤ match getitem df c with
      | Ok (Series cells) => bool_sum (f <$> cells)
      | _ => 0
      end ≤ len df.
Proof.
  unfold getitem, len.
  destruct (positions_from 0 c (columns df)) as [|i [|j ps]]; try lia.
  pose proof (bool_sum_bounds (f <$> cells_at df i)) as Hb.
  unfold cells_at in Hb. rewrite !length_fmap in Hb. exact Hb.
Qed.

Lemma duplicated_from_first (l : list (list Cell)) :
  l ≠ [] → bool_sum (duplicated_from [] l) < Z.of_nat (length l).
Proof.
  destruct l as [|x l]; [done|]. intros _. cbn [duplicated_from].
  rewrite bool_sum_cons. rewrite bool_decide_eq_false_2 by set_solver.
  pose proof (duplicated_count [row_key x] l). simpl length. lia.
Qed.

Lemma truncated_bounds (f : string → Z) (n : Z) (cs : list string) (acc : Z) :
  (∀ c, 0 ≤ f c ≤ n) →
  acc ≤ foldl (λ a c, a + f c) acc cs ≤ acc + n * Z.of_nat (length cs).
Proof.
  intros Hf. revert acc. induction cs as [|c cs IH]; intros acc.
  - simpl. lia.
  - cbn [foldl]. specialize (IH (acc + f c)).
    specialize (Hf c). simpl length. nia.
Qed.

(** X15. [check_table_quality] calls the provider once, to read the
    table, and leaves it in the state that read left it in; an exception
    of that read is raised on.  Of a table that was read under distinct
    column labels, or without rows or columns, the report gives the row
    count and the header; the [duplicates] count is never negative and is
    below the row count when there are rows; the [nulls_by_column]
    dictionary has an entry for no name but a column label, for every
    column label when the table has rows and columns, and each count lies
    between 0 and the row count; [truncated_like] lies between 0 and the
    row count times the number of string columns; and on a table without
    rows or without columns the three are 0, the empty dictionary and 0.
    A table with rows under a repeated column label makes it raise
    [TypeError] after the read. *)
Theorem check_table_quality_report {W} (provider : DataProvider W)
    (table_name : string) (w : W) (log : list Event) :
  match read_table provider table_name None w with
  | (Raise e, w1) =>
      check_table_quality provider table_name (w, log)
      = (Raise e, (w1, log ++ [(Subject, CallRead table_name None)]))
  | (Ok df, w1) =>
      (NoDup (columns df) ∨ empty df = true →
       ∃ rep,
         check_table_quality provider table_name (w, log)
         = (Ok rep, (w1, log ++ [(Subject, CallRead table_name None)]))
         ∧ report_rows rep = len df
         ∧ report_columns rep = columns df
         ∧ 0 ≤ duplicates rep ∧ (0 < len df → duplicates rep < len df)
         ∧ (∀ c n, nulls_by_column rep !! c = Some n →
                   c ∈ columns df ∧ 0 ≤ n ≤ len df)
         ∧ (empty df = false →
            ∀ c, c ∈ columns df → is_Some (nulls_by_column rep !! c))
         ∧ 0 ≤ truncated_like rep ≤ len df * Z.of_nat (length (object_columns df))
         ∧ (empty df = true →
            duplicates rep = 0 ∧ nulls_by_column rep = ∅ ∧ truncated_like rep = 0))
      ∧ (¬ NoDup (columns df) → empty df = false →
         check_table_quality provider table_name (w, log)
         = (Raise TypeError, (w1, log ++ [(Subject, CallRead table_name None)])))
  end.
Proof.
  destruct (read_table provider table_name None w) as [[df|e] w1] eqn:Hread.
  2:{ unfold check_table_quality.
      by erewrite bind_raise; [|apply invoke_eq; exact Hread]. }
  split; [|by apply check_table_quality_repeated_label].
  intros Hok.
  destruct (check_table_quality_run provider table_name df w w1 log Hread Hok)
    as (rep & Hrun & Hrows & Hcols & Hdup & Hnulls & Htrunc).
  exists rep. split; [exact Hrun|]. split; [exact Hrows|]. split; [exact Hcols|].
  rewrite Hdup, Hnulls, Htrunc. clear Hdup Hnulls Htrunc Hrun.
  destruct (empty df) eqn:He.
  { split_and!; try done. unfold len. nia. }
  pose proof (empty_false_rows df He) as Hne.
  pose proof (truncated_bounds (truncated_count df) (len df)
                (object_columns df) 0) as Htr.
  simpl in Htr.
  specialize (Htr (λ c, series_bounds df c _)).
  split_and!; try done.
  - apply bool_sum_bounds.
  - intros _. by apply duplicated_from_first.
  - intros c n. rewrite foldl_insert_lookup, lookup_empty.
    destruct (decide (c ∈ columns df)); [|done]. intros [= <-].
    split; [done|]. apply series_bounds.
  - intros _ c Hc. rewrite foldl_insert_lookup. by rewrite decide_True.
  - apply Htr.
  - apply Htr.
Qed.

(** ** delete_rows: what is left of the table *)

Lemma sql_delete_from_effect (d d' : Sql.Database) (schema name : string)
    (w : option string) (n : option Z) (old : DataFrame) :
  Sql.tables d !! (schema, name) = Some old →
  Sql.delete_from schema name w d = (Ok n, d') →
  ∃ kept,
    Sql.up d' = true
    ∧ Sql.tables d' !! (schema, name) = Some (mkDF (columns old) (dtypes old) kept)
    ∧ kept `sublist_of` rows old
    ∧ (w = None → kept = [])
    ∧ default 0 n = if Sql.reports_rowcount d
                    then len old - Z.of_nat (length kept) else 0.
Proof.
  destruct d as [up tbl ws acc sel rc pu]. simpl. intros Ht.
  unfold Sql.delete_from. run_all. simpl. destruct up; [|done]. simpl.
  rewrite Ht. destruct w as [w|].
  - destruct (ws w (columns old)) as [p|]; [|done]. simpl.
    intros [= <- <-]. eexists. simpl. rewrite lookup_insert_eq.
    split_and!; [done|done|apply sublist_filter|done|by destruct rc].
  - simpl. intros [= <- <-]. exists []. simpl. rewrite lookup_insert_eq.
    split_and!; try done; [apply sublist_nil_l | by destruct rc].
Qed.

Lemma sql_select_all_inv (d d' : Sql.Database) (schema name : string)
    (df : DataFrame) :
  Sql.select_all schema name None d = (Ok df, d') →
  Sql.up d = true ∧ Sql.tables d !! (schema, name) = Some df.
Proof.
  destruct d as [up tbl ws acc sel rc pu]. unfold Sql.select_all. run_all. simpl.
  destruct up; [|done]. simpl. destruct (tbl !! _); [|done].
  by intros [= <- <-].
Qed.

Lemma sql_select_all_run (d : Sql.Database) (schema name : string) (df : DataFrame) :
  Sql.up d = true → Sql.tables d !! (schema, name) = Some df →
  Sql.select_all schema name None d = (Ok df, d).
Proof.
  destruct d as [up tbl ws acc sel rc pu]. simpl. intros -> Ht.
  unfold Sql.select_all. run_all. simpl. by rewrite Ht.
Qed.

Lemma sqlite_delete_rows_effect (s s' : SQLiteProvider.State) (table_name : string)
    (w : option string) (n : Z) (old : DataFrame) :
  (SQLiteProvider.read_table table_name None s).1 = Ok old →
  SQLiteProvider.delete_rows table_name w s = (Ok n, s') →
  ∃ after,
    (SQLiteProvider.read_table table_name None s').1 = Ok after
    ∧ columns after = columns old ∧ dtypes after = dtypes old
    ∧ rows after `sublist_of` rows old
    ∧ (has_where w = None → rows after = [])
    ∧ n = if Sql.reports_rowcount (SQLiteProvider.db s)
          then len old - len after else 0.
Proof.
  unfold SQLiteProvider.read_table, SQLiteProvider.delete_rows.
  rewrite !bind_get.
  destruct (SQLiteProvider.conn s) as [[]|] eqn:Hc; [|done..].
  erewrite bind_ok; [|reflexivity].
  destruct (SQLiteProvider.engine s) as [url|] eqn:He; [|done].
  erewrite bind_ok; [|reflexivity].
  unfold SQLiteProvider.on_db at 1 2. simpl has_limit.
  destruct (Sql.select_all _ _ _ _) as [[df|] d1] eqn:Hsel; [|done].
  simpl. intros [= ->]. apply sql_select_all_inv in Hsel as [Hup Ht].
  unfold bind at 1.
  destruct (Sql.delete_from _ _ _ _) as [[m|] d2] eqn:Hdel; [|done].
  unfold ret. intros [= <- <-].
  destruct (sql_delete_from_effect _ _ _ _ _ _ _ Ht Hdel)
    as (kept & Hup2 & Ht2 & Hsub & Hnone & Hn).
  exists (mkDF (columns old) (dtypes old) kept).
  split_and!; try done.
  destruct s. simpl in *. subst. unfold use_connection.
  erewrite bind_ok; [|reflexivity].
  unfold SQLiteProvider.on_db. simpl.
  by rewrite (sql_select_all_run _ _ _ _ Hup2 Ht2).
Qed.

Lemma redshift_delete_rows_effect (s s' : RedshiftProvider.State)
    (table_name : string) (w : option string) (n : Z) (old : DataFrame) :
  (RedshiftProvider.read_table table_name None s).1 = Ok old →
  RedshiftProvider.delete_rows table_name w s = (Ok n, s') →
  ∃ after,
    (RedshiftProvider.read_table table_name None s').1 = Ok after
    ∧ columns after = columns old ∧ dtypes after = dtypes old
    ∧ rows after `sublist_of` rows old
    ∧ (has_where w = None → rows after = [])
    ∧ n = if Sql.reports_rowcount (RedshiftProvider.db s)
          then len old - len after else 0.
Proof.
  unfold RedshiftProvider.read_table, RedshiftProvider.delete_rows.
  rewrite !bind_get.
  destruct (RedshiftProvider.engine s) as [url|] eqn:He; [|done].
  do 2 (erewrite bind_ok; [|reflexivity]).
  unfold RedshiftProvider.on_db at 1 2. simpl has_limit.
  destruct (Sql.select_all _ _ _ _) as [[df|] d1] eqn:Hsel; [|done].
  simpl. intros [= ->]. apply sql_select_all_inv in Hsel as [Hup Ht].
  unfold bind at 1.
  destruct (Sql.delete_from _ _ _ _) as [[m|] d2] eqn:Hdel; [|done].
  unfold ret. intros [= <- <-].
  destruct (sql_delete_from_effect _ _ _ _ _ _ _ Ht Hdel)
    as (kept & Hup2 & Ht2 & Hsub & Hnone & Hn).
  exists (mkDF (columns old) (dtypes old) kept).
  split_and!; try done.
  unfold RedshiftProvider.set_db. cbn [RedshiftProvider.engine]. rewrite He.
  erewrite bind_ok; [|reflexivity].
  unfold RedshiftProvider.on_db, RedshiftProvider.schema_text in *.
  cbn [RedshiftProvider.db RedshiftProvider.credentials].
  by rewrite (sql_select_all_run _ _ _ _ Hup2 Ht2).
Qed.

Lemma snowflake_delete_rows_effect (s s' : SnowflakeProvider.State)
    (table_name : string) (w : option string) (n : Z) (old : DataFrame) :
  (SnowflakeProvider.read_table table_name None s).1 = Ok old →
  SnowflakeProvider.delete_rows table_name w s = (Ok n, s') →
  ∃ after,
    (SnowflakeProvider.read_table table_name None s').1 = Ok after
    ∧ columns after = columns old ∧ dtypes after = dtypes old
    ∧ rows after `sublist_of` rows old
    ∧ (has_where w = None → rows after = [])
    ∧ n = if Sql.reports_rowcount (SnowflakeProvider.db s)
          then len old - len after else 0.
Proof.
  unfold SnowflakeProvider.read_table, SnowflakeProvider.delete_rows.
  rewrite !bind_get.
  destruct (SnowflakeProvider.conn s) as [[]|] eqn:Hc; [|done..].
  do 2 (erewrite bind_ok; [|reflexivity]).
  unfold SnowflakeProvider.on_db at 1. simpl has_limit.
  destruct (Sql.select_all _ _ _ _) as [[df|] d1] eqn:Hsel; [|done].
  simpl. intros [= ->]. apply sql_select_all_inv in Hsel as [Hup Ht].
  unfold bind at 1. unfold SnowflakeProvider.on_db at 1.
  destruct (Sql.delete_from _ _ _ _) as [[m|] d2] eqn:Hdel; [|done].
  assert (try_except (match m with Some n => ret n | None => raise TypeError end)
            (ret 0) (SnowflakeProvider.set_db d2 s)
          = (Ok (default 0 m), SnowflakeProvider.set_db d2 s)) as ->
    by (by destruct m).
  intros [= <- <-].
  destruct (sql_delete_from_effect _ _ _ _ _ _ _ Ht Hdel)
    as (kept & Hup2 & Ht2 & Hsub & Hnone & Hn).
  exists (mkDF (columns old) (dtypes old) kept).
  split_and!; try done.
  unfold SnowflakeProvider.set_db. cbn [SnowflakeProvider.conn]. rewrite Hc.
  erewrite bind_ok; [|reflexivity].
  unfold SnowflakeProvider.on_db, SnowflakeProvider.session_schema in *.
  cbn [SnowflakeProvider.db SnowflakeProvider.credentials].
  by rewrite (sql_select_all_run _ _ _ _ Hup2 Ht2).
Qed.

Lemma bigquery_delete_rows_effect (s s' : BigQueryProvider.State)
    (table_name : string) (w : option string) (n : Z) (old : DataFrame) :
  (BigQueryProvider.read_table table_name None s).1 = Ok old →
  BigQueryProvider.delete_rows table_name w s = (Ok n, s') →
  ∃ after,
    (BigQueryProvider.read_table table_name None s').1 = Ok after
    ∧ columns after = columns old ∧ dtypes after = dtypes old
    ∧ rows after `sublist_of` rows old
    ∧ (has_where w = None → rows after = [])
    ∧ n = if BigQuery.reports_dml_rows (BigQueryProvider.cloud s)
          then len old - len after else 0.
Proof.
  destruct s as [creds con cl [up kp ap ds tbl ws acc rep sel]].
  unfold BigQueryProvider.read_table, BigQueryProvider.delete_rows,
    BigQueryProvider._full_table_ref. run_all. simpl.
  destruct (str_contains "." table_name); destruct cl as [c|]; simpl; try done;
    (destruct up; [|done]); simpl;
    match goal with
    | |- context [tbl !! ?k] => destruct (tbl !! k) as [df|] eqn:Ht
    end; simpl; try done; intros [= ->];
    (destruct (has_where w) as [w'|] eqn:Hw; simpl;
     [destruct (ws w' (columns old)) as [p|]; [|done]; simpl|]);
    intros [= <- <-]; simpl; rewrite lookup_insert_eq; simpl;
    eexists; (split; [reflexivity|]); simpl;
    (split_and!; try done; [try apply sublist_filter; try apply sublist_nil_l|]);
    destruct rep; unfold len; simpl; lia.
Qed.



(** ** The methods that only look *)

Ltac keeps_world :=
  let d := fresh "d" in
  intros d; run_all; unfold BigQuery.list_datasets, BigQuery.query_select_1,
    BigQuery.list_tables, S3.list_buckets, S3.paginate, BigQuery.guard_up,
    S3.guard_bucket, S3.guard, bind, get, gets, ret, raise, lift_res;
  simpl; repeat (case_match; simplify_eq/=; try done).

Lemma sql_select_all_keeps {C} (proj : Sql.Database → C) schema name limit :
  keeps proj (Sql.select_all schema name limit).
Proof. keeps_world. Qed.

Lemma sql_table_names_keeps {C} (proj : Sql.Database → C) schema :
  keeps proj (Sql.table_names schema).
Proof. keeps_world. Qed.

Lemma bigquery_list_datasets_keeps {C} (proj : BigQuery.Cloud → C) :
  keeps proj BigQuery.list_datasets.
Proof. keeps_world. Qed.

Lemma bigquery_query_select_1_keeps {C} (proj : BigQuery.Cloud → C) :
  keeps proj BigQuery.query_select_1.
Proof. keeps_world. Qed.

Lemma bigquery_query_select_all_keeps {C} (proj : BigQuery.Cloud → C) full limit :
  keeps proj (BigQuery.query_select_all full limit).
Proof. keeps_world. Qed.

Lemma bigquery_list_tables_keeps {C} (proj : BigQuery.Cloud → C) project ds :
  keeps proj (BigQuery.list_tables project ds).
Proof. keeps_world. Qed.

Lemma s3_new_client_keeps {C} (proj : S3.Store → C) access_key secret_key region :
  keeps proj (S3.new_client access_key secret_key region).
Proof. keeps_world. Qed.

Lemma s3_paginate_keeps {C} (proj : S3.Store → C) bucket prefix :
  keeps proj (S3.paginate bucket prefix).
Proof. keeps_world. Qed.

Lemma s3_get_object_keeps {C} (proj : S3.Store → C) bucket key :
  keeps proj (S3.get_object bucket key).
Proof. keeps_world. Qed.

Lemma bigquery_on_cloud_keeps_cloud {A C} (proj : BigQuery.Cloud → C)
    (m : M BigQuery.Cloud A) :
  keeps proj m →
  keeps (λ s, proj (BigQueryProvider.cloud s)) (BigQueryProvider.on_cloud m).
Proof.
  intros H s. unfold BigQueryProvider.on_cloud.
  specialize (H (BigQueryProvider.cloud s)). by destruct (m _).
Qed.

(** Walks through the body of a method that only queries its backend. *)
Ltac keeps_data :=
  repeat first
    [ apply (sqlite_on_db_keeps_db Sql.tables)
    | apply (redshift_on_db_keeps_db Sql.tables)
    | apply (snowflake_on_db_keeps_db Sql.tables)
    | apply (bigquery_on_cloud_keeps_cloud BigQuery.tables)
    | apply (s3_call_client_keeps_store S3.objects)
    | apply (s3_on_store_keeps_store S3.objects)
    | apply s3_new_client_keeps
    | apply sql_guard_up_keeps
    | apply sql_select_all_keeps
    | apply sql_table_names_keeps
    | apply bigquery_list_datasets_keeps
    | apply bigquery_query_select_1_keeps
    | apply bigquery_query_select_all_keeps
    | apply bigquery_list_tables_keeps
    | apply s3_list_buckets_keeps
    | apply s3_paginate_keeps
    | apply s3_get_object_keeps
    | keeps_step
    | progress unfold use_connection, use_handle, Sql.select_1,
        S3Provider._read_object_df, BigQueryProvider._full_table_ref,
        BigQueryProvider.from_service_account_json, BigQueryProvider.new_client ].


(** ** The S3 provider on what is not there *)

Lemma s3_set_store_id (s : S3Provider.State) :
  S3Provider.set_store (S3Provider.store s) s = s.
Proof. by destruct s. Qed.



(** ** The S3 provider: how many keys list_tables returns *)

Lemma pages_fuel_nil (fuel size : nat) : S3.pages_fuel fuel size [] = [].
Proof. by destruct fuel. Qed.

Lemma collect_first_page (keys : list string) :
  S3Provider.collect_keys
    (match keys with
     | [] => [[]]
     | _ => S3.pages_fuel (length keys) 1000 keys
     end) []
  = take 1000 keys.
Proof.
  destruct keys as [|k keys]; [done|].
  assert (S3.pages_fuel (length (k :: keys)) 1000 (k :: keys)
          = take 1000 (k :: keys)
            :: S3.pages_fuel (length keys) 1000 (drop 1000 (k :: keys))) as ->
    by reflexivity.
  remember (k :: keys) as l eqn:Hl.
  assert (length keys < length l)%nat as Hlen by (subst l; simpl; lia).
  clear Hl. cbn [S3Provider.collect_keys app].
  destruct (decide (200 < length (take 1000 l))%nat) as [|Hle]; [done|].
  rewrite length_take in Hle.
  rewrite drop_ge by lia. rewrite pages_fuel_nil. done.
Qed.

(** X19. Against a store that answers, with a bucket that exists,
    [list_tables] of the S3 provider returns the first 1000 keys of the
    bucket under the configured prefix, in key order, and never more:
    the loop is left after the first page, which holds more than 200
    keys whenever there is a second one. *)
Theorem s3_list_tables_first_page (s : State_of S3) (dataset : option string)
    (b prefix : string) :
  S3Provider.client s = Some tt →
  S3.fault (S3Provider.store s) = None →
  py_or (from_option VStr VNone dataset) (cred_get (S3Provider.credentials s) "bucket")
  = VStr b →
  b ≠ "" → b ∈ S3.buckets (S3Provider.store s) →
  cred_get_default (S3Provider.credentials s) "prefix" (VStr "") = VStr prefix →
  list_tables (provider_of S3) dataset s
  = (Ok (take 1000 (S3.keys_of b prefix (S3Provider.store s))), s)
  ∧ (length (take 1000 (S3.keys_of b prefix (S3Provider.store s))) ≤ 1000)%nat.
Proof.
  intros Hcl Hfault Hb Hbne Hin Hp. split; [|rewrite length_take; lia].
  simpl. unfold S3Provider.list_tables. rewrite bind_get. cbv zeta.
  rewrite Hb, Hp. rewrite truthy_str by done. cbn [negb].
  erewrite bind_ok; last first.
  { apply s3_call_client_run; [done|]. unfold S3.paginate.
    do 2 (erewrite bind_ok; [|reflexivity]).
    erewrite bind_ok; [|by apply s3_guard_bucket_run].
    rewrite bind_get. reflexivity. }
  unfold ret. rewrite collect_first_page. by rewrite s3_set_store_id.
Qed.

Lemma s3_list_tables_first_page_witness :
  let s : State_of S3 :=
    Scenario.s3 {[("lake", "b.csv") := S3.Serialized false abacb;
                  ("lake", "a.csv") := S3.Serialized false abacb;
                  ("pond", "c.csv") := S3.Raw "x"]} in
  (S3Provider.client s = Some tt
   ∧ S3.fault (S3Provider.store s) = None
   ∧ py_or (from_option VStr VNone None)
       (cred_get (S3Provider.credentials s) "bucket") = VStr "lake"
   ∧ "lake" ≠ "" ∧ "lake" ∈ S3.buckets (S3Provider.store s)
   ∧ cred_get_default (S3Provider.credentials s) "prefix" (VStr "") = VStr "")
  ∧ list_tables (provider_of S3) None s = (Ok ["a.csv"; "b.csv"], s).
Proof.
  intros s.
  assert ("lake" ∈ S3.buckets (S3Provider.store s)) as Hin
    by (apply (bool_decide_unpack _); reflexivity).
  split; [split_and!; try reflexivity; [discriminate|exact Hin]|].
  etrans;
    [exact (proj1 (s3_list_tables_first_page s None "lake" "" eq_refl eq_refl
                     eq_refl ltac:(discriminate) Hin eq_refl))|].
  vm_compute. reflexivity.
Defined.

(** ** list_tables after a write and after a drop *)

Lemma elem_of_table_names (tbl : gmap (string * string) DataFrame)
    (schema t : string) :
  t ∈ merge_sort String.le
        (omap (λ k : string * string,
                 if decide (k.1 = schema) then Some k.2 else None)
              (map_to_list tbl).*1)
  ↔ is_Some (tbl !! (schema, t)).
Proof.
  rewrite merge_sort_Permutation, list_elem_of_omap. split.
  - intros (k & Hk & Hs). apply list_elem_of_fmap in Hk as ((k' & v) & -> & Hkv).
    apply elem_of_map_to_list in Hkv. simpl in Hs.
    destruct k' as [k1 k2]. simpl in Hs. case_decide; [|done].
    simplify_eq. by exists v.
  - intros [v Hv]. exists (schema, t). split.
    + apply list_elem_of_fmap. exists ((schema, t), v). split; [done|].
      by apply elem_of_map_to_list.
    + simpl. by rewrite decide_True.
Qed.

Lemma sqlite_listed (s s1 : SQLiteProvider.State) (dataset : option string)
    (names : list string) (t : string) :
  SQLiteProvider.list_tables dataset s = (Ok names, s1) →
  t ∈ names ↔ is_Some (Sql.tables (SQLiteProvider.db s) !! ("main", t)).
Proof.
  destruct s as [creds con path cn eng fs [up tbl ws acc]].
  unfold SQLiteProvider.list_tables. run_all. simpl.
  destruct cn as [[]|]; [|done..]. destruct up; [|done]. simpl.
  intros [= <- <-]. apply elem_of_table_names.
Qed.

Lemma redshift_listed (s s1 : RedshiftProvider.State) (dataset : option string)
    (names : list string) (t : string) :
  RedshiftProvider.list_tables dataset s = (Ok names, s1) →
  t ∈ names
  ↔ is_Some (Sql.tables (RedshiftProvider.db s) !! (RedshiftProvider.schema_arg s, t)).
Proof.
  destruct s as [creds con eng [up tbl ws acc]].
  unfold RedshiftProvider.list_tables. run_all. simpl.
  destruct eng; [|done]. destruct up; [|done]. simpl.
  intros [= <- <-]. apply elem_of_table_names.
Qed.

Lemma snowflake_listed (s s1 : SnowflakeProvider.State) (dataset : option string)
    (names : list string) (t : string) :
  SnowflakeProvider.list_tables dataset s = (Ok names, s1) →
  t ∈ names
  ↔ is_Some (Sql.tables (SnowflakeProvider.db s)
               !! (SnowflakeProvider.session_schema s, t)).
Proof.
  destruct s as [creds con cn [up tbl ws acc]].
  unfold SnowflakeProvider.list_tables. run_all. simpl.
  destruct cn as [[]|]; [|done..]. destruct up; [|done]. simpl.
  intros [= <- <-]. apply elem_of_table_names.
Qed.

Lemma sql_to_sql_lookup {H} (con : option H) (schema name : string)
    (df : DataFrame) (mode : string) (d d' : Sql.Database) :
  Sql.to_sql con schema name df mode d = (Ok tt, d') →
  Sql.up d' = Sql.up d ∧ is_Some (Sql.tables d' !! (schema, name)).
Proof.
  destruct d as [up tbl ws acc]. unfold Sql.to_sql. run_all. simpl.
  repeat (case_match; simplify_eq/=; try done);
    intros; simplify_eq/=; (split; [done|]); by rewrite lookup_insert_eq.
Qed.

Lemma sqlite_written_listed (s s1 s2 : SQLiteProvider.State) (t : string)
    (df : DataFrame) (mode : string) (n : Z) dataset names :
  SQLiteProvider.write_table t df mode s = (Ok n, s1) →
  SQLiteProvider.list_tables dataset s1 = (Ok names, s2) →
  t ∈ names.
Proof.
  intros Hw Hl. rewrite (sqlite_listed _ _ _ _ t Hl).
  revert Hw. unfold SQLiteProvider.write_table. rewrite bind_get.
  unfold bind at 1. unfold SQLiteProvider.on_db.
  destruct (Sql.to_sql _ _ _ _ _ _) as [[[]|] d'] eqn:Hsql; [|done].
  intros [= _ <-]. simpl. by apply sql_to_sql_lookup in Hsql as [_ ?].
Qed.

Lemma redshift_written_listed (s s1 s2 : RedshiftProvider.State) (t : string)
    (df : DataFrame) (mode : string) (n : Z) dataset names :
  RedshiftProvider.write_table t df mode s = (Ok n, s1) →
  RedshiftProvider.list_tables dataset s1 = (Ok names, s2) →
  t ∈ names.
Proof.
  intros Hw Hl. rewrite (redshift_listed _ _ _ _ t Hl).
  revert Hw. unfold RedshiftProvider.write_table. rewrite bind_get.
  unfold bind at 1. unfold RedshiftProvider.on_db.
  destruct (Sql.to_sql _ _ _ _ _ _) as [[[]|] d'] eqn:Hsql; [|done].
  intros [= _ <-]. simpl. by apply sql_to_sql_lookup in Hsql as [_ ?].
Qed.

Lemma sql_write_pandas_lookup (schema name : string) (df : DataFrame)
    (d d' : Sql.Database) r :
  Sql.write_pandas schema name df d = (Ok r, d') →
  is_Some (Sql.tables d' !! (schema, name)).
Proof.
  destruct d as [up tbl ws acc]. unfold Sql.write_pandas. run_all. simpl.
  destruct up; [|done]. simpl. destruct (tbl !! _) as [old|]; [|done]. simpl.
  destruct (acc name df && _); [|done]. simpl.
  intros [= <- <-]. simpl. by rewrite lookup_insert_eq.
Qed.

Lemma snowflake_written_listed (s s1 s2 : SnowflakeProvider.State) (t : string)
    (df : DataFrame) (mode : string) (n : Z) dataset names :
  SnowflakeProvider.write_table t df mode s = (Ok n, s1) →
  SnowflakeProvider.list_tables dataset s1 = (Ok names, s2) →
  t ∈ names.
Proof.
  intros Hw Hl. rewrite (snowflake_listed _ _ _ _ t Hl). clear Hl.
  unfold SnowflakeProvider.write_table in Hw. rewrite bind_get in Hw.
  apply bind_ok_inv in Hw as (? & s3 & Hc & Hw).
  assert (s3 = s) as ->.
  { unfold use_connection, ret, raise in Hc.
    destruct (SnowflakeProvider.conn s) as [[]|]; congruence. }
  apply bind_ok_inv in Hw as (? & s4 & Hdrop & Hw).
  assert (SnowflakeProvider.credentials s4 = SnowflakeProvider.credentials s) as Hc4.
  { destruct (decide (mode = "replace")).
    - apply (f_equal snd) in Hdrop. simpl in Hdrop. rewrite <- Hdrop.
      apply (snowflake_on_db_keeps _ s).
    - unfold ret in Hdrop. congruence. }
  cbv zeta in Hw.
  apply bind_ok_inv in Hw as (? & s5 & Hcreate & Hw).
  assert (SnowflakeProvider.credentials s5 = SnowflakeProvider.credentials s) as Hc5.
  { rewrite <- Hc4. apply (f_equal snd) in Hcreate. simpl in Hcreate.
    rewrite <- Hcreate. apply (snowflake_on_db_keeps _ s4). }
  apply bind_ok_inv in Hw as ([[ok chunks] rows] & s6 & Hwp & Hw).
  unfold ret in Hw. injection Hw as _ <-.
  unfold SnowflakeProvider.on_db in Hwp.
  destruct (Sql.write_pandas _ _ _ _) as [[r|] d'] eqn:Hsql; [|done].
  injection Hwp as _ <-. simpl.
  apply sql_write_pandas_lookup in Hsql.
  unfold SnowflakeProvider.session_schema in *. simpl. by rewrite Hc5.
Qed.

Lemma sqlite_dropped_unlisted (s s1 s2 : SQLiteProvider.State) (t : string)
    dataset names :
  SQLiteProvider.delete_table t s = (Ok tt, s1) →
  SQLiteProvider.list_tables dataset s1 = (Ok names, s2) →
  t ∉ names.
Proof.
  intros Hd Hl. rewrite (sqlite_listed _ _ _ _ t Hl). revert Hd. clear Hl.
  destruct s as [creds con path cn eng fs [up tbl ws acc]].
  unfold SQLiteProvider.delete_table. run_all. simpl.
  destruct eng; [|done]. destruct up; [|done]. simpl. intros [= <-]. simpl.
  rewrite lookup_delete_eq. by intros [? ?].
Qed.

Lemma redshift_dropped_unlisted (s s1 s2 : RedshiftProvider.State) (t : string)
    dataset names :
  RedshiftProvider.schema_text s = RedshiftProvider.schema_arg s →
  RedshiftProvider.delete_table t s = (Ok tt, s1) →
  RedshiftProvider.list_tables dataset s1 = (Ok names, s2) →
  t ∉ names.
Proof.
  intros Hsch Hd Hl. rewrite (redshift_listed _ _ _ _ t Hl). revert Hd. clear Hl.
  unfold RedshiftProvider.delete_table. rewrite bind_get, Hsch.
  destruct s as [creds con eng [up tbl ws acc]].
  unfold RedshiftProvider.schema_arg. run_all. simpl.
  destruct eng; [|done]. destruct up; [|done]. simpl. intros [= <-]. simpl.
  rewrite lookup_delete_eq. by intros [? ?].
Qed.

Lemma snowflake_dropped_unlisted (s s1 s2 : SnowflakeProvider.State) (t : string)
    dataset names :
  SnowflakeProvider.delete_table t s = (Ok tt, s1) →
  SnowflakeProvider.list_tables dataset s1 = (Ok names, s2) →
  t ∉ names.
Proof.
  intros Hd Hl. rewrite (snowflake_listed _ _ _ _ t Hl). revert Hd. clear Hl.
  destruct s as [creds con cn [up tbl ws acc]].
  unfold SnowflakeProvider.delete_table, SnowflakeProvider.session_schema.
  run_all. simpl.
  destruct cn as [[]|]; [|done..]. destruct up; [|done]. simpl.
  intros [= <-]. simpl. rewrite lookup_delete_eq. by intros [? ?].
Qed.

Lemma sqlite_listed_readable (s s1 : SQLiteProvider.State) (t : string)
    dataset names :
  SQLiteProvider.list_tables dataset s = (Ok names, s1) →
  t ∈ names ↔ ∃ df, (SQLiteProvider.read_table t None s).1 = Ok df.
Proof.
  intros Hl. rewrite (sqlite_listed _ _ _ _ t Hl). revert Hl.
  destruct s as [creds con path cn eng fs [up tbl ws acc]].
  unfold SQLiteProvider.list_tables, SQLiteProvider.read_table. run_all. simpl.
  destruct cn as [[]|]; [|done..]. destruct up; [|done]. simpl. intros _.
  destruct (tbl !! _) as [df|]; simpl.
  - split; [by exists df|by eexists].
  - split; [by intros [? ?]|by intros [? ?]].
Qed.

Lemma redshift_listed_readable (s s1 : RedshiftProvider.State) (t : string)
    dataset names :
  RedshiftProvider.schema_text s = RedshiftProvider.schema_arg s →
  RedshiftProvider.list_tables dataset s = (Ok names, s1) →
  t ∈ names ↔ ∃ df, (RedshiftProvider.read_table t None s).1 = Ok df.
Proof.
  intros Hsch Hl. rewrite (redshift_listed _ _ _ _ t Hl). revert Hl.
  unfold RedshiftProvider.read_table. rewrite bind_get, Hsch.
  destruct s as [creds con eng [up tbl ws acc]].
  unfold RedshiftProvider.list_tables, RedshiftProvider.schema_arg. run_all. simpl.
  destruct eng; [|done]. destruct up; [|done]. simpl. intros _.
  destruct (tbl !! _) as [df|]; simpl.
  - split; [by exists df|by eexists].
  - split; [by intros [? ?]|by intros [? ?]].
Qed.

Lemma snowflake_listed_readable (s s1 : SnowflakeProvider.State) (t : string)
    dataset names :
  SnowflakeProvider.list_tables dataset s = (Ok names, s1) →
  t ∈ names ↔ ∃ df, (SnowflakeProvider.read_table t None s).1 = Ok df.
Proof.
  intros Hl. rewrite (snowflake_listed _ _ _ _ t Hl). revert Hl.
  destruct s as [creds con cn [up tbl ws acc]].
  unfold SnowflakeProvider.list_tables, SnowflakeProvider.read_table,
    SnowflakeProvider.session_schema. run_all. simpl.
  destruct cn as [[]|]; [|done..]. destruct up; [|done]. simpl. intros _.
  destruct (tbl !! _) as [df|]; simpl.
  - split; [by exists df|by eexists].
  - split; [by intros [? ?]|by intros [? ?]].
Qed.


